(** * dashboard.py: the data-aggregation pipeline of the Naver dashboard

    A shallow embedding of [src/dashboard.py].  The script is one Streamlit
    page: it parses the keyword box, fetches one trend reply and one blog and
    one shop reply per keyword, and derives tables and charts from the
    resulting data frames.

    Conventions of the embedding:
    - Python exceptions are values of [exn]; code that may raise returns a
      [result], and sequencing stops at the first [Raise] (the script has no
      [try] around any of the modelled statements).
    - A parsed JSON document is a [json] tree; JSON numbers and the floats of
      the data frames are exact rationals ([Q]).
    - A [DataFrame] is a list of column labels and a row-major list of cells;
      the missing value (None / NaN) is [JNull].
    - A [string] holds the UTF-8 encoding of a Python [str].
    - pandas, requests and scikit-learn are libraries outside the repository.
      Their functions are modelled from their documented behaviour, each in a
      definition that carries the library function's name. *)

From Stdlib Require Import String Ascii List NArith ZArith QArith Qabs Bool Arith Lia.
From Stdlib Require Import Permutation Sorted.
Import ListNotations.

Set Warnings "-register-all".

Local Close Scope Q_scope.
Local Open Scope nat_scope.
Local Open Scope string_scope.
Local Open Scope list_scope.

(** ** Python results *)

Inductive exn : Type :=
| KeyError (key : string)
| TypeError
| ValueError
| JSONDecodeError.

Inductive result (A : Type) : Type :=
| Ok (a : A)
| Raise (e : exn).

Arguments Ok {A} a.
Arguments Raise {A} e.

Definition bind {A B : Type} (m : result A) (k : A -> result B) : result B :=
  match m with
  | Ok a => k a
  | Raise e => Raise e
  end.

Notation "x <- m ;; k" := (bind m (fun x => k))
  (at level 61, m at next level, right associativity).

Notation "' pat <- m ;; k" := (bind m (fun x => match x with pat => k end))
  (at level 61, pat pattern, m at next level, right associativity).

(** [for x in l: out.append(f(x))], aborted by the first exception. *)
Fixpoint for_each {A B : Type} (f : A -> result B) (l : list A)
  : result (list B) :=
  match l with
  | [] => Ok []
  | x :: l' => y <- f x ;; ys <- for_each f l' ;; Ok (y :: ys)
  end.

(** ** JSON documents *)

Inductive json : Type :=
| JNull
| JBool (b : bool)
| JNum (q : Q)
| JStr (s : string)
| JArr (l : list json)
| JObj (o : list (string * json)).

Fixpoint assoc {V : Type} (k : string) (o : list (string * V)) : option V :=
  match o with
  | [] => None
  | (k', v) :: o' => if String.eqb k k' then Some v else assoc k o'
  end.

(** [j[k]] for a string key [k]: only a dict can be indexed by a string. *)
Definition getitem (j : json) (k : string) : result json :=
  match j with
  | JObj o =>
      match assoc k o with
      | Some v => Ok v
      | None => Raise (KeyError k)
      end
  | _ => Raise TypeError
  end.

Fixpoint chars (s : string) : list json :=
  match s with
  | EmptyString => []
  | String c s' => JStr (String c EmptyString) :: chars s'
  end.

(** [for x in j]: a list yields its elements, a dict its keys, a string
    its characters; nothing else is iterable. *)
Definition iter (j : json) : result (list json) :=
  match j with
  | JArr l => Ok l
  | JObj o => Ok (map (fun kv => JStr (fst kv)) o)
  | JStr s => Ok (chars s)
  | _ => Raise TypeError
  end.

(** ** Data frames *)

Definition cell : Type := json.

Record DataFrame : Type := mkDataFrame {
  columns : list string;
  rows : list (list cell)
}.

(** [pd.DataFrame()] *)
Definition empty_frame : DataFrame := mkDataFrame [] [].

(** [df.empty]: some axis has length 0. *)
Definition empty (df : DataFrame) : bool :=
  match columns df, rows df with
  | [], _ => true
  | _, [] => true
  | _, _ => false
  end.

Definition mem (k : string) (l : list string) : bool :=
  existsb (String.eqb k) l.

(** Labels in order of first appearance. *)
Fixpoint unique (l : list string) : list string :=
  match l with
  | [] => []
  | k :: l' => k :: filter (fun k' => negb (String.eqb k k')) (unique l')
  end.

Definition record : Type := list (string * json).

Definition get_or_na (r : record) (c : string) : cell :=
  match assoc c r with
  | Some v => v
  | None => JNull
  end.

(** [pd.DataFrame(records)] for a list of dicts: the columns are the keys
    in order of first appearance, a key a record lacks is missing there. *)
Definition DataFrame_of_records (rs : list record) : DataFrame :=
  let cols := unique (flat_map (map fst) rs) in
  mkDataFrame cols (map (fun r => map (get_or_na r) cols) rs).

Definition as_record (j : json) : result record :=
  match j with
  | JObj o => Ok o
  | _ => Raise ValueError
  end.

(** [pd.DataFrame(j)] for a parsed JSON value.  The provider sends an array
    of objects, which is the case modelled in full; [None] gives the empty
    frame.  pandas gives other shapes (arrays of scalars, bare objects or
    strings) shape-dependent treatments that the pipeline never relies on;
    they are collapsed into [ValueError] here. *)
Definition DataFrame_of_json (j : json) : result DataFrame :=
  match j with
  | JNull => Ok empty_frame
  | JArr l => rs <- for_each as_record l ;; Ok (DataFrame_of_records rs)
  | _ => Raise ValueError
  end.

(** ** HTTP replies *)

(** What the script reads of a [requests] response: the status code and
    the body, [None] when the body is not parseable JSON. *)
Record response : Type := mkResponse {
  status_code : Z;
  payload : option json
}.

(** [response.json()] *)
Definition response_json (r : response) : result json :=
  match payload r with
  | Some j => Ok j
  | None => Raise JSONDecodeError
  end.

(** ** The API client (lines 35-82) *)

(** Lines 63-67: the dict appended for one entry of one group. *)
Definition trend_record (group_name : json) (entry : json) : result record :=
  p <- getitem entry "period" ;;
  r <- getitem entry "ratio" ;;
  Ok [("period", p); ("ratio", r); ("keyword", group_name)].

(** Lines 61-67: the body of the outer loop. *)
Definition trend_group (group : json) : result (list record) :=
  group_name <- getitem group "title" ;;
  d <- getitem group "data" ;;
  entries <- iter d ;;
  for_each (trend_record group_name) entries.

(** Lines 59-67: the flattening loop over [data['results']]. *)
Definition normalize (data : json) : result (list record) :=
  rs <- getitem data "results" ;;
  groups <- iter rs ;;
  per_group <- for_each trend_group groups ;;
  Ok (concat per_group).

(** Lines 56-69, from the reply of [requests.post] on. *)
Definition fetch_shopping_trend (r : response) : result DataFrame :=
  if (status_code r =? 200)%Z then
    data <- response_json r ;;
    results <- normalize data ;;
    Ok (DataFrame_of_records results)
  else Ok empty_frame.

(** Lines 79-82, from the reply of [requests.get] on. *)
Definition fetch_search_results (r : response) : result DataFrame :=
  if (status_code r =? 200)%Z then
    data <- response_json r ;;
    items <- getitem data "items" ;;
    DataFrame_of_json items
  else Ok empty_frame.

(** ** Keyword parsing (line 91) *)

(** A Python [str] is a sequence of Unicode code points.  A [string] holds
    its UTF-8 encoding, one [ascii] per byte: two strings are equal, or
    ordered, as their code point sequences are, and a character below 128
    is a byte that occurs in the encoding of no other character. *)

(** The UTF-8 encoding of a code point. *)
Definition utf8 (cp : N) : list ascii :=
  let continuation (n : N) := ascii_of_N (128 + n mod 64)%N in
  if (cp <? 128)%N then [ascii_of_N cp]
  else if (cp <? 2048)%N then
    [ascii_of_N (192 + cp / 64)%N; continuation cp]
  else if (cp <? 65536)%N then
    [ascii_of_N (224 + cp / 4096)%N; continuation (cp / 64)%N;
     continuation cp]
  else
    [ascii_of_N (240 + cp / 262144)%N; continuation (cp / 4096)%N;
     continuation (cp / 64)%N; continuation cp].

(** [s.split(sep)] for a one-character separator below 128. *)
Fixpoint split (sep : ascii) (s : string) : list string :=
  match s with
  | EmptyString => [EmptyString]
  | String c s' =>
      if Ascii.eqb c sep then EmptyString :: split sep s'
      else match split sep s' with
           | [] => [String c EmptyString]
           | w :: ws => String c w :: ws
           end
  end.

(** The white space of Python: the code points for which [str.isspace]
    holds, which are the ones [str.strip] removes. *)
Definition whitespace : list N :=
  [9; 10; 11; 12; 13; 28; 29; 30; 31; 32; 133; 160; 5760;
   8192; 8193; 8194; 8195; 8196; 8197; 8198; 8199; 8200; 8201; 8202;
   8232; 8233; 8239; 8287; 12288]%N.

(** [str.isspace] on one character. *)
Definition isspace (cp : N) : bool := existsb (N.eqb cp) whitespace.

(** [l] without its prefix [p], when it has that prefix. *)
Fixpoint prefix_rest (p l : list ascii) : option (list ascii) :=
  match p, l with
  | [], _ => Some l
  | a :: p', b :: l' => if Ascii.eqb a b then prefix_rest p' l' else None
  | _ :: _, [] => None
  end.

(** [l] without its first character, when that is white space; [enc] gives
    the bytes of a character in the order in which [l] is read. *)
Definition after_space (enc : N -> list ascii) (l : list ascii)
  : option (list ascii) :=
  fold_right (fun cp found => match prefix_rest (enc cp) l with
                              | Some r => Some r
                              | None => found
                              end)
             None whitespace.

(** The loop [while i < len(s) and s[i].isspace(): i += 1]; no more
    characters are dropped than [fuel], which the callers set to the number
    of bytes. *)
Fixpoint drop_spaces (enc : N -> list ascii) (fuel : nat) (l : list ascii)
  : list ascii :=
  match fuel with
  | O => l
  | S fuel' =>
      match after_space enc l with
      | Some r => drop_spaces enc fuel' r
      | None => l
      end
  end.

(** [s.lstrip()] *)
Definition lstrip (s : string) : string :=
  let l := list_ascii_of_string s in
  string_of_list_ascii (drop_spaces utf8 (List.length l) l).

(** [s.rstrip()]: the same loop from the right end, on the bytes in
    reverse. *)
Definition rstrip (s : string) : string :=
  let l := rev (list_ascii_of_string s) in
  string_of_list_ascii
    (rev (drop_spaces (fun cp => rev (utf8 cp)) (List.length l) l)).

(** [s.strip()] *)
Definition strip (s : string) : string := rstrip (lstrip s).

(** Truth value of a string: non-empty. *)
Definition truthy (s : string) : bool :=
  match s with
  | EmptyString => false
  | _ => true
  end.

(** Line 91: [[k.strip() for k in keyword_input.split(",") if k.strip()]]. *)
Definition parse_keywords (keyword_input : string) : list string :=
  flat_map (fun k => if truthy (strip k) then [strip k] else [])
           (split "," keyword_input).

(** ** Dicts with insertion order *)

Definition dict (V : Type) : Type := list (string * V).

(** [d[k] = v]: a key already present keeps its position and takes the
    new value. *)
Fixpoint dict_set {V : Type} (k : string) (v : V) (d : dict V) : dict V :=
  match d with
  | [] => [(k, v)]
  | (k', v') :: d' =>
      if String.eqb k k' then (k, v) :: d' else (k', v') :: dict_set k v d'
  end.

Definition keys {V : Type} (d : dict V) : list string := map fst d.

(** [d[k]] *)
Definition dict_getitem {V : Type} (d : dict V) (k : string) : result V :=
  match assoc k d with
  | Some v => Ok v
  | None => Raise (KeyError k)
  end.

(** [d.get(k, default)] *)
Definition dict_get {V : Type} (d : dict V) (k : string) (default : V) : V :=
  match assoc k d with
  | Some v => v
  | None => default
  end.

(** ** Data collection (lines 101-103) *)

(** The provider as the run sees it: the reply to the one trend request,
    and the reply to the [i]-th search request of a kind (the requests of a
    kind are issued in keyword order, so [i] is the keyword's position).
    Transport failures, where [requests] itself raises, are not modelled. *)
Record network : Type := mkNetwork {
  post_trend : list string -> response;
  get_search : string -> nat -> string -> response
}.

(** The dict comprehension [{kw: fetch_search_results(kind, kw) for kw in
    keywords}], evaluated left to right from position [i] on. *)
Fixpoint search_all (net : network) (kind : string) (i : nat)
    (kws : list string) (d : dict DataFrame) : result (dict DataFrame) :=
  match kws with
  | [] => Ok d
  | kw :: kws' =>
      df <- fetch_search_results (get_search net kind i kw) ;;
      search_all net kind (S i) kws' (dict_set kw df d)
  end.

Record collected : Type := mkCollected {
  trend_df : DataFrame;
  blog_dfs : dict DataFrame;
  shop_dfs : dict DataFrame
}.

(** Lines 101-103. *)
Definition collect (net : network) (keywords : list string)
  : result collected :=
  t <- fetch_shopping_trend (post_trend net keywords) ;;
  b <- search_all net "blog" 0 keywords [] ;;
  s <- search_all net "shop" 0 keywords [] ;;
  Ok (mkCollected t b s).

(** ** Columns of a frame *)

Fixpoint index_of (c : string) (cols : list string) : option nat :=
  match cols with
  | [] => None
  | c' :: cols' =>
      if String.eqb c c' then Some 0 else option_map S (index_of c cols')
  end.

(** [df[c]] *)
Definition column (df : DataFrame) (c : string) : result (list cell) :=
  match index_of c (columns df) with
  | Some i => Ok (map (fun r => nth i r JNull) (rows df))
  | None => Raise (KeyError c)
  end.

Fixpoint replace_nth {A : Type} (i : nat) (x : A) (l : list A) : list A :=
  match l, i with
  | [], _ => []
  | _ :: l', O => x :: l'
  | y :: l', S i' => y :: replace_nth i' x l'
  end.

Fixpoint zip_with {A B C : Type} (f : A -> B -> C) (l : list A) (m : list B)
  : list C :=
  match l, m with
  | x :: l', y :: m' => f x y :: zip_with f l' m'
  | _, _ => []
  end.

(** [df[c] = values], for a series aligned with the rows of [df]: an
    existing column is overwritten in place, a new one is added last. *)
Definition set_column (df : DataFrame) (c : string) (values : list cell)
  : DataFrame :=
  match index_of c (columns df) with
  | Some i =>
      mkDataFrame (columns df)
        (zip_with (fun r v => replace_nth i v r) (rows df) values)
  | None =>
      mkDataFrame (columns df ++ [c])
        (zip_with (fun r v => r ++ [v]) (rows df) values)
  end.

(** [df[c] = v] for a scalar [v]. *)
Definition set_column_scalar (df : DataFrame) (c : string) (v : cell)
  : DataFrame :=
  set_column df c (map (fun _ => v) (rows df)).

(** [pd.concat(dfs)]: rows in order, columns united in order of first
    appearance, a column a frame lacks is missing in its rows. *)
Definition concat_frames (dfs : list DataFrame) : DataFrame :=
  let cols := unique (flat_map columns dfs) in
  mkDataFrame cols
    (flat_map
       (fun df =>
          map (fun r =>
                 map (fun c => match index_of c (columns df) with
                               | Some i => nth i r JNull
                               | None => JNull
                               end) cols)
              (rows df))
       dfs).

(** ** Numeric coercion: [pd.to_numeric(..., errors='coerce')] *)

Definition digit (c : ascii) : option Z :=
  let n := nat_of_ascii c in
  if ((48 <=? n) && (n <=? 57))%nat then Some (Z.of_nat (n - 48)) else None.

(** Reads a run of digits: the value accumulated, the number of digits read
    and the rest of the input. *)
Fixpoint digits (acc : Z) (n : nat) (l : list ascii)
  : Z * nat * list ascii :=
  match l with
  | [] => (acc, n, [])
  | c :: l' =>
      match digit c with
      | Some d => digits (10 * acc + d)%Z (S n) l'
      | None => (acc, n, l)
      end
  end.

Definition sign (l : list ascii) : bool * list ascii :=
  match l with
  | "-"%char :: l' => (true, l')
  | "+"%char :: l' => (false, l')
  | _ => (false, l)
  end.

(** The optional exponent part; [None] when an exponent mark is not
    followed by digits, or when input is left over. *)
Definition exponent (l : list ascii) : option Z :=
  match l with
  | [] => Some 0%Z
  | c :: l' =>
      if (Ascii.eqb c "e" || Ascii.eqb c "E")%bool then
        let '(neg, l1) := sign l' in
        match digits 0 0 l1 with
        | (_, O, _) => None
        | (e, _, []) => Some (if neg then - e else e)%Z
        | _ => None
        end
      else None
  end.

Definition isspace_ascii (c : ascii) : bool :=
  let n := nat_of_ascii c in
  (((9 <=? n) && (n <=? 13)) || (n =? 32))%nat.

Fixpoint skip_spaces (l : list ascii) : list ascii :=
  match l with
  | c :: l' => if isspace_ascii c then skip_spaces l' else l
  | [] => []
  end.

(** The number a string spells, if any: an optionally signed decimal
    literal with optional fraction and exponent, blanks around it allowed.
    (pandas also reads the spellings of infinity, which [Q] cannot hold;
    the model treats them as not numeric.) *)
Definition parse_number (s : string) : option Q :=
  let l := rev (skip_spaces (rev (skip_spaces (list_ascii_of_string s)))) in
  let '(neg, l1) := sign l in
  let '(ip, ni, l2) := digits 0 0 l1 in
  let '(m, nf, l3) :=
    match l2 with
    | "."%char :: l2' => digits ip 0 l2'
    | _ => (ip, O, l2)
    end in
  match (ni + nf)%nat with
  | O => None
  | _ =>
      match exponent l3 with
      | None => None
      | Some e =>
          let e' := (e - Z.of_nat nf)%Z in
          let m' := if neg then (- m)%Z else m in
          Some (Qred (if (0 <=? e')%Z
                      then inject_Z (m' * 10 ^ e')
                      else Qmake m' (Z.to_pos (10 ^ (- e')))))
      end
  end.

(** One cell under [errors='coerce']: numbers stay, strings are parsed,
    booleans count as 0 and 1, everything else becomes missing. *)
Definition to_numeric_coerce (c : cell) : cell :=
  match c with
  | JNum q => JNum q
  | JStr s =>
      match parse_number s with
      | Some q => JNum q
      | None => JNull
      end
  | JBool b => JNum (if b then 1%Q else 0%Q)
  | _ => JNull
  end.

(** [pd.to_numeric(series, errors='coerce')] *)
Definition to_numeric (series : list cell) : list cell :=
  map to_numeric_coerce series.

(** ** Statistics of a numeric column *)

(** The values present in a column, missing cells skipped. *)
Definition numbers (series : list cell) : list Q :=
  flat_map (fun c => match c with JNum q => [q] | _ => [] end) series.

Definition Qsum (l : list Q) : Q := fold_right Qplus 0%Q l.

Definition Qmin' (a b : Q) : Q := if Qle_bool a b then a else b.
Definition Qmax' (a b : Q) : Q := if Qle_bool a b then b else a.

Definition extremum (f : Q -> Q -> Q) (l : list Q) : option Q :=
  match l with
  | [] => None
  | v :: vs => Some (fold_left f vs v)
  end.

(** [series.count()] *)
Definition series_count (series : list cell) : nat :=
  length (numbers series).

(** [series.mean()]: the mean of the values present, missing when there
    are none. *)
Definition series_mean (series : list cell) : option Q :=
  match numbers series with
  | [] => None
  | vs => Some (Qsum vs / inject_Z (Z.of_nat (length vs)))%Q
  end.

(** The rows of [series.describe()] that are rational: count, mean, min and
    max.  (std and the quartiles, which pandas computes from the same values
    present, are not carried.) *)
Record description : Type := mkDescription {
  d_count : nat;
  d_mean : option Q;
  d_min : option Q;
  d_max : option Q
}.

Definition describe (series : list cell) : description :=
  mkDescription (series_count series) (series_mean series)
                (extremum Qmin' (numbers series))
                (extremum Qmax' (numbers series)).

(** ** Sorting and counting *)

Fixpoint insert_by {A : Type} (le : A -> A -> bool) (x : A) (l : list A)
  : list A :=
  match l with
  | [] => [x]
  | y :: l' => if le x y then x :: l else y :: insert_by le x l'
  end.

(** A stable sort: of two elements the order does not separate, the one
    that came first stays first. *)
Definition sort_by {A : Type} (le : A -> A -> bool) (l : list A) : list A :=
  fold_right (insert_by le) [] l.

Definition isna (c : cell) : bool :=
  match c with
  | JNull => true
  | _ => false
  end.

(** Lists and dicts cannot be hashed. *)
Definition hashable (c : cell) : bool :=
  match c with
  | JArr _ | JObj _ => false
  | _ => true
  end.

(** Equality of hashable cells. *)
Definition cell_eqb (a b : cell) : bool :=
  match a, b with
  | JNull, JNull => true
  | JBool x, JBool y => Bool.eqb x y
  | JNum x, JNum y => Qeq_bool x y
  | JStr x, JStr y => String.eqb x y
  | _, _ => false
  end.

Fixpoint bump (c : cell) (acc : list (cell * nat)) : list (cell * nat) :=
  match acc with
  | [] => [(c, 1)]
  | (c', n) :: acc' =>
      if cell_eqb c c' then (c', S n) :: acc' else (c', n) :: bump c acc'
  end.

(** [series.value_counts()]: the values present with their counts, most
    frequent first, ties in order of first appearance. *)
Definition value_counts (series : list cell) : result (list (cell * nat)) :=
  if forallb hashable series then
    Ok (sort_by (fun a b => (snd b <=? snd a)%nat)
          (fold_left (fun acc c => bump c acc)
             (filter (fun c => negb (isna c)) series) []))
  else Raise TypeError.

(** [series.isin(values)] on one cell. *)
Definition isin (values : list cell) (c : cell) : bool :=
  existsb (cell_eqb c) values.

Definition str_label (c : cell) : option string :=
  match c with
  | JStr s => Some s
  | _ => None
  end.

Definition labels (series : list cell) : list string :=
  flat_map (fun c => match str_label c with Some s => [s] | None => [] end)
           series.

(** The cells of [values] on the rows whose key is the string [k]. *)
Definition group (k : string) (keys values : list cell) : list cell :=
  flat_map (fun kv => if cell_eqb (JStr k) (fst kv) then [snd kv] else [])
           (combine keys values).

(** [df.groupby(key)[value].mean()] for a column of string keys: one entry
    per key, keys in sorted order.  (The script groups by the [keyword]
    column it has written itself, so the keys are strings.) *)
Definition groupby_mean (keys values : list cell)
  : list (string * option Q) :=
  map (fun k => (k, series_mean (group k keys values)))
      (sort_by String.leb (unique (labels keys))).

(** ** Equal-width bins: [pd.cut(series, bins=n)] *)

(** The interval (lo, hi], closed on the right. *)
Record interval : Type := mkInterval {
  lo : Q;
  hi : Q
}.

Definition within (v : Q) (i : interval) : bool :=
  negb (Qle_bool v (lo i)) && Qle_bool v (hi i).

(** [np.linspace(a, b, n + 1)] *)
Definition linspace (a b : Q) (n : nat) : list Q :=
  map (fun i => a + (b - a) * (inject_Z (Z.of_nat i) / inject_Z (Z.of_nat n)))%Q
      (seq 0 (S n)).

Definition margin (v : Q) : Q :=
  if Qeq_bool v 0 then (1 # 1000)%Q else ((1 # 1000) * Qabs v)%Q.

(** The [n + 1] edges: over [min, max] with the first edge lowered by 0.1%
    of the range, or around the single value when min = max.  A column
    with no value present cannot be cut. *)
Definition bin_edges (n : nat) (vs : list Q) : result (list Q) :=
  match extremum Qmin' vs, extremum Qmax' vs with
  | Some mn, Some mx =>
      if Qeq_bool mn mx then
        Ok (linspace (mn - margin mn)%Q (mx + margin mx)%Q n)
      else
        match linspace mn mx n with
        | e :: es => Ok ((e - (mx - mn) * (1 # 1000))%Q :: es)
        | [] => Ok []
        end
  | _, _ => Raise ValueError
  end.

Fixpoint intervals (edges : list Q) : list interval :=
  match edges with
  | a :: (b :: _) as rest => mkInterval a b :: intervals rest
  | _ => []
  end.

Fixpoint find_bin (v : Q) (bins : list interval) : option nat :=
  match bins with
  | [] => None
  | i :: bins' => if within v i then Some 0 else option_map S (find_bin v bins')
  end.

(** The bins and, row by row, the position of the bin the value falls in
    (none for a missing value). *)
Definition cut (n : nat) (series : list cell)
  : result (list interval * list (option nat)) :=
  edges <- bin_edges n (numbers series) ;;
  let bins := intervals edges in
  Ok (bins,
      map (fun c => match c with
                    | JNum v => find_bin v bins
                    | _ => None
                    end) series).

(** ** The pivoted trend table (line 119) *)

(** One row of the trend frame: month label, source term, click index. *)
Record KeywordTrendPoint : Type := mkPoint {
  period : string;
  keyword : string;
  ratio : Q
}.

(** A row of the trend frame read as a point, when its labels are strings
    and its ratio a number (what the provider sends). *)
Definition trend_point (p k r : cell) : option KeywordTrendPoint :=
  match p, k, r with
  | JStr p', JStr k', JNum r' => Some (mkPoint p' k' r')
  | _, _, _ => None
  end.

Record PivotTable : Type := mkPivot {
  p_index : list string;
  p_columns : list string;
  p_values : list (list (option Q))
}.

Definition at_key (p k : string) (x : KeywordTrendPoint) : bool :=
  String.eqb p (period x) && String.eqb k (keyword x).

Fixpoint duplicated (pts : list KeywordTrendPoint) : bool :=
  match pts with
  | [] => false
  | x :: pts' => existsb (at_key (period x) (keyword x)) pts' || duplicated pts'
  end.

(** [df.pivot(index="period", columns="keyword", values="ratio")]: one row
    per period and one column per keyword, both sorted; a cell holds the
    ratio of the row with that period and keyword and is missing when there
    is none.  Two rows with the same period and keyword cannot be reshaped:
    pandas raises [ValueError]. *)
Definition pivot (pts : list KeywordTrendPoint) : result PivotTable :=
  if duplicated pts then Raise ValueError
  else
    let idx := sort_by String.leb (unique (map period pts)) in
    let cols := sort_by String.leb (unique (map keyword pts)) in
    Ok (mkPivot idx cols
          (map (fun p =>
                  map (fun k => option_map ratio (find (at_key p k) pts)) cols)
               idx)).

(** The cell of a pivot table at row [p] and column [k]; [None] when the
    cell is missing or the table has no such row or column. *)
Definition pivot_cell (t : PivotTable) (p k : string) : option Q :=
  match index_of p (p_index t), index_of k (p_columns t) with
  | Some i, Some j => nth j (nth i (p_values t) []) None
  | _, _ => None
  end.

(** ** What the page shows *)

(** One constructor per table or chart of the script, holding the data the
    script hands to Streamlit or Plotly. *)
Inductive widget : Type :=
| line_chart (pts : list KeywordTrendPoint)            (* lines 113-115 *)
| pivot_dataframe (t : PivotTable)                     (* line 120 *)
| trend_statistics (s : list (string * description))   (* line 124 *)
| warning                                              (* line 126 *)
| describe_dataframe (d : description)                 (* line 141 *)
| top_malls_table (counts : list (cell * nat))         (* line 144 *)
| histogram (df : DataFrame)                           (* lines 161-163 *)
| avg_price_bar (avg : list (string * option Q))       (* lines 166-169 *)
| word_bar (kw : string) (words : list (string * Q))   (* lines 180-183 *)
| mall_box (df : DataFrame)                            (* lines 186-190 *)
| price_summary_dataframe (bins : list interval)
    (binned : list (cell * option nat))                (* lines 197-200 *)
| raw_shop (kw : string) (df : DataFrame)              (* line 205 *)
| raw_blog (kw : string) (df : DataFrame).             (* line 207 *)

(** ** Tab 1: trend comparison (lines 109-126) *)

(** Lines 111-126 on the rows of the trend frame. *)
Definition tab_trend (pts : list KeywordTrendPoint) : result (list widget) :=
  match pts with
  | [] => Ok [warning]
  | _ =>
      pivot_trend <- pivot pts ;;
      let keys := map (fun x => JStr (keyword x)) pts in
      let ratios := map (fun x => JNum (ratio x)) pts in
      Ok [line_chart pts;
          pivot_dataframe pivot_trend;
          trend_statistics
            (map (fun k => (k, describe (group k keys ratios)))
                 (sort_by String.leb (unique (labels keys))))]
  end.

(** ** Tab 2: basic statistics (lines 129-144) *)

(** Lines 135-144 for one keyword.  [shop_df] is the frame stored in
    [shop_dfs] under [kw], not a copy: the assignment of line 138 changes the
    stored frame, which the returned dict records. *)
Definition eda_keyword (kw : string) (shop_dfs : dict DataFrame)
  : result (dict DataFrame * list widget) :=
  let shop_df := dict_get shop_dfs kw empty_frame in
  if empty shop_df then Ok (shop_dfs, [])
  else
    lprice <- column shop_df "lprice" ;;
    let shop_df := set_column shop_df "lprice" (to_numeric lprice) in
    let shop_dfs := dict_set kw shop_df shop_dfs in
    lprice <- column shop_df "lprice" ;;
    mallName <- column shop_df "mallName" ;;
    counts <- value_counts mallName ;;
    Ok (shop_dfs,
        [describe_dataframe (describe lprice);
         top_malls_table (firstn 10 counts)]).

(** Lines 133-144. *)
Fixpoint tab_eda (keywords : list string) (shop_dfs : dict DataFrame)
  : result (dict DataFrame * list widget) :=
  match keywords with
  | [] => Ok (shop_dfs, [])
  | kw :: keywords' =>
      '(shop_dfs, ws) <- eda_keyword kw shop_dfs ;;
      '(shop_dfs, ws') <- tab_eda keywords' shop_dfs ;;
      Ok (shop_dfs, ws ++ ws')
  end.

(** ** Tab 3: detailed charts (lines 147-190) *)

(** Lines 154-156: the copy made of one keyword's frame. *)
Definition shop_view (kw : string) (df : DataFrame) : result DataFrame :=
  let tdf := set_column_scalar df "keyword" (JStr kw) in
  lprice <- column tdf "lprice" ;;
  Ok (set_column tdf "lprice" (to_numeric lprice)).

(** Lines 151-157. *)
Fixpoint all_shop_data (items : dict DataFrame) : result (list DataFrame) :=
  match items with
  | [] => Ok []
  | (kw, df) :: items' =>
      if empty df then all_shop_data items'
      else
        tdf <- shop_view kw df ;;
        rest <- all_shop_data items' ;;
        Ok (tdf :: rest)
  end.

(** [series.fillna('')], then used as an operand of string [+]. *)
Definition text_of (c : cell) : result string :=
  match c with
  | JNull => Ok ""
  | JStr s => Ok s
  | _ => Raise TypeError
  end.

(** Line 177. *)
Definition corpus (b_df : DataFrame) : result (list string) :=
  title <- column b_df "title" ;;
  lhs <- for_each (fun c => t <- text_of c ;; Ok (t ++ " ")%string) title ;;
  description <- column b_df "description" ;;
  rhs <- for_each text_of description ;;
  Ok (zip_with String.append lhs rhs).

(** [matrix.sum(axis=0)] for a matrix of [n] columns. *)
Definition column_sums (n : nat) (matrix : list (list Q)) : list Q :=
  map (fun j => Qsum (map (fun row => nth j row 0%Q) matrix)) (seq 0 n).

Section Salience.

(** [TfidfVectorizer(max_features=20).fit_transform] followed by
    [get_feature_names_out]: the vocabulary and, per document, the score
    of each vocabulary term.  scikit-learn is taken as given. *)
Variable fit_transform : list string -> result (list string * list (list Q)).

(** Lines 176-180. *)
Definition salience (b_df : DataFrame) : result (list (string * Q)) :=
  docs <- corpus b_df ;;
  '(names, tfidf_matrix) <- fit_transform docs ;;
  let weights := column_sums (length names) tfidf_matrix in
  Ok (sort_by (fun a b => Qle_bool (snd b) (snd a)) (combine names weights)).

(** Lines 173-183. *)
Fixpoint blog_words (keywords : list string) (blog_dfs : dict DataFrame)
  : result (list widget) :=
  match keywords with
  | [] => Ok []
  | kw :: keywords' =>
      let b_df := dict_get blog_dfs kw empty_frame in
      if empty b_df then blog_words keywords' blog_dfs
      else
        words_df <- salience b_df ;;
        rest <- blog_words keywords' blog_dfs ;;
        Ok (word_bar kw words_df :: rest)
  end.

(** Lines 151-190.  Returns [combined_shop] when it has been bound. *)
Definition tab_viz (keywords : list string) (blog_dfs shop_dfs : dict DataFrame)
  : result (option DataFrame * list widget) :=
  frames <- all_shop_data shop_dfs ;;
  match frames with
  | [] => Ok (None, [])
  | _ =>
      let combined_shop := concat_frames frames in
      keys <- column combined_shop "keyword" ;;
      lprice <- column combined_shop "lprice" ;;
      words <- blog_words keywords blog_dfs ;;
      mallName <- column combined_shop "mallName" ;;
      counts <- value_counts mallName ;;
      let top_malls := map fst (firstn 10 counts) in
      let mall_subset :=
        mkDataFrame (columns combined_shop)
          (map fst (filter (fun rm => isin top_malls (snd rm))
                      (combine (rows combined_shop) mallName))) in
      Ok (Some combined_shop,
          [histogram combined_shop; avg_price_bar (groupby_mean keys lprice)]
          ++ words ++ [mall_box mall_subset])
  end.

(** ** Tab 4: raw data (lines 193-207) *)

(** Lines 196-200. *)
Definition price_summary (combined_shop : option DataFrame)
  : result (list widget) :=
  match combined_shop with
  | None => Ok []
  | Some combined_shop =>
      lprice <- column combined_shop "lprice" ;;
      '(bins, price_bin) <- cut 5 lprice ;;
      keys <- column combined_shop "keyword" ;;
      Ok [price_summary_dataframe bins (combine keys price_bin)]
  end.

(** Lines 202-207. *)
Definition raw_data (keywords : list string) (blog_dfs shop_dfs : dict DataFrame)
  : result (list widget) :=
  per_kw <- for_each (fun kw =>
                        s <- dict_getitem shop_dfs kw ;;
                        b <- dict_getitem blog_dfs kw ;;
                        Ok [raw_shop kw s; raw_blog kw b]) keywords ;;
  Ok (concat per_kw).

Definition tab_raw (keywords : list string) (blog_dfs shop_dfs : dict DataFrame)
    (combined_shop : option DataFrame) : result (list widget) :=
  summary <- price_summary combined_shop ;;
  raws <- raw_data keywords blog_dfs shop_dfs ;;
  Ok (summary ++ raws).

(** ** Tabs 2 to 4 in sequence (lines 129-207) *)

Record page : Type := mkPage {
  eda : list widget;
  viz : list widget;
  raw : list widget
}.

Definition search_tabs (keywords : list string) (c : collected)
  : result page :=
  '(shop_dfs, eda) <- tab_eda keywords (shop_dfs c) ;;
  '(combined_shop, viz) <- tab_viz keywords (blog_dfs c) shop_dfs ;;
  raw <- tab_raw keywords (blog_dfs c) shop_dfs combined_shop ;;
  Ok (mkPage eda viz raw).

End Salience.

(** The rows of the trend frame as points; the empty frame has none. *)
Definition trend_points (df : DataFrame) : option (list KeywordTrendPoint) :=
  if empty df then Some []
  else
    match column df "period", column df "keyword", column df "ratio" with
    | Ok ps, Ok ks, Ok rs =>
        fold_right
          (fun x acc =>
             match x, acc with
             | Some pt, Some pts => Some (pt :: pts)
             | _, _ => None
             end)
          (Some [])
          (zip_with (fun pk r => trend_point (fst pk) (snd pk) r)
                    (combine ps ks) rs)
    | _, _, _ => None
    end.

(** ** Vocabulary of the statements *)

(** A 2xx status. *)
Definition success (r : response) : bool :=
  ((200 <=? status_code r) && (status_code r <? 300))%Z.

(** A reply with status 200 whose body is not JSON. *)
Definition malformed (r : response) : Prop :=
  status_code r = 200%Z /\ payload r = None.

(** [j[k]], or null where that raises. *)
Definition field (j : json) (k : string) : json :=
  match getitem j k with
  | Ok v => v
  | Raise _ => JNull
  end.

Definition elements (j : json) : list json :=
  match j with
  | JArr l => l
  | _ => []
  end.

(** An entry of a trend group: an object with a period and a ratio. *)
Definition entry_ok (e : json) : Prop :=
  (exists p, getitem e "period" = Ok p) /\ (exists r, getitem e "ratio" = Ok r).

(** A trend group of [P] entries: an object with a title and a data array
    of [P] entries. *)
Definition group_ok (P : nat) (g : json) : Prop :=
  (exists t, getitem g "title" = Ok t) /\
  (exists es, getitem g "data" = Ok (JArr es) /\ length es = P /\
              Forall entry_ok es).

(** The keywords as the specification words them: split on commas, trim,
    drop the empty ones, keep the first occurrence of each. *)
Definition distinct_keywords (keyword_input : string) : list string :=
  unique (filter truthy (map strip (split "," keyword_input))).

(** Every frame of a result set is empty. *)
Definition all_empty (dfs : dict DataFrame) : Prop :=
  Forall (fun kv => empty (snd kv) = true) dfs.

(** The pivot table holds exactly the (period, keyword) pairs of the
    points, each with its ratio. *)
Definition pivot_preserves (pts : list KeywordTrendPoint) : Prop :=
  exists t, pivot pts = Ok t /\
    (forall x, In x pts -> pivot_cell t (period x) (keyword x) = Some (ratio x)) /\
    (forall p k, (forall x, In x pts -> at_key p k x = false) ->
                 pivot_cell t p k = None).

(** The record of entry [e] of group [g]: its period, its ratio and the
    title of the group. *)
Definition trend_row (g e : json) : record :=
  [("period", field e "period"); ("ratio", field e "ratio");
   ("keyword", field g "title")].

(** One record per entry of every group, in the provider's order. *)
Definition trend_rows (groups : list json) : list record :=
  flat_map (fun g => map (trend_row g) (elements (field g "data"))) groups.

Definition trend_columns : list string := ["period"; "ratio"; "keyword"].

(** The replies the data collection asks for: the trend reply, and for each
    keyword, by position, a blog and a shop reply. *)
Inductive requested (net : network) (keywords : list string)
  : response -> Prop :=
| requested_trend : requested net keywords (post_trend net keywords)
| requested_search (kind : string) (i : nat) (kw : string) :
    kind = "blog" \/ kind = "shop" ->
    nth_error keywords i = Some kw ->
    requested net keywords (get_search net kind i kw).

(** A reply that the caller sees as it sees an HTTP failure: both fetch
    functions return the empty frame. *)
Definition degrades_to_empty (r : response) : Prop :=
  fetch_shopping_trend r = Ok empty_frame /\
  fetch_search_results r = Ok empty_frame.

(** The keys of a dict that has been assigned at [kws] in turn. *)
Definition assigned (kws acc : list string) : list string :=
  fold_left (fun acc k => if mem k acc then acc else acc ++ [k]) kws acc.

(** What the raw-data tab shows for one keyword. *)
Definition raw_widgets (blog_dfs shop_dfs : dict DataFrame) (kw : string)
  : list widget :=
  [raw_shop kw (dict_get shop_dfs kw empty_frame);
   raw_blog kw (dict_get blog_dfs kw empty_frame)].

(** The frame stored for [kw], as line 174 reads it. *)
Definition blog_frame (blog_dfs : dict DataFrame) (kw : string) : DataFrame :=
  dict_get blog_dfs kw empty_frame.

(** The chart tab shows a term chart for every keyword whose blog result
    set is not empty. *)
Definition salience_for_every_blog
    (fit_transform : list string -> result (list string * list (list Q)))
    (keywords : list string) (blog_dfs shop_dfs : dict DataFrame) : Prop :=
  forall combined ws,
    tab_viz fit_transform keywords blog_dfs shop_dfs = Ok (combined, ws) ->
    forall kw, In kw keywords -> empty (blog_frame blog_dfs kw) = false ->
      exists words, In (word_bar kw words) ws.



(** A cell that is a string or missing, and the text [fillna('')] makes
    of it. *)
Definition is_text (c : cell) : Prop :=
  match c with
  | JNull | JStr _ => True
  | _ => False
  end.

Definition text (c : cell) : string :=
  match c with
  | JStr s => s
  | _ => ""
  end.

(** Title, one space, description. *)
Definition documents (title description : list cell) : list string :=
  zip_with (fun t d => (text t ++ " ") ++ text d)%string title description.

(** Weights in descending order. *)
Definition descending (terms : list (string * Q)) : Prop :=
  Sorted (fun a b => (snd b <= snd a)%Q) terms.

(** ** Sample replies *)

Definition sample_entry (p : string) (r : Q) : json :=
  JObj [("period", JStr p); ("ratio", JNum r)].

Definition sample_groups : list json :=
  [JObj [("title", JStr "omega3");
         ("data", JArr [sample_entry "2024-01-01" 40;
                        sample_entry "2024-02-01" 55])];
   JObj [("title", JStr "vitaminD");
         ("data", JArr [sample_entry "2024-01-01" 100;
                        sample_entry "2024-02-01" 80])]].

Definition sample_trend_data : json := JObj [("results", JArr sample_groups)].

Definition sample_trend : response := mkResponse 200 (Some sample_trend_data).

Definition sample_shop_item (p m : string) : json :=
  JObj [("title", JStr "capsules"); ("lprice", JStr p); ("mallName", JStr m)].

Definition sample_shop : response :=
  mkResponse 200
    (Some (JObj [("items", JArr [sample_shop_item "12000" "A";
                                 sample_shop_item "N/A" "B";
                                 sample_shop_item "8000" "A"])])).

Definition sample_blog : response :=
  mkResponse 200
    (Some (JObj [("items",
       JArr [JObj [("title", JStr "omega review");
                   ("description", JStr "fish oil")];
             JObj [("title", JStr "daily omega"); ("description", JNull)]])])).

Definition unavailable : response := mkResponse 503 None.

Definition garbled : response := mkResponse 200 None.

(** A provider that answers every request well. *)
Definition sample_net : network :=
  mkNetwork (fun _ => sample_trend)
            (fun kind _ _ => if String.eqb kind "blog" then sample_blog
                             else sample_shop).

(** A provider whose first blog reply is garbled. *)
Definition garbled_net : network :=
  mkNetwork (fun _ => sample_trend)
            (fun kind i _ => if String.eqb kind "blog" && Nat.eqb i 0
                             then garbled else sample_shop).

(** A provider with blog posts but no shop results at all. *)
Definition no_shop_net : network :=
  mkNetwork (fun _ => sample_trend)
            (fun kind _ _ => if String.eqb kind "blog" then sample_blog
                             else unavailable).

(** A stand-in for the vectorizer: two terms, the same scores for every
    document. *)
Definition sample_fit (docs : list string)
  : result (list string * list (list Q)) :=
  Ok (["oil"; "omega"], map (fun _ => [(1 # 2)%Q; (3 # 4)%Q]) docs).

Definition sample_blog_frame : DataFrame :=
  DataFrame_of_records
    [[("title", JStr "omega review"); ("description", JStr "fish oil")];
     [("title", JStr "daily omega"); ("description", JNull)]].

Definition sample_shop_frame : DataFrame :=
  DataFrame_of_records
    [[("title", JStr "capsules"); ("lprice", JStr "12000"); ("mallName", JStr "A")];
     [("title", JStr "softgel"); ("lprice", JStr "N/A"); ("mallName", JStr "B")];
     [("title", JStr "bottle"); ("lprice", JStr "8000"); ("mallName", JStr "A")]].

Definition sample_points : list KeywordTrendPoint :=
  [mkPoint "2024-02-01" "vitaminD" 80; mkPoint "2024-01-01" "omega3" 40;
   mkPoint "2024-01-01" "vitaminD" 100].

(** Two groups of the same title, as a repeated keyword produces. *)
Definition repeated_points : list KeywordTrendPoint :=
  [mkPoint "2024-01-01" "omega3" 40; mkPoint "2024-01-01" "omega3" 40].

(** Blog posts none of which carries a title. *)
Definition untitled_blog_frame : DataFrame :=
  DataFrame_of_records [[("description", JStr "fish oil")]].

(** * The rest of the script *)

(** ** Credentials (lines 14-32) and the start of a run (lines 93-103) *)

(** [os.getenv]: the value of a variable, if it is set. *)
Definition environ : Type := string -> option string.

(** [st.secrets]: without a secrets file every access raises; with one it
    is a mapping.  (Secret values are taken to be strings, as credentials
    are.) *)
Inductive secrets : Type :=
| no_secrets_file
| secrets_file (d : dict string).

(** Truth value of [None] or a string. *)
Definition truthy_opt (o : option string) : bool :=
  match o with
  | Some s => truthy s
  | None => false
  end.

(** Lines 23-28: the pair returned inside [try], [None] when the body
    raises (no secrets file, or no secret key: both caught at line 26) or
    falls through (no id key). *)
Definition from_secrets (s : secrets) : option (string * string) :=
  match s with
  | no_secrets_file => None
  | secrets_file d =>
      match assoc "NAVER_CLIENT_ID" d with
      | None => None
      | Some client_id =>
          match assoc "NAVER_CLIENT_SECRET" d with
          | Some client_secret => Some (client_id, client_secret)
          | None => None
          end
      end
  end.

(** Lines 14-30. *)
Definition get_naver_credentials (env : environ) (s : secrets)
  : option string * option string :=
  let client_id := env "NAVER_CLIENT_ID" in
  let client_secret := env "NAVER_CLIENT_SECRET" in
  if truthy_opt client_id && truthy_opt client_secret then
    (client_id, client_secret)
  else
    match from_secrets s with
    | Some (i, k) => (Some i, Some k)
    | None => (None, None)
    end.

(** The negation of the test of line 93. *)
Definition configured (credentials : option string * option string) : bool :=
  truthy_opt (fst credentials) && truthy_opt (snd credentials).

(** How far a page load gets: stopped at line 95, waiting for the button
    (line 210), or into the data collection of lines 101-103. *)
Inductive stage : Type :=
| stopped
| idle
| analysing (c : result collected).

(** Lines 32, 91-103 and 209-210. *)
Definition start (env : environ) (s : secrets) (button : bool)
    (net : network) (keyword_input : string) : stage :=
  let credentials := get_naver_credentials env s in
  let keywords := parse_keywords keyword_input in
  if negb (configured credentials) then stopped
  else if button then analysing (collect net keywords)
  else idle.

(** Both variables are set to non-empty values. *)
Definition env_complete (env : environ) : bool :=
  truthy_opt (env "NAVER_CLIENT_ID") && truthy_opt (env "NAVER_CLIENT_SECRET").

(** The secrets hold both keys with non-empty values. *)
Definition secrets_complete (s : secrets) : bool :=
  match from_secrets s with
  | Some (i, k) => truthy i && truthy k
  | None => false
  end.

Definition sample_env (k : string) : option string :=
  if String.eqb k "NAVER_CLIENT_ID" then Some "id-from-env"
  else if String.eqb k "NAVER_CLIENT_SECRET" then Some "secret-from-env"
  else None.

Definition half_env (k : string) : option string :=
  if String.eqb k "NAVER_CLIENT_ID" then Some "id-from-env" else None.

Definition sample_secrets : secrets :=
  secrets_file [("NAVER_CLIENT_ID", "id-from-secrets");
                ("NAVER_CLIENT_SECRET", "secret-from-secrets")].

(** ** Vocabulary of the further statements *)

(** Every row of a frame has one cell per column. *)
Definition rectangular (df : DataFrame) : Prop :=
  Forall (fun r => length r = length (columns df)) (rows df).

(** The character occurs in the string. *)
Definition occurs (c : ascii) (s : string) : Prop :=
  In c (list_ascii_of_string s).

(** The bytes [p] begin, or end, the string. *)
Definition starts_with (p : list ascii) (s : string) : Prop :=
  exists r, list_ascii_of_string s = p ++ r.

Definition ends_with (p : list ascii) (s : string) : Prop :=
  exists r, list_ascii_of_string s = r ++ p.

(** What a Python [str] can hold: a code point is below 0x110000. *)
Definition code_point (cp : N) : Prop := (cp < 1114112)%N.

(** The number of bytes of the encoding that a byte begins; none for a
    continuation byte. *)
Definition width (a : ascii) : nat :=
  let n := N_of_ascii a in
  if (n <? 128)%N then 1
  else if (n <? 192)%N then 0
  else if (n <? 224)%N then 2
  else if (n <? 240)%N then 3
  else 4.

(** The string that holds a [str], given by its code points. *)
Definition encode (s : list N) : string :=
  string_of_list_ascii (flat_map utf8 s).

(** Line 91 read on code points: [lstrip], [rstrip], [strip], [split] and
    the comprehension, as Python defines them on a [str]. *)
Fixpoint lstrip_points (s : list N) : list N :=
  match s with
  | [] => []
  | c :: s' => if isspace c then lstrip_points s' else s
  end.

Definition rstrip_points (s : list N) : list N :=
  rev (lstrip_points (rev s)).

Definition strip_points (s : list N) : list N :=
  rstrip_points (lstrip_points s).

Fixpoint split_points (sep : N) (s : list N) : list (list N) :=
  match s with
  | [] => [[]]
  | c :: s' =>
      if (c =? sep)%N then [] :: split_points sep s'
      else match split_points sep s' with
           | [] => [[c]]
           | w :: ws => (c :: w) :: ws
           end
  end.

Definition parse_points (keyword_input : list N) : list (list N) :=
  flat_map (fun k => match strip_points k with
                     | [] => []
                     | k' => [k']
                     end)
           (split_points 44 keyword_input).

(** The entries the loop of line 62 runs over for a group. *)
Definition entries (g : json) : list json :=
  match getitem g "data" with
  | Ok d => match iter d with
            | Ok es => es
            | Raise _ => []
            end
  | Raise _ => []
  end.

(** No later position of the list holds [kw]. *)
Definition last_at (keywords : list string) (j : nat) (kw : string) : Prop :=
  nth_error keywords j = Some kw /\
  forall j', j < j' -> nth_error keywords j' <> Some kw.

Definition sample_items : list record :=
  [[("title", JStr "capsules"); ("lprice", JStr "12000")];
   [("title", JStr "softgel"); ("mallName", JStr "B")]].

(** A provider that answers each search request with the position of the
    request as the only item. *)
Definition counting_net : network :=
  mkNetwork (fun _ => sample_trend)
    (fun _ i _ =>
       mkResponse 200
         (Some (JObj [("items",
            JArr [JObj [("rank", JNum (inject_Z (Z.of_nat i)))]])]))).

(** Line 138 applied to a frame: the price column coerced, the frame
    itself when it has no such column. *)
Definition coerce_prices (df : DataFrame) : DataFrame :=
  match column df "lprice" with
  | Ok lprice => set_column df "lprice" (to_numeric lprice)
  | Raise _ => df
  end.

(** The store as the statistics tab leaves it when run for [keywords]. *)
Definition after_eda (keywords : list string) (shop_dfs : dict DataFrame)
  : dict DataFrame :=
  map (fun kv =>
         (fst kv,
          if mem (fst kv) keywords && negb (empty (snd kv))
          then coerce_prices (snd kv) else snd kv))
      shop_dfs.

(** The coerced prices of a frame, none when it has no price column. *)
Definition prices_of (df : DataFrame) : list cell :=
  match column df "lprice" with
  | Ok lprice => to_numeric lprice
  | Raise _ => []
  end.

(** What a keyword's frame brings to the keyword column and to the price
    column of the combined view. *)
Definition keyword_cells (kv : string * DataFrame) : list cell :=
  if empty (snd kv) then [] else map (fun _ => JStr (fst kv)) (rows (snd kv)).

Definition price_cells (kv : string * DataFrame) : list cell :=
  if empty (snd kv) then [] else prices_of (snd kv).

(** The keywords whose frame is not empty, in the order of the store. *)
Definition nonempty_keys (d : dict DataFrame) : list string :=
  map fst (filter (fun kv => negb (empty (snd kv))) d).

(** What lines 137-144 need of a frame: nothing of an empty one; of
    another, a price column and a column of mall names that can be
    counted. *)
Definition eda_ready (df : DataFrame) : Prop :=
  empty df = true \/
  (exists lprice, column df "lprice" = Ok lprice) /\
  (exists mallName, column df "mallName" = Ok mallName /\
                    forallb hashable mallName = true).

Definition nameless_shop_frame : DataFrame :=
  DataFrame_of_records [[("title", JStr "capsules"); ("lprice", JStr "12000")]].

(** ** What is on the page when a tab raises *)

(** Streamlit shows a table or chart when the call that draws it runs, so
    what was drawn before an exception stays on the page.  A [drawing] is
    the widgets drawn so far, in order, with the way the code ended. *)
Definition drawing (A : Type) : Type := (list widget * result A)%type.

Definition done {A : Type} (a : A) : drawing A := ([], Ok a).

Definition draw (w : widget) : drawing unit := ([w], Ok tt).

(** A computation that draws nothing. *)
Definition eval {A : Type} (m : result A) : drawing A := ([], m).

Definition and_then {A B : Type} (m : drawing A) (k : A -> drawing B)
  : drawing B :=
  match m with
  | (ws, Ok a) => let (ws', r) := k a in (ws ++ ws', r)
  | (ws, Raise e) => (ws, Raise e)
  end.

Notation "x <~ m ;; k" := (and_then m (fun x => k))
  (at level 61, m at next level, right associativity).



Section Drawn.

Variable fit_transform : list string -> result (list string * list (list Q)).

(** Lines 173-183, as drawn: the chart of a keyword is on the page as soon
    as its extraction has returned. *)
Fixpoint blog_words_drawn (keywords : list string) (blog_dfs : dict DataFrame)
  : drawing unit :=
  match keywords with
  | [] => done tt
  | kw :: keywords' =>
      let b_df := dict_get blog_dfs kw empty_frame in
      if empty b_df then blog_words_drawn keywords' blog_dfs
      else
        words_df <~ eval (salience fit_transform b_df) ;;
        _ <~ draw (word_bar kw words_df) ;;
        blog_words_drawn keywords' blog_dfs
  end.

(** Lines 151-190, as drawn.  The histogram of line 161 reads the keyword
    and the price column, which line 166 groups. *)
Definition tab_viz_drawn (keywords : list string)
    (blog_dfs shop_dfs : dict DataFrame) : drawing (option DataFrame) :=
  frames <~ eval (all_shop_data shop_dfs) ;;
  match frames with
  | [] => done None
  | _ =>
      let combined_shop := concat_frames frames in
      keys <~ eval (column combined_shop "keyword") ;;
      lprice <~ eval (column combined_shop "lprice") ;;
      _ <~ draw (histogram combined_shop) ;;
      _ <~ draw (avg_price_bar (groupby_mean keys lprice)) ;;
      _ <~ blog_words_drawn keywords blog_dfs ;;
      mallName <~ eval (column combined_shop "mallName") ;;
      counts <~ eval (value_counts mallName) ;;
      let top_malls := map fst (firstn 10 counts) in
      let mall_subset :=
        mkDataFrame (columns combined_shop)
          (map fst (filter (fun rm => isin top_malls (snd rm))
                      (combine (rows combined_shop) mallName))) in
      _ <~ draw (mall_box mall_subset) ;;
      done (Some combined_shop)
  end.

End Drawn.

(** ** Vocabulary of the statements on prices and term charts *)

(** A frame the price steps accept: an empty one, which they skip, or one
    with a price column. *)
Definition priced (df : DataFrame) : Prop :=
  empty df = true \/ exists lprice, column df "lprice" = Ok lprice.







(** ** Blog replies without titles *)

(** A blog reply none of whose items has a title. *)
Definition untitled_blog : response :=
  mkResponse 200
    (Some (JObj [("items", JArr [JObj [("description", JStr "fish oil")]])])).

(** A blog reply one of whose items has no title. *)
Definition partly_titled_blog : response :=
  mkResponse 200
    (Some (JObj [("items",
       JArr [JObj [("title", JStr "omega review");
                   ("description", JStr "fish oil")];
             JObj [("description", JStr "capsules")]])])).

Definition untitled_net : network :=
  mkNetwork (fun _ => sample_trend)
            (fun kind _ _ => if String.eqb kind "blog" then untitled_blog
                             else sample_shop).

(** A frame on which the price steps raise: not empty, and without a price
    column. *)
Definition unpriced (df : DataFrame) : Prop :=
  empty df = false /\ column df "lprice" = Raise (KeyError "lprice").

(** The extraction returns for every keyword of the list whose blog frame
    is not empty. *)
Definition extracted
    (fit_transform : list string -> result (list string * list (list Q)))
    (blog_dfs : dict DataFrame) (keywords : list string) : Prop :=
  forall kw, In kw keywords -> empty (blog_frame blog_dfs kw) = false ->
    exists words, salience fit_transform (blog_frame blog_dfs kw) = Ok words.

(** The term chart of a keyword whose extraction returns; no chart for a
    keyword whose blog frame is empty. *)
Definition term_chart
    (fit_transform : list string -> result (list string * list (list Q)))
    (blog_dfs : dict DataFrame) (kw : string) : list widget :=
  if empty (blog_frame blog_dfs kw) then []
  else match salience fit_transform (blog_frame blog_dfs kw) with
       | Ok words => [word_bar kw words]
       | Raise _ => []
       end.


(** Every cell of the frame is a JSON scalar or missing, as the fields of
    the provider's items are. *)
Definition scalar_cells (df : DataFrame) : Prop :=
  Forall (fun r => forallb hashable r = true) (rows df).

(** A frame the statistics tab can work on: an empty one, which it skips,
    or one with a price column and a column of mall names. *)
Definition has_shop_columns (df : DataFrame) : Prop :=
  empty df = true \/
  In "lprice" (columns df) /\ In "mallName" (columns df).

(** * Properties *)

(** ** Results *)

Lemma bind_Ok {A B : Type} (m : result A) (k : A -> result B) (b : B) :
  bind m k = Ok b -> exists a, m = Ok a /\ k a = Ok b.
Proof.
  destruct m as [a | e]; simpl; intros H.
  - exists a. split; [reflexivity | exact H].
  - discriminate H.
Qed.

Lemma for_each_Ok {A B : Type} (f : A -> result B) (g : A -> B) (l : list A) :
  Forall (fun x => f x = Ok (g x)) l -> for_each f l = Ok (map g l).
Proof.
  induction 1 as [| x l Hx _ IH]; simpl.
  - reflexivity.
  - rewrite Hx. simpl. rewrite IH. reflexivity.
Qed.

(** ** The API client *)

Lemma fetch_shopping_trend_not_200 (r : response) :
  status_code r <> 200%Z -> fetch_shopping_trend r = Ok empty_frame.
Proof.
  intros H. unfold fetch_shopping_trend.
  destruct (Z.eqb_spec (status_code r) 200); [contradiction | reflexivity].
Qed.

Lemma fetch_search_results_not_200 (r : response) :
  status_code r <> 200%Z -> fetch_search_results r = Ok empty_frame.
Proof.
  intros H. unfold fetch_search_results.
  destruct (Z.eqb_spec (status_code r) 200); [contradiction | reflexivity].
Qed.

Lemma success_false_not_200 (r : response) :
  success r = false -> status_code r <> 200%Z.
Proof.
  unfold success. intros H E. rewrite E in H. discriminate H.
Qed.

(** C1: on a reply whose status is not 200, and so on every reply whose
    status is not a success status, both fetch functions return the empty
    frame: no rows, no columns, no exception. *)
Theorem fetch_non_success_empty (r : response) :
  success r = false \/ status_code r <> 200%Z ->
  fetch_shopping_trend r = Ok empty_frame /\
  fetch_search_results r = Ok empty_frame /\
  columns empty_frame = [] /\ rows empty_frame = [] /\
  empty empty_frame = true.
Proof.
  intros H.
  assert (Hne : status_code r <> 200%Z)
    by (destruct H as [H | H]; [apply success_false_not_200, H | exact H]).
  repeat split.
  - apply fetch_shopping_trend_not_200, Hne.
  - apply fetch_search_results_not_200, Hne.
Qed.

Lemma fetch_non_success_empty_witness :
  fetch_shopping_trend unavailable = Ok empty_frame /\
  fetch_search_results unavailable = Ok empty_frame /\
  columns empty_frame = [] /\ rows empty_frame = [] /\
  empty empty_frame = true.
Proof.
  apply (fetch_non_success_empty unavailable). left. reflexivity.
Defined.

(** ** The normalizer *)

Lemma trend_record_ok (g e : json) :
  entry_ok e -> trend_record (field g "title") e = Ok (trend_row g e).
Proof.
  intros [[p Hp] [r Hr]]. unfold trend_record, trend_row, field.
  rewrite Hp, Hr. reflexivity.
Qed.

Lemma trend_group_ok (P : nat) (g : json) :
  group_ok P g ->
  trend_group g = Ok (map (trend_row g) (elements (field g "data"))) /\
  length (elements (field g "data")) = P.
Proof.
  intros [[t Ht] [es [Hd [Hlen Hes]]]].
  assert (Et : field g "title" = t) by (unfold field; rewrite Ht; reflexivity).
  assert (Ed : field g "data" = JArr es) by (unfold field; rewrite Hd; reflexivity).
  rewrite Ed. simpl. split; [| exact Hlen].
  unfold trend_group. rewrite Ht, Hd. simpl. rewrite <- Et.
  apply for_each_Ok.
  eapply Forall_impl; [| exact Hes].
  intros e He. apply trend_record_ok, He.
Qed.

Lemma concat_map_flat_map {A B : Type} (f : A -> list B) (l : list A) :
  concat (map f l) = flat_map f l.
Proof.
  induction l as [| x l IH]; simpl; [reflexivity | rewrite IH; reflexivity].
Qed.

Lemma normalize_ok (P : nat) (data : json) (groups : list json) :
  getitem data "results" = Ok (JArr groups) ->
  Forall (group_ok P) groups ->
  normalize data = Ok (trend_rows groups) /\
  length (trend_rows groups) = length groups * P.
Proof.
  intros Hr Hg. split.
  - unfold normalize. rewrite Hr. simpl.
    rewrite (for_each_Ok trend_group
               (fun g => map (trend_row g) (elements (field g "data")))).
    + simpl. rewrite concat_map_flat_map. reflexivity.
    + eapply Forall_impl; [| exact Hg].
      intros g Hgo. apply (trend_group_ok P g Hgo).
  - clear Hr. unfold trend_rows. induction Hg as [| g gs Hgo _ IH]; simpl.
    + reflexivity.
    + rewrite length_app, length_map, IH.
      destruct (trend_group_ok P g Hgo) as [_ Hlen]. rewrite Hlen.
      reflexivity.
Qed.

Lemma trend_rows_keys (groups : list json) :
  Forall (fun r : record => map fst r = trend_columns) (trend_rows groups).
Proof.
  unfold trend_rows. induction groups as [| g gs IH]; simpl.
  - constructor.
  - apply Forall_app. split; [| exact IH].
    apply Forall_forall. intros r Hr. apply in_map_iff in Hr.
    destruct Hr as [e [<- _]]. reflexivity.
Qed.

Lemma unique_trend_columns (rs : list record) :
  rs <> [] ->
  Forall (fun r : record => map fst r = trend_columns) rs ->
  unique (flat_map (map fst) rs) = trend_columns.
Proof.
  intros Hne H. induction H as [| r rs Hr Hrs IH]; [contradiction |].
  simpl. rewrite Hr. destruct rs as [| r' rs'].
  - reflexivity.
  - assert (E : unique (flat_map (map fst) (r' :: rs')) = trend_columns)
      by (apply IH; discriminate).
    unfold trend_columns at 1. cbn [app unique]. rewrite E. reflexivity.
Qed.

(** C2: a reply of status 200 (the status the client takes as success)
    with G groups of P entries each yields a frame of exactly G * P rows,
    one per entry of each group in the provider's order, made of the
    entry's period, its ratio and the group's title under the columns
    period, ratio and keyword. *)
Theorem normalizer_rows (r : response) (data : json) (groups : list json)
    (P : nat) :
  status_code r = 200%Z ->
  payload r = Some data ->
  getitem data "results" = Ok (JArr groups) ->
  Forall (group_ok P) groups ->
  exists df,
    fetch_shopping_trend r = Ok df /\
    length (rows df) = length groups * P /\
    (trend_rows groups <> [] -> columns df = ["period"; "ratio"; "keyword"]) /\
    rows df =
      flat_map
        (fun g =>
           map (fun e => [field e "period"; field e "ratio"; field g "title"])
               (elements (field g "data")))
        groups.
Proof.
  intros Hs Hp Hr Hg.
  destruct (normalize_ok P data groups Hr Hg) as [Hn Hlen].
  exists (DataFrame_of_records (trend_rows groups)).
  assert (Hrows : forall cols, cols = trend_columns \/ trend_rows groups = [] ->
            map (fun r0 : record => map (get_or_na r0) cols) (trend_rows groups) =
            flat_map
              (fun g =>
                 map (fun e => [field e "period"; field e "ratio"; field g "title"])
                     (elements (field g "data")))
              groups).
  { intros cols [-> | Hnil].
    - unfold trend_rows. clear. induction groups as [| g gs IH].
      + reflexivity.
      + cbn [flat_map]. rewrite map_app, IH, map_map. reflexivity.
    - rewrite Hnil. simpl. revert Hnil. unfold trend_rows. clear.
      induction groups as [| g gs IH]; simpl; intros H.
      + reflexivity.
      + apply app_eq_nil in H. destruct H as [H1 H2].
        apply map_eq_nil in H1. rewrite H1. simpl. apply IH, H2. }
  split; [| split; [| split]].
  - unfold fetch_shopping_trend, response_json.
    rewrite Hs, Hp. simpl. rewrite Hn. reflexivity.
  - unfold DataFrame_of_records. simpl. rewrite length_map. exact Hlen.
  - intros Hne. unfold DataFrame_of_records. simpl.
    apply unique_trend_columns; [exact Hne | apply trend_rows_keys].
  - unfold DataFrame_of_records. cbn [rows]. apply Hrows.
    destruct (trend_rows groups) as [| r0 rs] eqn:E.
    + right. reflexivity.
    + left. rewrite <- E. apply unique_trend_columns.
      * rewrite E. discriminate.
      * apply trend_rows_keys.
Qed.

Lemma normalizer_rows_witness :
  exists df,
    fetch_shopping_trend sample_trend = Ok df /\
    length (rows df) = length sample_groups * 2 /\
    (trend_rows sample_groups <> [] ->
     columns df = ["period"; "ratio"; "keyword"]) /\
    rows df =
      flat_map
        (fun g =>
           map (fun e => [field e "period"; field e "ratio"; field g "title"])
               (elements (field g "data")))
        sample_groups.
Proof.
  apply (normalizer_rows sample_trend sample_trend_data sample_groups 2);
    try reflexivity.
  repeat constructor; try (eexists; reflexivity).
  eexists. split; [reflexivity |]. split; [reflexivity |].
  repeat constructor; eexists; reflexivity.
  eexists. split; [reflexivity |]. split; [reflexivity |].
  repeat constructor; eexists; reflexivity.
Defined.

Example sample_trend_points :
  exists df,
    fetch_shopping_trend sample_trend = Ok df /\
    trend_points df =
      Some [mkPoint "2024-01-01" "omega3" 40; mkPoint "2024-02-01" "omega3" 55;
            mkPoint "2024-01-01" "vitaminD" 100;
            mkPoint "2024-02-01" "vitaminD" 80].
Proof.
  eexists. split; reflexivity.
Qed.

(** ** Malformed replies *)

Lemma malformed_fetch (r : response) :
  malformed r ->
  fetch_shopping_trend r = Raise JSONDecodeError /\
  fetch_search_results r = Raise JSONDecodeError.
Proof.
  intros [Hs Hp].
  unfold fetch_shopping_trend, fetch_search_results, response_json.
  rewrite Hs, Hp. split; reflexivity.
Qed.

Lemma search_all_Ok_inv (net : network) (kind : string) (kws : list string) :
  forall i d d',
    search_all net kind i kws d = Ok d' ->
    forall j kw, nth_error kws j = Some kw ->
      exists df, fetch_search_results (get_search net kind (i + j) kw) = Ok df.
Proof.
  induction kws as [| k kws IH]; intros i d d' H j kw Hj.
  - destruct j; discriminate Hj.
  - simpl in H. apply bind_Ok in H. destruct H as [df [Hdf H]].
    destruct j as [| j]; simpl in Hj.
    + injection Hj as <-. rewrite Nat.add_0_r. exists df. exact Hdf.
    + replace (i + S j) with (S i + j) by lia.
      eapply IH; eassumption.
Qed.

Lemma collect_Ok_inv (net : network) (keywords : list string) (c : collected) :
  collect net keywords = Ok c ->
  forall r, requested net keywords r ->
    (exists df, fetch_shopping_trend r = Ok df) \/
    (exists df, fetch_search_results r = Ok df).
Proof.
  unfold collect. intros H r Hr.
  apply bind_Ok in H. destruct H as [t [Ht H]].
  apply bind_Ok in H. destruct H as [b [Hb H]].
  apply bind_Ok in H. destruct H as [s [Hs _]].
  destruct Hr as [| kind i kw [-> | ->] Hi].
  - left. exists t. exact Ht.
  - right. apply (search_all_Ok_inv _ _ _ _ _ _ Hb i kw Hi).
  - right. apply (search_all_Ok_inv _ _ _ _ _ _ Hs i kw Hi).
Qed.

(** The claim of C7 fails on a 200 reply with a garbled body: neither
    fetch function degrades to the empty frame. *)
Lemma malformed_not_degraded :
  malformed garbled /\ ~ degrades_to_empty garbled.
Proof.
  split.
  - split; reflexivity.
  - intros [H _]. discriminate H.
Qed.

(** C7, amended: a 200 reply with an unparseable body makes the fetch
    function raise the decoding error instead of returning the empty frame,
    and nothing catches it: the data collection that asked for the reply
    raises, so no result set is built for any keyword. *)
Theorem malformed_reply_aborts (net : network) (keywords : list string)
    (r : response) :
  requested net keywords r ->
  malformed r ->
  fetch_shopping_trend r = Raise JSONDecodeError /\
  fetch_search_results r = Raise JSONDecodeError /\
  exists e, collect net keywords = Raise e.
Proof.
  intros Hr Hm. destruct (malformed_fetch r Hm) as [Ht Hs].
  split; [exact Ht | split; [exact Hs |]].
  destruct (collect net keywords) as [c | e] eqn:E.
  - destruct (collect_Ok_inv net keywords c E r Hr) as [[df H] | [df H]].
    + rewrite Ht in H. discriminate H.
    + rewrite Hs in H. discriminate H.
  - exists e. reflexivity.
Qed.

Lemma malformed_reply_aborts_witness :
  fetch_shopping_trend garbled = Raise JSONDecodeError /\
  fetch_search_results garbled = Raise JSONDecodeError /\
  exists e, collect garbled_net ["omega3"; "vitaminD"] = Raise e.
Proof.
  apply (malformed_reply_aborts garbled_net ["omega3"; "vitaminD"] garbled).
  - apply (requested_search garbled_net ["omega3"; "vitaminD"] "blog" 0 "omega3").
    + left. reflexivity.
    + reflexivity.
  - split; reflexivity.
Defined.

(** ** Keys of the result sets *)

Lemma mem_app (k : string) (l m : list string) :
  mem k (l ++ m) = mem k l || mem k m.
Proof. unfold mem. apply existsb_app. Qed.

Lemma keys_dict_set {V : Type} (k : string) (v : V) (d : dict V) :
  keys (dict_set k v d) = if mem k (keys d) then keys d else keys d ++ [k].
Proof.
  induction d as [| [k' v'] d IH]; simpl.
  - reflexivity.
  - destruct (String.eqb_spec k k') as [-> | Hne]; simpl.
    + reflexivity.
    + rewrite IH. destruct (mem k (keys d)); reflexivity.
Qed.

Lemma filter_filter {A : Type} (f g : A -> bool) (l : list A) :
  filter f (filter g l) = filter (fun x => g x && f x) l.
Proof.
  induction l as [| x l IH]; simpl; [reflexivity |].
  destruct (g x); simpl; [destruct (f x) |]; rewrite IH; reflexivity.
Qed.

Lemma assigned_unique (kws : list string) :
  forall acc,
    assigned kws acc = acc ++ filter (fun k => negb (mem k acc)) (unique kws).
Proof.
  induction kws as [| k kws IH]; intros acc; simpl.
  - rewrite app_nil_r. reflexivity.
  - rewrite IH. destruct (mem k acc) eqn:Hk; simpl.
    + f_equal. rewrite filter_filter. apply filter_ext. intros x.
      destruct (String.eqb_spec k x) as [<- | Hne]; simpl.
      * rewrite Hk. reflexivity.
      * reflexivity.
    + rewrite <- app_assoc. simpl. do 2 f_equal.
      rewrite filter_filter. apply filter_ext. intros x.
      rewrite mem_app. simpl. rewrite orb_false_r, negb_orb.
      rewrite (String.eqb_sym x k). apply andb_comm.
Qed.

Lemma filter_true {A : Type} (l : list A) : filter (fun _ => true) l = l.
Proof.
  induction l as [| x l IH]; simpl; [reflexivity | rewrite IH; reflexivity].
Qed.

Lemma search_all_keys (net : network) (kind : string) (kws : list string) :
  forall i d d',
    search_all net kind i kws d = Ok d' -> keys d' = assigned kws (keys d).
Proof.
  induction kws as [| k kws IH]; intros i d d' H; simpl in H.
  - injection H as <-. reflexivity.
  - apply bind_Ok in H. destruct H as [df [_ H]].
    apply IH in H. rewrite H, keys_dict_set. reflexivity.
Qed.

Lemma collect_keys (net : network) (keywords : list string) (c : collected) :
  collect net keywords = Ok c ->
  keys (blog_dfs c) = unique keywords /\ keys (shop_dfs c) = unique keywords.
Proof.
  unfold collect. intros H.
  apply bind_Ok in H. destruct H as [t [_ H]].
  apply bind_Ok in H. destruct H as [b [Hb H]].
  apply bind_Ok in H. destruct H as [s [Hs H]].
  injection H as <-. simpl.
  apply search_all_keys in Hb. apply search_all_keys in Hs.
  rewrite Hb, Hs. simpl. rewrite assigned_unique. simpl.
  rewrite filter_true. split; reflexivity.
Qed.

Lemma parse_keywords_spec (keyword_input : string) :
  parse_keywords keyword_input =
  filter truthy (map strip (split "," keyword_input)).
Proof.
  unfold parse_keywords.
  induction (split "," keyword_input) as [| k l IH]; simpl.
  - reflexivity.
  - destruct (truthy (strip k)); simpl; rewrite IH; reflexivity.
Qed.

Lemma In_unique (k : string) (l : list string) : In k (unique l) <-> In k l.
Proof.
  induction l as [| x l IH]; simpl; [tauto |].
  rewrite filter_In, IH.
  destruct (String.eqb_spec x k) as [-> | Hne]; simpl; intuition congruence.
Qed.

Lemma NoDup_filter {A : Type} (f : A -> bool) (l : list A) :
  NoDup l -> NoDup (filter f l).
Proof.
  induction 1 as [| x l Hx _ IH]; simpl; [constructor |].
  destruct (f x); [constructor |]; try exact IH.
  rewrite filter_In. tauto.
Qed.

Lemma NoDup_unique (l : list string) : NoDup (unique l).
Proof.
  induction l as [| x l IH]; simpl; constructor.
  - rewrite filter_In, String.eqb_refl. simpl. intros [_ H]. discriminate H.
  - apply NoDup_filter, IH.
Qed.

(** ** Empty shop results *)

Lemma assoc_In_keys {V : Type} (k : string) (d : dict V) :
  In k (keys d) -> exists v, assoc k d = Some v.
Proof.
  induction d as [| [k' v'] d IH]; simpl; [contradiction |].
  intros H. destruct (String.eqb_spec k k') as [-> | Hne].
  - exists v'. reflexivity.
  - destruct H as [H | H]; [congruence | apply IH, H].
Qed.

Lemma assoc_In {V : Type} (k : string) (v : V) (d : dict V) :
  assoc k d = Some v -> In (k, v) d.
Proof.
  induction d as [| [k' v'] d IH]; simpl; [discriminate |].
  destruct (String.eqb_spec k k') as [-> | Hne]; intros H.
  - injection H as ->. left. reflexivity.
  - right. apply IH, H.
Qed.

Lemma dict_get_all_empty (shop_dfs : dict DataFrame) (kw : string) :
  all_empty shop_dfs -> empty (dict_get shop_dfs kw empty_frame) = true.
Proof.
  intros H. unfold dict_get. destruct (assoc kw shop_dfs) as [df |] eqn:E.
  - apply assoc_In in E. unfold all_empty in H. rewrite Forall_forall in H.
    apply (H (kw, df) E).
  - reflexivity.
Qed.

Lemma tab_eda_all_empty (keywords : list string) (shop_dfs : dict DataFrame) :
  all_empty shop_dfs -> tab_eda keywords shop_dfs = Ok (shop_dfs, []).
Proof.
  intros H. induction keywords as [| kw kws IH]; simpl.
  - reflexivity.
  - unfold eda_keyword. rewrite (dict_get_all_empty shop_dfs kw H). simpl.
    rewrite IH. reflexivity.
Qed.

Lemma all_shop_data_all_empty (shop_dfs : dict DataFrame) :
  all_empty shop_dfs -> all_shop_data shop_dfs = Ok [].
Proof.
  induction 1 as [| [kw df] d Hdf _ IH]; simpl.
  - reflexivity.
  - simpl in Hdf. rewrite Hdf. exact IH.
Qed.

Lemma raw_data_Ok (keywords : list string) (blog_dfs shop_dfs : dict DataFrame) :
  (forall kw, In kw keywords -> In kw (keys blog_dfs) /\ In kw (keys shop_dfs)) ->
  raw_data keywords blog_dfs shop_dfs =
  Ok (flat_map (raw_widgets blog_dfs shop_dfs) keywords).
Proof.
  intros H. unfold raw_data.
  rewrite (for_each_Ok _ (raw_widgets blog_dfs shop_dfs)).
  - simpl. rewrite concat_map_flat_map. reflexivity.
  - apply Forall_forall. intros kw Hkw. destruct (H kw Hkw) as [Hb Hs].
    apply assoc_In_keys in Hb, Hs. destruct Hb as [b Hb], Hs as [s Hs].
    unfold dict_getitem, raw_widgets, dict_get. rewrite Hb, Hs. reflexivity.
Qed.

Lemma collect_has_keys (net : network) (keywords : list string) (c : collected) :
  collect net keywords = Ok c ->
  forall kw, In kw keywords ->
    In kw (keys (blog_dfs c)) /\ In kw (keys (shop_dfs c)).
Proof.
  intros H kw Hkw. destruct (collect_keys _ _ _ H) as [-> ->].
  split; apply In_unique, Hkw.
Qed.

(** C6: when every keyword's shop result set is empty, no frame enters the
    combined view, and the steps that depend on it are skipped without any
    exception: the statistics tab and the chart tab show nothing (no
    describe table, mall top-10, histogram, mean-price bar or mall box), no
    price-bin table is made, and the run goes on to show the raw data. *)
Theorem all_shop_empty_skips
    (fit_transform : list string -> result (list string * list (list Q)))
    (net : network) (keywords : list string) (c : collected) :
  collect net keywords = Ok c ->
  all_empty (shop_dfs c) ->
  all_shop_data (shop_dfs c) = Ok [] /\
  tab_eda keywords (shop_dfs c) = Ok (shop_dfs c, []) /\
  tab_viz fit_transform keywords (blog_dfs c) (shop_dfs c) = Ok (None, []) /\
  price_summary None = Ok [] /\
  search_tabs fit_transform keywords c =
    Ok (mkPage [] [] (flat_map (raw_widgets (blog_dfs c) (shop_dfs c)) keywords)).
Proof.
  intros Hc He.
  assert (Hv : tab_viz fit_transform keywords (blog_dfs c) (shop_dfs c)
               = Ok (None, [])).
  { unfold tab_viz. rewrite (all_shop_data_all_empty _ He). reflexivity. }
  split; [apply all_shop_data_all_empty, He |].
  split; [apply tab_eda_all_empty, He |].
  split; [exact Hv |].
  split; [reflexivity |].
  unfold search_tabs. rewrite (tab_eda_all_empty _ _ He). simpl.
  rewrite Hv. simpl. unfold tab_raw. simpl.
  rewrite (raw_data_Ok _ _ _ (collect_has_keys _ _ _ Hc)). reflexivity.
Qed.

Lemma all_shop_empty_skips_witness :
  exists c,
    collect no_shop_net ["omega3"; "vitaminD"] = Ok c /\
    search_tabs sample_fit ["omega3"; "vitaminD"] c =
      Ok (mkPage [] []
            (flat_map (raw_widgets (blog_dfs c) (shop_dfs c))
                      ["omega3"; "vitaminD"])).
Proof.
  eexists. split; [reflexivity |].
  apply (all_shop_empty_skips sample_fit no_shop_net ["omega3"; "vitaminD"]).
  - reflexivity.
  - repeat constructor.
Defined.

(** ** The term charts *)

Lemma all_shop_data_nonempty (shop_dfs : dict DataFrame) :
  Exists (fun kv => empty (snd kv) = false) shop_dfs ->
  forall frames, all_shop_data shop_dfs = Ok frames -> frames <> [].
Proof.
  induction 1 as [[kw df] d Hdf | [kw df] d _ IH]; intros frames H;
    simpl in *.
  - rewrite Hdf in H.
    apply bind_Ok in H. destruct H as [tdf [_ H]].
    apply bind_Ok in H. destruct H as [rest [_ H]].
    injection H as <-. discriminate.
  - destruct (empty df).
    + apply IH, H.
    + apply bind_Ok in H. destruct H as [tdf [_ H]].
      apply bind_Ok in H. destruct H as [rest [_ H]].
      injection H as <-. discriminate.
Qed.

(** The claim of C8 fails when blog posts were found and no shop item
    was: the chart tab shows no term chart. *)
Lemma salience_gated_by_shop :
  ~ salience_for_every_blog sample_fit ["omega3"]
      [("omega3", sample_blog_frame)] [("omega3", empty_frame)].
Proof.
  intros H.
  destruct (H None [] eq_refl "omega3" (or_introl eq_refl) eq_refl)
    as [words []].
Qed.

(** ** The pivoted trend table *)

Lemma In_insert_by {A : Type} (le : A -> A -> bool) (x y : A) (l : list A) :
  In y (insert_by le x l) <-> y = x \/ In y l.
Proof.
  induction l as [| z l IH]; simpl.
  - intuition congruence.
  - destruct (le x z); simpl; [| rewrite IH]; intuition congruence.
Qed.

Lemma In_sort_by {A : Type} (le : A -> A -> bool) (y : A) (l : list A) :
  In y (sort_by le l) <-> In y l.
Proof.
  unfold sort_by. induction l as [| x l IH]; simpl.
  - tauto.
  - rewrite In_insert_by, IH. intuition congruence.
Qed.

Lemma index_of_In (c : string) (cols : list string) :
  In c cols -> exists i, index_of c cols = Some i.
Proof.
  induction cols as [| c' cols IH]; simpl; [contradiction |].
  intros H. destruct (String.eqb_spec c c') as [-> | Hne].
  - exists 0. reflexivity.
  - destruct H as [H | H]; [congruence |].
    destruct (IH H) as [i ->]. exists (S i). reflexivity.
Qed.

Lemma nth_map_index_of {B : Type} (f : string -> B) (d : B) (c : string)
    (cols : list string) :
  forall i, index_of c cols = Some i -> nth i (map f cols) d = f c.
Proof.
  induction cols as [| c' cols IH]; simpl; intros i H; [discriminate |].
  destruct (String.eqb_spec c c') as [-> | Hne].
  - injection H as <-. reflexivity.
  - destruct (index_of c cols) as [j |]; [| discriminate].
    injection H as <-. apply IH. reflexivity.
Qed.

Lemma pivot_cell_found (pts : list KeywordTrendPoint) (t : PivotTable)
    (p k : string) :
  pivot pts = Ok t ->
  pivot_cell t p k = None \/
  pivot_cell t p k = option_map ratio (find (at_key p k) pts).
Proof.
  unfold pivot. destruct (duplicated pts); [discriminate |].
  intros H. injection H as <-. unfold pivot_cell. simpl.
  destruct (index_of p _) as [i |] eqn:Ei; [| left; reflexivity].
  destruct (index_of k _) as [j |] eqn:Ej; [| left; reflexivity].
  right.
  rewrite (nth_map_index_of _ [] p _ i Ei).
  apply (nth_map_index_of
           (fun k0 => option_map ratio (find (at_key p k0) pts)) None k _ j Ej).
Qed.

Lemma at_key_self (x : KeywordTrendPoint) :
  at_key (period x) (keyword x) x = true.
Proof. unfold at_key. rewrite !String.eqb_refl. reflexivity. Qed.

Lemma find_without_duplicates (pts : list KeywordTrendPoint) :
  duplicated pts = false ->
  forall x, In x pts -> find (at_key (period x) (keyword x)) pts = Some x.
Proof.
  induction pts as [| a pts IH]; simpl; intros Hd x Hx; [contradiction |].
  apply orb_false_elim in Hd. destruct Hd as [Ha Hd].
  destruct Hx as [-> | Hx].
  - rewrite at_key_self. reflexivity.
  - destruct (at_key (period x) (keyword x) a) eqn:E.
    + exfalso.
      assert (Hex : existsb (at_key (period a) (keyword a)) pts = true).
      { apply existsb_exists. exists x. split; [exact Hx |].
        unfold at_key in *. apply andb_prop in E. destruct E as [Hp Hk].
        apply String.eqb_eq in Hp, Hk. rewrite <- Hp, <- Hk, !String.eqb_refl.
        reflexivity. }
      rewrite Hex in Ha. discriminate Ha.
    + apply IH; assumption.
Qed.

Lemma find_absent (pts : list KeywordTrendPoint) (p k : string) :
  (forall x, In x pts -> at_key p k x = false) ->
  find (at_key p k) pts = None.
Proof.
  intros H. destruct (find (at_key p k) pts) as [x |] eqn:E; [| reflexivity].
  apply find_some in E. destruct E as [Hx Hk].
  rewrite (H x Hx) in Hk. discriminate Hk.
Qed.

(** The claim of C3 fails on a record set that holds the same period
    and keyword twice: there is no pivot table at all. *)
Lemma pivot_repeated_pair :
  ~ pivot_preserves repeated_points.
Proof.
  intros [t [H _]]. vm_compute in H. discriminate H.
Qed.

(** C3, amended: for every trend record set in which no (period, keyword)
    pair occurs twice, the pivot table holds, for every pair of the input,
    the ratio of that pair, and no value for any pair that is not in the
    input (the cell is missing, not zero).  A record set with a pair
    occurring twice cannot be pivoted: pandas raises. *)
Theorem pivot_without_duplicates (pts : list KeywordTrendPoint) :
  duplicated pts = false -> pivot_preserves pts.
Proof.
  intros Hd. unfold pivot_preserves.
  destruct (pivot pts) as [t | e] eqn:E;
    [| unfold pivot in E; rewrite Hd in E; discriminate E].
  exists t. split; [reflexivity |]. split.
  - intros x Hx.
    assert (Ep : exists i, index_of (period x) (p_index t) = Some i).
    { unfold pivot in E. rewrite Hd in E. injection E as <-. simpl.
      apply index_of_In, In_sort_by, In_unique, in_map, Hx. }
    assert (Ek : exists j, index_of (keyword x) (p_columns t) = Some j).
    { unfold pivot in E. rewrite Hd in E. injection E as <-. simpl.
      apply index_of_In, In_sort_by, In_unique, in_map, Hx. }
    destruct Ep as [i Ei], Ek as [j Ej].
    unfold pivot in E. rewrite Hd in E. injection E as <-.
    unfold pivot_cell in *. simpl in *. rewrite Ei, Ej.
    rewrite (nth_map_index_of _ [] _ _ i Ei).
    rewrite (nth_map_index_of
               (fun k0 => option_map ratio (find (at_key (period x) k0) pts))
               None _ _ j Ej).
    rewrite (find_without_duplicates pts Hd x Hx). reflexivity.
  - intros p k Habs.
    destruct (pivot_cell_found pts t p k E) as [H | H]; [exact H |].
    rewrite H, (find_absent pts p k Habs). reflexivity.
Qed.

Lemma pivot_without_duplicates_witness :
  pivot_preserves sample_points.
Proof.
  apply (pivot_without_duplicates sample_points). reflexivity.
Defined.

(** ** Price coercion *)


Lemma to_numeric_coerce_cases (c : cell) :
  to_numeric_coerce c = JNull \/ exists q, to_numeric_coerce c = JNum q.
Proof.
  destruct c as [| b | q | s | l | o]; simpl; try (left; reflexivity).
  - right. eexists. reflexivity.
  - right. eexists. reflexivity.
  - destruct (parse_number s) as [q |]; [right; eexists | left]; reflexivity.
Qed.


Lemma zip_with_length {A B C : Type} (f : A -> B -> C) (l : list A) :
  forall m, length (zip_with f l m) = Nat.min (length l) (length m).
Proof.
  induction l as [| x l IH]; intros [| y m]; simpl; try reflexivity.
  rewrite IH. reflexivity.
Qed.

Lemma set_column_rows (df : DataFrame) (c : string) (values : list cell) :
  length (rows (set_column df c values)) =
  Nat.min (length (rows df)) (length values).
Proof.
  unfold set_column. destruct (index_of c (columns df)); simpl;
    apply zip_with_length.
Qed.

Lemma column_length (df : DataFrame) (c : string) (col : list cell) :
  column df c = Ok col -> length col = length (rows df).
Proof.
  unfold column. destruct (index_of c (columns df)); [| discriminate].
  intros H. injection H as <-. apply length_map.
Qed.




Example sample_price_statistics :
  let lprice := to_numeric [JStr "12000"; JStr "N/A"; JStr "8000"] in
  lprice = [JNum 12000; JNull; JNum 8000] /\
  d_count (describe lprice) = 2 /\
  (exists m, series_mean lprice = Some m /\ (m == 10000)%Q) /\
  length lprice = 3.
Proof.
  repeat split. eexists. split; reflexivity.
Qed.

(** ** Keyword salience *)

Lemma text_of_is_text (c : cell) : is_text c -> text_of c = Ok (text c).
Proof. destruct c; simpl; intros H; try contradiction; reflexivity. Qed.

Lemma zip_with_map {A A' B B' C : Type} (f : A' -> B' -> C) (g : A -> A')
    (h : B -> B') (l : list A) :
  forall m,
    zip_with f (map g l) (map h m) = zip_with (fun x y => f (g x) (h y)) l m.
Proof.
  induction l as [| x l IH]; intros [| y m]; simpl; try reflexivity.
  rewrite IH. reflexivity.
Qed.

Lemma corpus_documents (b_df : DataFrame) (title description : list cell) :
  column b_df "title" = Ok title ->
  column b_df "description" = Ok description ->
  Forall is_text title ->
  Forall is_text description ->
  corpus b_df = Ok (documents title description).
Proof.
  intros Ht Hd Tt Td. unfold corpus. rewrite Ht. simpl.
  rewrite (for_each_Ok _ (fun c => (text c ++ " ")%string)).
  - simpl. rewrite Hd. simpl.
    rewrite (for_each_Ok _ text).
    + simpl. unfold documents. rewrite zip_with_map. reflexivity.
    + eapply Forall_impl; [| exact Td]. apply text_of_is_text.
  - eapply Forall_impl; [| exact Tt].
    intros c Hc. simpl. rewrite (text_of_is_text c Hc). reflexivity.
Qed.

Lemma insert_by_Permutation {A : Type} (le : A -> A -> bool) (x : A)
    (l : list A) :
  Permutation (insert_by le x l) (x :: l).
Proof.
  induction l as [| y l IH]; simpl.
  - apply Permutation_refl.
  - destruct (le x y).
    + apply Permutation_refl.
    + apply Permutation_trans with (y :: x :: l).
      * apply perm_skip, IH.
      * apply perm_swap.
Qed.

Lemma sort_by_Permutation {A : Type} (le : A -> A -> bool) (l : list A) :
  Permutation (sort_by le l) l.
Proof.
  unfold sort_by. induction l as [| x l IH]; simpl.
  - apply Permutation_refl.
  - apply Permutation_trans with (x :: fold_right (insert_by le) [] l).
    + apply insert_by_Permutation.
    + apply perm_skip, IH.
Qed.

Section SortBy.

Variable A : Type.
Variable le : A -> A -> bool.
Variable R : A -> A -> Prop.
Hypothesis le_R : forall x y, le x y = true -> R x y.
Hypothesis le_total : forall x y, le x y = false -> R y x.

Lemma insert_by_HdRel (a x : A) (l : list A) :
  R a x -> HdRel R a l -> HdRel R a (insert_by le x l).
Proof.
  intros Hax Hl. destruct l as [| y l]; simpl.
  - constructor. exact Hax.
  - destruct (le x y); constructor.
    + exact Hax.
    + inversion Hl. assumption.
Qed.

Lemma insert_by_Sorted (x : A) (l : list A) :
  Sorted R l -> Sorted R (insert_by le x l).
Proof.
  induction 1 as [| y l Hs IH Hhd]; simpl.
  - repeat constructor.
  - destruct (le x y) eqn:E.
    + constructor; [constructor; assumption |].
      constructor. apply le_R, E.
    + constructor; [exact IH |].
      apply insert_by_HdRel; [apply le_total, E | exact Hhd].
Qed.

Lemma sort_by_Sorted (l : list A) : Sorted R (sort_by le l).
Proof.
  unfold sort_by. induction l as [| x l IH]; simpl.
  - constructor.
  - apply insert_by_Sorted, IH.
Qed.

End SortBy.

Lemma Qle_bool_false (a b : Q) : Qle_bool a b = false -> (b <= a)%Q.
Proof.
  intros H. apply Qlt_le_weak, Qnot_le_lt. intros Hle.
  apply Qle_bool_iff in Hle. congruence.
Qed.

Lemma salience_order_Sorted (l : list (string * Q)) :
  descending (sort_by (fun a b => Qle_bool (snd b) (snd a)) l).
Proof.
  apply sort_by_Sorted.
  - intros x y H. apply Qle_bool_iff, H.
  - intros x y H. apply Qle_bool_false, H.
Qed.

Lemma Qsum_nonneg (l : list Q) :
  Forall (fun q => (0 <= q)%Q) l -> (0 <= Qsum l)%Q.
Proof.
  induction 1 as [| q l Hq _ IH]; simpl.
  - apply Qle_refl.
  - replace 0%Q with (0 + 0)%Q by reflexivity. apply Qplus_le_compat; assumption.
Qed.

Lemma nth_nonneg (j : nat) (row : list Q) :
  Forall (fun q => (0 <= q)%Q) row -> (0 <= nth j row 0)%Q.
Proof.
  intros H. revert j. induction H as [| q l Hq _ IH]; intros [| j]; simpl;
    try apply Qle_refl; [exact Hq | apply IH].
Qed.

Lemma column_sums_nonneg (n : nat) (matrix : list (list Q)) :
  Forall (Forall (fun q => (0 <= q)%Q)) matrix ->
  Forall (fun q => (0 <= q)%Q) (column_sums n matrix).
Proof.
  intros H. unfold column_sums. apply Forall_forall. intros w Hw.
  apply in_map_iff in Hw. destruct Hw as [j [<- _]].
  apply Qsum_nonneg. apply Forall_forall. intros q Hq.
  apply in_map_iff in Hq. destruct Hq as [row [<- Hrow]].
  apply nth_nonneg. rewrite Forall_forall in H. apply H, Hrow.
Qed.

Lemma In_combine_seq {B : Type} (f : nat -> B) (x : string) (w : B)
    (names : list string) :
  forall s,
    In (x, w) (combine names (map f (seq s (length names)))) ->
    exists j, nth_error names j = Some x /\ w = f (s + j).
Proof.
  induction names as [| y names IH]; simpl; intros s H; [contradiction |].
  destruct H as [H | H].
  - injection H as -> <-. exists 0. rewrite Nat.add_0_r. split; reflexivity.
  - destruct (IH (S s) H) as [j [Hj Hw]]. exists (S j).
    split; [exact Hj |]. rewrite Hw. f_equal. lia.
Qed.

(** ** The raw-data tab *)

Lemma assoc_dict_set {V : Type} (k : string) (v : V) (d : dict V) :
  assoc k (dict_set k v d) = Some v.
Proof.
  induction d as [| [k' v'] d IH]; simpl.
  - rewrite String.eqb_refl. reflexivity.
  - destruct (String.eqb_spec k k') as [-> | Hne]; simpl.
    + rewrite String.eqb_refl. reflexivity.
    + destruct (String.eqb_spec k k'); [contradiction | exact IH].
Qed.


(** C10: on a run with one keyword whose shop reply prices are "12000",
    "N/A" and "8000", the frame the raw-data tab shows for the keyword is
    not the frame the API client returned: line 138 has overwritten the
    price strings of the stored frame with numbers and a missing value. *)
Theorem raw_data_shows_coerced_prices :
  exists c pg fetched shown,
    collect sample_net ["omega3"] = Ok c /\
    fetch_search_results sample_shop = Ok fetched /\
    dict_getitem (shop_dfs c) "omega3" = Ok fetched /\
    search_tabs sample_fit ["omega3"] c = Ok pg /\
    In (raw_shop "omega3" shown) (raw pg) /\
    column fetched "lprice" = Ok [JStr "12000"; JStr "N/A"; JStr "8000"] /\
    column shown "lprice" = Ok [JNum 12000; JNull; JNum 8000] /\
    shown <> fetched.
Proof.
  eexists. eexists. eexists. eexists.
  split; [reflexivity |].
  split; [reflexivity |].
  split; [reflexivity |].
  split; [vm_compute; reflexivity |].
  split; [right; left; reflexivity |].
  split; [reflexivity |].
  split; [reflexivity |].
  intros H. discriminate H.
Qed.

(** * Further properties *)

(** ** Credentials *)

(** Variables of the environment that are both set and non-empty are the
    credentials, whatever the secrets hold. *)
Lemma credentials_env_first (env : environ) (s : secrets) :
  env_complete env = true ->
  get_naver_credentials env s =
    (env "NAVER_CLIENT_ID", env "NAVER_CLIENT_SECRET") /\
  configured (get_naver_credentials env s) = true.
Proof.
  unfold env_complete, get_naver_credentials, configured. intros H.
  rewrite H. simpl. split; [reflexivity | exact H].
Qed.

(** X1: the credentials come as a pair from one source: both from the
    environment, both from the secrets, or neither.  An id set in the
    environment without a secret is never combined with a secret from the
    secrets. *)
Theorem credentials_one_source (env : environ) (s : secrets) :
  get_naver_credentials env s =
    (env "NAVER_CLIENT_ID", env "NAVER_CLIENT_SECRET") /\ env_complete env = true
  \/ (exists i k, from_secrets s = Some (i, k) /\
                  get_naver_credentials env s = (Some i, Some k)) /\
     env_complete env = false
  \/ get_naver_credentials env s = (None, None) /\
     env_complete env = false /\ from_secrets s = None.
Proof.
  unfold get_naver_credentials, env_complete.
  destruct (truthy_opt (env "NAVER_CLIENT_ID") &&
            truthy_opt (env "NAVER_CLIENT_SECRET")) eqn:E.
  - left. split; reflexivity.
  - right. destruct (from_secrets s) as [[i k] |] eqn:F.
    + left. split; [| reflexivity]. exists i, k. split; reflexivity.
    + right. repeat split.
Qed.

Lemma from_secrets_Some (s : secrets) (i k : string) :
  from_secrets s = Some (i, k) <->
  exists d, s = secrets_file d /\
            assoc "NAVER_CLIENT_ID" d = Some i /\
            assoc "NAVER_CLIENT_SECRET" d = Some k.
Proof.
  split.
  - destruct s as [| d]; simpl; [discriminate |].
    destruct (assoc "NAVER_CLIENT_ID" d) as [i' |] eqn:Ei; [| discriminate].
    destruct (assoc "NAVER_CLIENT_SECRET" d) as [k' |] eqn:Ek; [| discriminate].
    intros H. injection H as <- <-. exists d. repeat split; assumption.
  - intros [d [-> [Hi Hk]]]. simpl. rewrite Hi, Hk. reflexivity.
Qed.

Lemma configured_spec (env : environ) (s : secrets) :
  configured (get_naver_credentials env s) =
  env_complete env || secrets_complete s.
Proof.
  unfold get_naver_credentials, configured, env_complete, secrets_complete.
  destruct (truthy_opt (env "NAVER_CLIENT_ID") &&
            truthy_opt (env "NAVER_CLIENT_SECRET")) eqn:E; simpl.
  - exact E.
  - destruct (from_secrets s) as [[i k] |]; reflexivity.
Qed.

(** X2: a page load passes the credential check of line 93 exactly when
    the environment holds both variables non-empty or, failing that, the
    secrets file holds both keys with non-empty values; a missing secrets
    file or a missing key raises nothing and counts as no credentials. *)
Theorem credentials_check (env : environ) (s : secrets) :
  configured (get_naver_credentials env s) = true <->
  env_complete env = true \/
  (env_complete env = false /\
   exists d i k, s = secrets_file d /\
                 assoc "NAVER_CLIENT_ID" d = Some i /\
                 assoc "NAVER_CLIENT_SECRET" d = Some k /\
                 truthy i = true /\ truthy k = true).
Proof.
  rewrite configured_spec. unfold secrets_complete.
  destruct (env_complete env); simpl.
  - split; [intros _; left; reflexivity | reflexivity].
  - split.
    + intros H. right. split; [reflexivity |].
      destruct (from_secrets s) as [[i k] |] eqn:F; [| discriminate].
      apply from_secrets_Some in F. destruct F as [d [-> [Hi Hk]]].
      apply andb_prop in H. destruct H as [Ti Tk].
      exists d, i, k. repeat split; assumption.
    + intros [H | [_ [d [i [k [-> [Hi [Hk [Ti Tk]]]]]]]]]; [discriminate |].
      simpl. rewrite Hi, Hk, Ti, Tk. reflexivity.
Qed.

(** X3: without complete credentials the page stops whatever the button,
    the provider and the keyword box; data is collected only with complete
    credentials and the button pressed, and then for the parsed keywords. *)
Theorem start_stages (env : environ) (s : secrets) (button : bool)
    (net : network) (keyword_input : string) :
  (env_complete env || secrets_complete s = false ->
   start env s button net keyword_input = stopped) /\
  (forall c, start env s button net keyword_input = analysing c ->
     env_complete env || secrets_complete s = true /\ button = true /\
     c = collect net (parse_keywords keyword_input)).
Proof.
  unfold start. rewrite configured_spec. split.
  - intros ->. reflexivity.
  - intros c. destruct (env_complete env || secrets_complete s); simpl;
      [| discriminate].
    destruct button; [| discriminate].
    intros H. injection H as <-. repeat split.
Qed.

Lemma start_stages_witness :
  start half_env no_secrets_file true sample_net "omega3" = stopped.
Proof.
  apply (start_stages half_env no_secrets_file true sample_net "omega3").
  reflexivity.
Defined.

(** ** Keyword parsing *)

Lemma split_nonempty (sep : ascii) (s : string) : split sep s <> [].
Proof.
  destruct s as [| c s]; simpl; [discriminate |].
  destruct (Ascii.eqb c sep); [discriminate |].
  destruct (split sep s); discriminate.
Qed.

Lemma split_no_sep (sep : ascii) (s : string) :
  forall w, In w (split sep s) -> ~ occurs sep w.
Proof.
  unfold occurs. induction s as [| c s IH]; simpl; intros w Hw.
  - destruct Hw as [<- | []]. simpl. tauto.
  - destruct (Ascii.eqb_spec c sep) as [-> | Hne].
    + destruct Hw as [<- | Hw]; [simpl; tauto | apply IH, Hw].
    + destruct (split sep s) as [| w' ws] eqn:E.
      * destruct Hw as [<- | []]. simpl. intuition congruence.
      * destruct Hw as [<- | Hw].
        -- simpl. intros [H | H]; [congruence |].
           apply (IH w'); [left; reflexivity | exact H].
        -- apply IH. right. exact Hw.
Qed.

Lemma prefix_rest_spec (p : list ascii) :
  forall l r, prefix_rest p l = Some r <-> l = p ++ r.
Proof.
  induction p as [| a p IH]; intros l r; simpl.
  - split; intros H; [injection H as <- | rewrite H]; reflexivity.
  - destruct l as [| b l]; [split; discriminate |].
    destruct (Ascii.eqb_spec a b) as [<- | Hne].
    + rewrite IH. split; intros H; [rewrite H | injection H as ->]; reflexivity.
    + split; [discriminate | intros H; injection H as E _; congruence].
Qed.

Lemma first_space_Some (enc : N -> list ascii) (l r : list ascii)
    (ws : list N) :
  fold_right (fun cp found => match prefix_rest (enc cp) l with
                              | Some r => Some r
                              | None => found
                              end) None ws = Some r ->
  exists cp, In cp ws /\ l = enc cp ++ r.
Proof.
  induction ws as [| w ws IH]; simpl; [discriminate |].
  destruct (prefix_rest (enc w) l) as [r' |] eqn:E.
  - intros H. injection H as ->. exists w.
    split; [left; reflexivity | apply prefix_rest_spec, E].
  - intros H. destruct (IH H) as [cp [Hin Hl]]. exists cp.
    split; [right; exact Hin | exact Hl].
Qed.

Lemma first_space_None (enc : N -> list ascii) (l : list ascii) (ws : list N) :
  fold_right (fun cp found => match prefix_rest (enc cp) l with
                              | Some r => Some r
                              | None => found
                              end) None ws = None ->
  forall cp r, In cp ws -> l <> enc cp ++ r.
Proof.
  induction ws as [| w ws IH]; simpl; [intros _ cp r [] |].
  destruct (prefix_rest (enc w) l) as [r' |] eqn:E; [discriminate |].
  intros H cp r [<- | Hin] Hl.
  - apply prefix_rest_spec in Hl. congruence.
  - apply (IH H cp r Hin Hl).
Qed.

Lemma after_space_Some (enc : N -> list ascii) (l r : list ascii) :
  after_space enc l = Some r ->
  exists cp, isspace cp = true /\ l = enc cp ++ r.
Proof.
  intros H. apply first_space_Some in H. destruct H as [cp [Hin Hl]].
  exists cp. split; [| exact Hl].
  unfold isspace. apply existsb_exists. exists cp.
  split; [exact Hin | apply N.eqb_refl].
Qed.

Lemma after_space_None (enc : N -> list ascii) (l : list ascii) :
  after_space enc l = None <->
  forall cp r, isspace cp = true -> l <> enc cp ++ r.
Proof.
  split.
  - intros H cp r Hcp. apply (first_space_None enc l whitespace H).
    unfold isspace in Hcp. apply existsb_exists in Hcp.
    destruct Hcp as [w [Hin E]]. apply N.eqb_eq in E. subst w. exact Hin.
  - intros H. destruct (after_space enc l) as [r |] eqn:E; [| reflexivity].
    apply after_space_Some in E. destruct E as [cp [Hcp Hl]].
    destruct (H cp r Hcp Hl).
Qed.

(** The encoding of a white-space character is not empty, from either
    end. *)
Lemma utf8_nonempty (cp : N) : utf8 cp <> [].
Proof.
  unfold utf8. destruct (cp <? 128)%N; [discriminate |].
  destruct (cp <? 2048)%N; [discriminate |].
  destruct (cp <? 65536)%N; discriminate.
Qed.

Lemma rev_utf8_nonempty (cp : N) : rev (utf8 cp) <> [].
Proof.
  intros H. apply (utf8_nonempty cp). rewrite <- (rev_involutive (utf8 cp)), H.
  reflexivity.
Qed.

Section DropSpaces.

Variable enc : N -> list ascii.
Hypothesis enc_nonempty : forall cp, enc cp <> [].

Lemma drop_spaces_suffix (fuel : nat) :
  forall l, exists p, l = p ++ drop_spaces enc fuel l.
Proof.
  induction fuel as [| fuel IH]; intros l; simpl.
  - exists []. reflexivity.
  - destruct (after_space enc l) as [r |] eqn:E; [| exists []; reflexivity].
    apply after_space_Some in E. destruct E as [cp [_ ->]].
    destruct (IH r) as [p Hp]. exists (enc cp ++ p).
    rewrite <- app_assoc, <- Hp. reflexivity.
Qed.

Lemma drop_spaces_clean (fuel : nat) :
  forall l, length l <= fuel -> after_space enc (drop_spaces enc fuel l) = None.
Proof.
  induction fuel as [| fuel IH]; intros l Hl; simpl.
  - destruct l; [| simpl in Hl; lia].
    apply after_space_None. intros cp r _ H.
    symmetry in H. apply app_eq_nil in H. destruct H as [H _].
    apply (enc_nonempty cp H).
  - destruct (after_space enc l) as [r |] eqn:E; [| exact E].
    apply IH. apply after_space_Some in E. destruct E as [cp [_ ->]].
    rewrite length_app in Hl. pose proof (enc_nonempty cp) as Hne.
    destruct (enc cp); [contradiction | simpl in Hl; lia].
Qed.

Lemma drop_spaces_fixed (fuel : nat) (l : list ascii) :
  after_space enc l = None -> drop_spaces enc fuel l = l.
Proof.
  intros H. destruct fuel; simpl; [| rewrite H]; reflexivity.
Qed.

End DropSpaces.

Lemma lstrip_bytes (s : string) :
  list_ascii_of_string (lstrip s) =
  drop_spaces utf8 (length (list_ascii_of_string s)) (list_ascii_of_string s).
Proof. unfold lstrip. apply list_ascii_of_string_of_list_ascii. Qed.

Lemma rstrip_bytes (s : string) :
  rev (list_ascii_of_string (rstrip s)) =
  drop_spaces (fun cp => rev (utf8 cp))
    (length (rev (list_ascii_of_string s))) (rev (list_ascii_of_string s)).
Proof.
  unfold rstrip. rewrite list_ascii_of_string_of_list_ascii.
  apply rev_involutive.
Qed.

Lemma lstrip_clean (s : string) :
  after_space utf8 (list_ascii_of_string (lstrip s)) = None.
Proof.
  rewrite lstrip_bytes. apply drop_spaces_clean; [apply utf8_nonempty | lia].
Qed.

Lemma rstrip_clean (s : string) :
  after_space (fun cp => rev (utf8 cp)) (rev (list_ascii_of_string (rstrip s)))
  = None.
Proof.
  rewrite rstrip_bytes. apply drop_spaces_clean; [apply rev_utf8_nonempty | lia].
Qed.

Lemma lstrip_suffix (s : string) :
  exists p, list_ascii_of_string s = p ++ list_ascii_of_string (lstrip s).
Proof. rewrite lstrip_bytes. apply drop_spaces_suffix. Qed.

Lemma rstrip_prefix (s : string) :
  exists q, list_ascii_of_string s = list_ascii_of_string (rstrip s) ++ q.
Proof.
  destruct (drop_spaces_suffix (fun cp => rev (utf8 cp))
              (length (rev (list_ascii_of_string s)))
              (rev (list_ascii_of_string s))) as [p Hp].
  rewrite <- rstrip_bytes in Hp. exists (rev p).
  rewrite <- (rev_involutive (list_ascii_of_string s)), Hp, rev_app_distr,
    rev_involutive.
  reflexivity.
Qed.

Lemma lstrip_fixed (s : string) :
  after_space utf8 (list_ascii_of_string s) = None -> lstrip s = s.
Proof.
  intros H. unfold lstrip. rewrite (drop_spaces_fixed _ _ _ H).
  apply string_of_list_ascii_of_string.
Qed.

Lemma rstrip_fixed (s : string) :
  after_space (fun cp => rev (utf8 cp)) (rev (list_ascii_of_string s)) = None ->
  rstrip s = s.
Proof.
  intros H. unfold rstrip. rewrite (drop_spaces_fixed _ _ _ H), rev_involutive.
  apply string_of_list_ascii_of_string.
Qed.

Lemma strip_head (s : string) :
  after_space utf8 (list_ascii_of_string (strip s)) = None.
Proof.
  unfold strip. apply after_space_None. intros cp r Hcp H.
  destruct (rstrip_prefix (lstrip s)) as [q Hq].
  rewrite H, <- app_assoc in Hq.
  pose proof (lstrip_clean s) as Hc.
  rewrite after_space_None in Hc. apply (Hc cp _ Hcp Hq).
Qed.

Lemma strip_idempotent (s : string) : strip (strip s) = strip s.
Proof.
  unfold strip at 1. rewrite (lstrip_fixed _ (strip_head s)).
  unfold strip. apply rstrip_fixed, rstrip_clean.
Qed.

Lemma strip_occurs (c : ascii) (s : string) :
  occurs c (strip s) -> occurs c s.
Proof.
  unfold occurs, strip. intros H.
  destruct (lstrip_suffix s) as [p ->].
  destruct (rstrip_prefix (lstrip s)) as [q ->].
  apply in_or_app. right. apply in_or_app. left. exact H.
Qed.

Lemma strip_ends (s : string) (cp : N) :
  isspace cp = true ->
  ~ starts_with (utf8 cp) (strip s) /\ ~ ends_with (utf8 cp) (strip s).
Proof.
  intros Hcp. split; intros [r H].
  - pose proof (strip_head s) as Hc. rewrite after_space_None in Hc.
    apply (Hc cp r Hcp H).
  - pose proof (rstrip_clean (lstrip s)) as Hc. rewrite after_space_None in Hc.
    apply (Hc cp (rev r) Hcp). fold (strip s).
    rewrite H, rev_app_distr. reflexivity.
Qed.

Lemma keyword_clean (keyword_input k : string) :
  In k (parse_keywords keyword_input) ->
  k <> "" /\ strip k = k /\
  (forall cp, isspace cp = true ->
     ~ starts_with (utf8 cp) k /\ ~ ends_with (utf8 cp) k) /\
  ~ occurs "," k.
Proof.
  rewrite parse_keywords_spec. intros Hk.
  apply filter_In in Hk. destruct Hk as [Hk Ht].
  apply in_map_iff in Hk. destruct Hk as [w [<- Hw]].
  split; [| split; [| split]].
  - intros E. rewrite E in Ht. discriminate Ht.
  - apply strip_idempotent.
  - intros cp Hcp. apply strip_ends, Hcp.
  - intros H. apply strip_occurs in H.
    exact (split_no_sep "," keyword_input w Hw H).
Qed.

(** X4: every keyword read from the input box is non-empty, is left
    unchanged by another [strip], neither begins nor ends with a white-space
    character (in its UTF-8 encoding), and contains no comma. *)
Theorem parse_keywords_clean (keyword_input : string) :
  Forall (fun k => k <> "" /\ strip k = k /\
                   (forall cp, isspace cp = true ->
                      ~ starts_with (utf8 cp) k /\ ~ ends_with (utf8 cp) k) /\
                   ~ occurs "," k)
         (parse_keywords keyword_input).
Proof.
  apply Forall_forall. intros k Hk. apply (keyword_clean keyword_input k Hk).
Qed.

Example strip_keeps_continuation_bytes : strip " 유산균 " = "유산균".
Proof. reflexivity. Qed.

Example strip_ideographic_space :
  strip (encode [12288; 50976; 49328; 44512; 160]%N) = "유산균".
Proof. reflexivity. Qed.

(** ** Keyword parsing on code points *)

Lemma div_mod_eq (a b : N) :
  (a / 64 = b / 64)%N -> (a mod 64 = b mod 64)%N -> a = b.
Proof.
  intros Hq Hm. rewrite (N.div_mod' a 64), (N.div_mod' b 64), Hq, Hm.
  reflexivity.
Qed.

Lemma byte_eq (x y : N) :
  (x < 256)%N -> (y < 256)%N -> ascii_of_N x = ascii_of_N y -> x = y.
Proof.
  intros Hx Hy H. rewrite <- (N_ascii_embedding x Hx), <- (N_ascii_embedding y Hy), H.
  reflexivity.
Qed.

Lemma continuation_eq (x y : N) :
  ascii_of_N (128 + x mod 64) = ascii_of_N (128 + y mod 64) ->
  (x mod 64 = y mod 64)%N.
Proof.
  intros H. pose proof (N.mod_lt x 64). pose proof (N.mod_lt y 64).
  apply byte_eq in H; lia.
Qed.

Lemma lead_eq (k x y : N) :
  (k + x < 256)%N -> (k + y < 256)%N ->
  ascii_of_N (k + x) = ascii_of_N (k + y) -> x = y.
Proof. intros Hx Hy H. apply byte_eq in H; lia. Qed.

Lemma cons_eq {A : Type} (a b : A) (l m : list A) :
  a :: l = b :: m -> a = b /\ l = m.
Proof. intros H. injection H as -> ->. split; reflexivity. Qed.

Lemma utf8_inj (c w : N) : code_point c -> code_point w -> utf8 c = utf8 w -> c = w.
Proof.
  unfold code_point, utf8. intros Hc Hw.
  change 4096%N with (64 * 64)%N. change 262144%N with (64 * 64 * 64)%N.
  rewrite <- !N.Div0.div_div.
  destruct (N.ltb_spec c 128), (N.ltb_spec w 128);
    [| destruct (w <? 2048)%N, (w <? 65536)%N; discriminate
     | destruct (c <? 2048)%N, (c <? 65536)%N; discriminate |].
  - intros H1. apply cons_eq in H1. destruct H1 as [H1 _].
    apply byte_eq in H1; lia.
  - destruct (N.ltb_spec c 2048), (N.ltb_spec w 2048);
      [| destruct (w <? 65536)%N; discriminate
       | destruct (c <? 65536)%N; discriminate |].
    + intros E. apply cons_eq in E. destruct E as [E1 E].
      apply cons_eq in E. destruct E as [E2 _]. apply continuation_eq in E2.
      apply lead_eq in E1.
      * apply div_mod_eq; assumption.
      * assert (c / 64 < 32)%N by (apply N.Div0.div_lt_upper_bound; lia). lia.
      * assert (w / 64 < 32)%N by (apply N.Div0.div_lt_upper_bound; lia). lia.
    + destruct (N.ltb_spec c 65536), (N.ltb_spec w 65536); try discriminate.
      * intros E. apply cons_eq in E. destruct E as [E1 E].
        apply cons_eq in E. destruct E as [E2 E].
        apply cons_eq in E. destruct E as [E3 _].
        apply continuation_eq in E2, E3. apply lead_eq in E1.
        -- apply div_mod_eq; [apply div_mod_eq |]; assumption.
        -- assert (c / 64 / 64 < 16)%N
             by (rewrite N.Div0.div_div;
                 apply N.Div0.div_lt_upper_bound; lia).
           lia.
        -- assert (w / 64 / 64 < 16)%N
             by (rewrite N.Div0.div_div;
                 apply N.Div0.div_lt_upper_bound; lia).
           lia.
      * intros E. apply cons_eq in E. destruct E as [E1 E].
        apply cons_eq in E. destruct E as [E2 E].
        apply cons_eq in E. destruct E as [E3 E].
        apply cons_eq in E. destruct E as [E4 _].
        apply continuation_eq in E2, E3, E4. apply lead_eq in E1.
        -- apply div_mod_eq; [apply div_mod_eq; [apply div_mod_eq |] |];
             assumption.
        -- assert (c / 64 / 64 / 64 < 5)%N
             by (rewrite !N.Div0.div_div;
                 apply N.Div0.div_lt_upper_bound; lia).
           lia.
        -- assert (w / 64 / 64 / 64 < 5)%N
             by (rewrite !N.Div0.div_div;
                 apply N.Div0.div_lt_upper_bound; lia).
           lia.
Qed.

Lemma width_byte (n : N) :
  (n < 256)%N ->
  width (ascii_of_N n) =
  if (n <? 128)%N then 1
  else if (n <? 192)%N then 0
  else if (n <? 224)%N then 2
  else if (n <? 240)%N then 3
  else 4.
Proof. intros H. unfold width. rewrite (N_ascii_embedding n H). reflexivity. Qed.

Lemma width_lead (k q : N) :
  (k + q < 256)%N ->
  width (ascii_of_N (k + q)) =
  if (k + q <? 128)%N then 1
  else if (k + q <? 192)%N then 0
  else if (k + q <? 224)%N then 2
  else if (k + q <? 240)%N then 3
  else 4.
Proof. apply width_byte. Qed.

Lemma width_continuation (x : N) : width (ascii_of_N (128 + x mod 64)) = 0.
Proof.
  pose proof (N.mod_lt x 64 ltac:(discriminate)) as H.
  revert H. generalize (x mod 64)%N. intros m H.
  rewrite width_lead by lia.
  destruct (N.ltb_spec (128 + m) 128); [lia |].
  destruct (N.ltb_spec (128 + m) 192); [reflexivity | lia].
Qed.

(** The first byte of an encoding tells its length; the bytes after it are
    continuation bytes, which begin no encoding. *)
Lemma utf8_shape (c : N) :
  code_point c ->
  exists a t, utf8 c = a :: t /\ width a = S (length t) /\
              Forall (fun b => width b = 0) t.
Proof.
  unfold code_point, utf8. intros Hc.
  destruct (N.ltb_spec c 128) as [H1 | H1].
  - eexists. eexists. split; [reflexivity |]. split; [| constructor].
    rewrite width_byte by lia.
    destruct (N.ltb_spec c 128); [reflexivity | lia].
  - destruct (N.ltb_spec c 2048) as [H2 | H2].
    + eexists. eexists. split; [reflexivity |].
      split; [| repeat constructor; apply width_continuation].
      assert (Hq : (c / 64 < 32)%N) by (apply N.Div0.div_lt_upper_bound; lia).
      revert Hq. generalize (c / 64)%N. intros q Hq.
      rewrite width_lead by lia.
      destruct (N.ltb_spec (192 + q) 128); [lia |].
      destruct (N.ltb_spec (192 + q) 192); [lia |].
      destruct (N.ltb_spec (192 + q) 224); [reflexivity | lia].
    + destruct (N.ltb_spec c 65536) as [H3 | H3].
      * eexists. eexists. split; [reflexivity |].
        split; [| repeat constructor; apply width_continuation].
        assert (Hq : (c / 4096 < 16)%N)
          by (apply N.Div0.div_lt_upper_bound; lia).
        revert Hq. generalize (c / 4096)%N. intros q Hq.
        rewrite width_lead by lia.
        destruct (N.ltb_spec (224 + q) 128); [lia |].
        destruct (N.ltb_spec (224 + q) 192); [lia |].
        destruct (N.ltb_spec (224 + q) 224); [lia |].
        destruct (N.ltb_spec (224 + q) 240); [reflexivity | lia].
      * eexists. eexists. split; [reflexivity |].
        split; [| repeat constructor; apply width_continuation].
        assert (Hq : (c / 262144 < 5)%N)
          by (apply N.Div0.div_lt_upper_bound; lia).
        revert Hq. generalize (c / 262144)%N. intros q Hq.
        rewrite width_lead by lia.
        destruct (N.ltb_spec (240 + q) 128); [lia |].
        destruct (N.ltb_spec (240 + q) 192); [lia |].
        destruct (N.ltb_spec (240 + q) 224); [lia |].
        destruct (N.ltb_spec (240 + q) 240); [lia | reflexivity].
Qed.

Lemma app_eq_length {A : Type} (l1 : list A) :
  forall l2 r1 r2,
    length l1 = length l2 -> l1 ++ r1 = l2 ++ r2 -> l1 = l2 /\ r1 = r2.
Proof.
  induction l1 as [| a l1 IH]; intros [| b l2] r1 r2 Hlen H; simpl in *;
    try discriminate; [split; [reflexivity | exact H] |].
  injection H as -> H. destruct (IH l2 r1 r2) as [-> ->]; [lia | exact H |].
  split; reflexivity.
Qed.

(** UTF-8 is prefix-free: an encoding at the head of a byte sequence is the
    encoding of its first character. *)
Lemma utf8_prefix (c w : N) (r r' : list ascii) :
  code_point c -> code_point w -> utf8 c ++ r = utf8 w ++ r' -> c = w /\ r = r'.
Proof.
  intros Hc Hw H.
  destruct (utf8_shape c Hc) as [a [t [Ec [Wa _]]]].
  destruct (utf8_shape w Hw) as [b [u [Ew [Wb _]]]].
  assert (Hab : a = b) by (rewrite Ec, Ew in H; injection H as -> _; reflexivity).
  assert (Hlen : length (utf8 c) = length (utf8 w))
    by (rewrite Ec, Ew; simpl; rewrite <- Wa, <- Wb, Hab; reflexivity).
  destruct (app_eq_length _ _ _ _ Hlen H) as [E ->].
  split; [apply utf8_inj; assumption | reflexivity].
Qed.

Lemma continuation_run {A : Type} (P : A -> Prop) (l1 : list A) :
  forall l2 a b r1 r2,
    Forall P l1 -> Forall P l2 -> ~ P a -> ~ P b ->
    l1 ++ a :: r1 = l2 ++ b :: r2 -> l1 = l2 /\ a = b /\ r1 = r2.
Proof.
  induction l1 as [| x l1 IH]; intros [| y l2] a b r1 r2 H1 H2 Ha Hb H;
    simpl in H.
  - injection H as -> ->. repeat split.
  - injection H as -> _. inversion H2. contradiction.
  - injection H as -> _. inversion H1. contradiction.
  - injection H as -> H. inversion H1. inversion H2. subst.
    destruct (IH l2 a b r1 r2) as [-> [-> ->]]; try assumption.
    repeat split.
Qed.

(** UTF-8 is self-synchronising: an encoding at the end of a byte sequence
    is the encoding of its last character. *)
Lemma utf8_suffix (c w : N) (r r' : list ascii) :
  code_point c -> code_point w ->
  rev (utf8 c) ++ r = rev (utf8 w) ++ r' -> c = w /\ r = r'.
Proof.
  intros Hc Hw H.
  destruct (utf8_shape c Hc) as [a [t [Ec [Wa Ft]]]].
  destruct (utf8_shape w Hw) as [b [u [Ew [Wb Fu]]]].
  rewrite Ec, Ew in H. simpl in H. rewrite <- !app_assoc in H. simpl in H.
  apply (continuation_run (fun x => width x = 0)) in H.
  - destruct H as [E [-> ->]]. split; [| reflexivity].
    apply utf8_inj; try assumption. rewrite Ec, Ew. f_equal.
    rewrite <- (rev_involutive t), E. apply rev_involutive.
  - apply Forall_rev, Ft.
  - apply Forall_rev, Fu.
  - rewrite Wa. discriminate.
  - rewrite Wb. discriminate.
Qed.

Lemma isspace_code_point (cp : N) : isspace cp = true -> code_point cp.
Proof.
  unfold isspace. intros H. apply existsb_exists in H.
  destruct H as [w [Hin E]]. apply N.eqb_eq in E. subst w.
  assert (Hall : Forall code_point whitespace)
    by (repeat constructor).
  rewrite Forall_forall in Hall. apply Hall, Hin.
Qed.

Lemma rev_flat_map {A B : Type} (f : A -> list B) (l : list A) :
  rev (flat_map f l) = flat_map (fun x => rev (f x)) (rev l).
Proof.
  induction l as [| x l IH]; simpl; [reflexivity |].
  rewrite rev_app_distr, IH, flat_map_app. simpl. rewrite app_nil_r.
  reflexivity.
Qed.

Lemma lstrip_points_suffix (s : list N) :
  exists p, s = p ++ lstrip_points s.
Proof.
  induction s as [| c s [p IH]]; simpl; [exists []; reflexivity |].
  destruct (isspace c); [| exists []; reflexivity].
  exists (c :: p). simpl. rewrite <- IH. reflexivity.
Qed.

Lemma lstrip_points_code_points (s : list N) :
  Forall code_point s -> Forall code_point (lstrip_points s).
Proof.
  intros H. destruct (lstrip_points_suffix s) as [p Hp]. rewrite Hp in H.
  apply Forall_app in H. apply H.
Qed.

Section Encoded.

Variable enc : N -> list ascii.
Hypothesis enc_nonempty : forall cp, enc cp <> [].
Hypothesis enc_first :
  forall c w r r',
    code_point c -> code_point w -> enc c ++ r = enc w ++ r' -> c = w /\ r = r'.

Lemma after_space_encoded (c : N) (rest : list ascii) :
  code_point c ->
  after_space enc (enc c ++ rest) = if isspace c then Some rest else None.
Proof.
  intros Hc. destruct (after_space enc (enc c ++ rest)) as [r |] eqn:E.
  - apply after_space_Some in E. destruct E as [w [Hw E]].
    destruct (enc_first c w rest r Hc (isspace_code_point w Hw) E) as [-> ->].
    rewrite Hw. reflexivity.
  - destruct (isspace c) eqn:Ec; [| reflexivity].
    rewrite after_space_None in E. destruct (E c rest Ec eq_refl).
Qed.

Lemma after_space_nil : after_space enc [] = None.
Proof.
  apply after_space_None. intros cp r _ H. symmetry in H.
  apply app_eq_nil in H. destruct H as [H _]. apply (enc_nonempty cp H).
Qed.

Lemma drop_spaces_encoded (s : list N) :
  forall fuel,
    Forall code_point s -> length s <= fuel ->
    drop_spaces enc fuel (flat_map enc s) = flat_map enc (lstrip_points s).
Proof.
  induction s as [| c s IH]; intros fuel Hs Hlen.
  - simpl. apply drop_spaces_fixed, after_space_nil.
  - inversion Hs as [| ? ? Hc Hs']. subst.
    destruct fuel as [| fuel]; [simpl in Hlen; lia |].
    cbn [flat_map drop_spaces lstrip_points].
    rewrite (after_space_encoded c _ Hc).
    destruct (isspace c); [| reflexivity].
    apply IH; [exact Hs' | simpl in Hlen; lia].
Qed.

Lemma length_encoded (s : list N) : length s <= length (flat_map enc s).
Proof.
  induction s as [| c s IH]; simpl; [lia |].
  rewrite length_app. pose proof (enc_nonempty c) as H.
  destruct (enc c); [contradiction | simpl; lia].
Qed.

End Encoded.

Lemma encode_bytes (s : list N) :
  list_ascii_of_string (encode s) = flat_map utf8 s.
Proof. apply list_ascii_of_string_of_list_ascii. Qed.

Lemma lstrip_encode (s : list N) :
  Forall code_point s -> lstrip (encode s) = encode (lstrip_points s).
Proof.
  intros Hs. unfold lstrip. rewrite encode_bytes. unfold encode. f_equal.
  apply (drop_spaces_encoded utf8 utf8_nonempty utf8_prefix); [exact Hs |].
  apply length_encoded, utf8_nonempty.
Qed.

Lemma rstrip_encode (s : list N) :
  Forall code_point s -> rstrip (encode s) = encode (rstrip_points s).
Proof.
  intros Hs. unfold rstrip. rewrite encode_bytes. unfold encode. f_equal.
  rewrite rev_flat_map.
  rewrite (drop_spaces_encoded (fun cp => rev (utf8 cp)) rev_utf8_nonempty
             utf8_suffix).
  - unfold rstrip_points. rewrite rev_flat_map.
    apply flat_map_ext. intros c. apply rev_involutive.
  - apply Forall_rev, Hs.
  - apply (length_encoded (fun cp => rev (utf8 cp)) rev_utf8_nonempty).
Qed.

Lemma strip_encode (s : list N) :
  Forall code_point s -> strip (encode s) = encode (strip_points s).
Proof.
  intros Hs. unfold strip, strip_points.
  rewrite (lstrip_encode s Hs).
  apply rstrip_encode, lstrip_points_code_points, Hs.
Qed.

Lemma encode_cons (c : N) (s : list N) :
  encode (c :: s) = (string_of_list_ascii (utf8 c) ++ encode s)%string.
Proof.
  unfold encode. simpl.
  generalize (utf8 c) as l. intros l.
  induction l as [| a l IH]; simpl; [reflexivity | rewrite IH; reflexivity].
Qed.

Lemma encode_nil_iff (s : list N) : encode s = "" <-> s = [].
Proof.
  split; [| intros ->; reflexivity].
  destruct s as [| c s]; [reflexivity |]. rewrite encode_cons.
  pose proof (utf8_nonempty c) as H. destruct (utf8 c); [contradiction |].
  discriminate.
Qed.

(** A comma is the encoding of the comma and a byte of no other
    encoding. *)
Lemma utf8_comma (c : N) :
  code_point c -> In ","%char (utf8 c) -> c = 44%N.
Proof.
  intros Hc Hin. destruct (utf8_shape c Hc) as [a [t [E [Wa Ft]]]].
  rewrite E in Hin. destruct Hin as [-> | Hin].
  - destruct t; [| discriminate Wa].
    apply utf8_inj; [exact Hc | reflexivity | exact E].
  - rewrite Forall_forall in Ft. apply Ft in Hin. discriminate Hin.
Qed.

Lemma split_skip (sep : ascii) (l : list ascii) (s : string) :
  ~ In sep l ->
  split sep (string_of_list_ascii l ++ s) =
  match split sep s with
  | [] => [string_of_list_ascii l]
  | w :: ws => (string_of_list_ascii l ++ w)%string :: ws
  end.
Proof.
  induction l as [| a l IH]; simpl; intros H.
  - destruct (split sep s) eqn:E; [| reflexivity].
    destruct s as [| c s]; simpl in E; [discriminate |].
    destruct (Ascii.eqb c sep); [discriminate |].
    destruct (split sep s); discriminate.
  - destruct (Ascii.eqb_spec a sep) as [-> | Hne]; [tauto |].
    rewrite IH by tauto. destruct (split sep s); reflexivity.
Qed.

Lemma split_points_nonempty (sep : N) (s : list N) : split_points sep s <> [].
Proof.
  destruct s as [| c s]; simpl; [discriminate |].
  destruct (c =? sep)%N; [discriminate |].
  destruct (split_points sep s); discriminate.
Qed.

Lemma split_encode (s : list N) :
  Forall code_point s ->
  split "," (encode s) = map encode (split_points 44 s) /\
  Forall (Forall code_point) (split_points 44 s).
Proof.
  induction 1 as [| c s Hc Hs [IH Hall]]; [split; [reflexivity |] |].
  - repeat constructor.
  - rewrite encode_cons. cbn [split_points].
    destruct (N.eqb_spec c 44) as [-> | Hne].
    + simpl. rewrite IH. split; [reflexivity |].
      constructor; [constructor | exact Hall].
    + rewrite split_skip
        by (intros Hin; apply Hne; apply utf8_comma; assumption).
      rewrite IH. pose proof (split_points_nonempty 44 s) as Hn.
      destruct (split_points 44 s) as [| w ws]; [contradiction |].
      simpl. rewrite encode_cons. split; [reflexivity |].
      inversion Hall. subst. constructor; [constructor |]; assumption.
Qed.

Lemma comprehension_encode (l : list (list N)) :
  Forall (Forall code_point) l ->
  flat_map (fun k => if truthy (strip k) then [strip k] else []) (map encode l) =
  map encode (flat_map (fun k => match strip_points k with
                                 | [] => []
                                 | k' => [k']
                                 end) l).
Proof.
  induction 1 as [| k l Hk _ IH]; [reflexivity |].
  cbn [map flat_map]. rewrite map_app, IH, (strip_encode k Hk). f_equal.
  destruct (strip_points k) as [| c k'] eqn:E; [reflexivity |].
  destruct (encode (c :: k')) eqn:E'.
  - apply encode_nil_iff in E'. discriminate E'.
  - cbn [map truthy]. rewrite E'. reflexivity.
Qed.

(** X24: line 91 on the UTF-8 encoding of an input is line 91 on its code
    points: for every input [str], the keywords parsed from its encoding are
    the encodings of the keywords that splitting on the comma, stripping
    Python's white space and dropping the empty pieces give on the code
    points.  No byte of a multi-byte character is taken for white space or
    for a comma. *)
Theorem parse_keywords_encode (keyword_input : list N) :
  Forall code_point keyword_input ->
  parse_keywords (encode keyword_input) =
  map encode (parse_points keyword_input).
Proof.
  intros H. unfold parse_keywords, parse_points.
  destruct (split_encode keyword_input H) as [-> Hall].
  apply comprehension_encode, Hall.
Qed.

Lemma parse_keywords_encode_witness :
  parse_keywords (encode [12288; 51232; 32; 44; 51205; 160]%N) = ["젠"; "젅"].
Proof.
  apply (parse_keywords_encode [12288; 51232; 32; 44; 51205; 160]%N).
  repeat constructor.
Defined.

Lemma split_app (sep : ascii) (a b : string) :
  split sep (a ++ String sep b) = split sep a ++ split sep b.
Proof.
  induction a as [| c a IH]; simpl.
  - rewrite Ascii.eqb_refl. reflexivity.
  - destruct (Ascii.eqb c sep).
    + rewrite IH. reflexivity.
    + rewrite IH. pose proof (split_nonempty sep a) as Hne.
      destruct (split sep a) as [| w ws]; [contradiction | reflexivity].
Qed.

(** X5: the keywords of two inputs joined by a comma are the keywords of
    the first followed by those of the second: order and repetitions are
    kept, nothing is merged across the comma. *)
Theorem parse_keywords_app (a b : string) :
  parse_keywords (a ++ String "," b) = parse_keywords a ++ parse_keywords b.
Proof.
  unfold parse_keywords. rewrite split_app. apply flat_map_app.
Qed.

(** ** Search replies *)

Lemma for_each_as_record (records : list record) :
  for_each as_record (map JObj records) = Ok records.
Proof.
  induction records as [| r rs IH]; simpl; [reflexivity |].
  rewrite IH. reflexivity.
Qed.

Lemma DataFrame_of_records_rectangular (rs : list record) :
  rectangular (DataFrame_of_records rs).
Proof.
  unfold rectangular, DataFrame_of_records. simpl.
  apply Forall_forall. intros row H. apply in_map_iff in H.
  destruct H as [r [<- _]]. apply length_map.
Qed.

Lemma DataFrame_of_records_column (rs : list record) (c : string) :
  In c (columns (DataFrame_of_records rs)) ->
  column (DataFrame_of_records rs) c = Ok (map (fun r => get_or_na r c) rs).
Proof.
  intros H. unfold column.
  destruct (index_of_In c _ H) as [i Ei].
  unfold DataFrame_of_records in *. simpl in *. rewrite Ei, map_map.
  apply f_equal. apply map_ext. intros r.
  apply (nth_map_index_of (get_or_na r) JNull c _ i Ei).
Qed.

(** X6: a 200 search reply whose items are n objects gives a frame of n
    rows in the provider's order, nothing filtered: its columns are the keys
    that occur in some item, each once, and the column of a key holds, item
    by item, the item's value for the key, missing where the item lacks
    it. *)
Theorem search_rows (r : response) (data : json) (records : list record) :
  status_code r = 200%Z ->
  payload r = Some data ->
  getitem data "items" = Ok (JArr (map JObj records)) ->
  exists df,
    fetch_search_results r = Ok df /\
    length (rows df) = length records /\
    NoDup (columns df) /\
    rectangular df /\
    (forall c, In c (columns df) <->
               exists item, In item records /\ In c (map fst item)) /\
    (forall c, In c (columns df) ->
               column df c = Ok (map (fun item => get_or_na item c) records)).
Proof.
  intros Hs Hp Hi. exists (DataFrame_of_records records).
  split; [| split; [| split; [| split; [| split]]]].
  - unfold fetch_search_results, response_json. rewrite Hs, Hp. simpl.
    rewrite Hi. simpl. rewrite for_each_as_record. reflexivity.
  - unfold DataFrame_of_records. simpl. apply length_map.
  - apply NoDup_unique.
  - apply DataFrame_of_records_rectangular.
  - intros c. unfold DataFrame_of_records. simpl.
    rewrite In_unique, in_flat_map. reflexivity.
  - intros c. apply DataFrame_of_records_column.
Qed.

Lemma search_rows_witness :
  exists df,
    fetch_search_results
      (mkResponse 200 (Some (JObj [("items", JArr (map JObj sample_items))])))
      = Ok df /\
    columns df = ["title"; "lprice"; "mallName"] /\
    column df "lprice" = Ok [JStr "12000"; JNull].
Proof.
  destruct (search_rows
              (mkResponse 200 (Some (JObj [("items", JArr (map JObj sample_items))])))
              (JObj [("items", JArr (map JObj sample_items))])
              sample_items eq_refl eq_refl eq_refl)
    as [df [Hf _]].
  exists df. split; [exact Hf |].
  vm_compute in Hf. injection Hf as <-. split; reflexivity.
Defined.

(** X7: a 200 reply with no item and a reply of any other status give the
    same value, the empty frame: the caller cannot tell no result from a
    failed call.  The same holds for a 200 trend reply with no group. *)
Theorem no_result_same_as_failure (r failed : response) (data : json) :
  status_code r = 200%Z ->
  payload r = Some data ->
  status_code failed <> 200%Z ->
  (getitem data "items" = Ok (JArr []) ->
   fetch_search_results r = fetch_search_results failed) /\
  (getitem data "results" = Ok (JArr []) ->
   fetch_shopping_trend r = fetch_shopping_trend failed).
Proof.
  intros Hs Hp Hf.
  rewrite (fetch_search_results_not_200 failed Hf).
  rewrite (fetch_shopping_trend_not_200 failed Hf).
  unfold fetch_search_results, fetch_shopping_trend, response_json, normalize.
  rewrite Hs, Hp. simpl. split; intros ->; reflexivity.
Qed.

Lemma no_result_same_as_failure_witness :
  fetch_search_results (mkResponse 200 (Some (JObj [("items", JArr [])])))
  = fetch_search_results unavailable.
Proof.
  apply (no_result_same_as_failure
           (mkResponse 200 (Some (JObj [("items", JArr [])]))) unavailable
           (JObj [("items", JArr [])]));
    [reflexivity | reflexivity | discriminate | reflexivity].
Defined.

(** X8: a 200 reply whose body is a JSON object without the expected key
    raises [KeyError] for that key, and a body that is not an object raises
    [TypeError]; neither degrades to the empty frame. *)
Theorem unexpected_body_raises (r : response) (data : json) :
  status_code r = 200%Z ->
  payload r = Some data ->
  (forall o, data = JObj o -> assoc "items" o = None ->
     fetch_search_results r = Raise (KeyError "items")) /\
  (forall o, data = JObj o -> assoc "results" o = None ->
     fetch_shopping_trend r = Raise (KeyError "results")) /\
  ((forall o, data <> JObj o) ->
     fetch_search_results r = Raise TypeError /\
     fetch_shopping_trend r = Raise TypeError).
Proof.
  intros Hs Hp.
  unfold fetch_search_results, fetch_shopping_trend, response_json, normalize.
  rewrite Hs, Hp. simpl. split; [| split].
  - intros o -> H. simpl. rewrite H. reflexivity.
  - intros o -> H. simpl. rewrite H. reflexivity.
  - intros H. destruct data; try (split; reflexivity).
    exfalso. apply (H o). reflexivity.
Qed.

Lemma unexpected_body_raises_witness :
  fetch_search_results
    (mkResponse 200 (Some (JObj [("errorMessage", JStr "quota")])))
  = Raise (KeyError "items").
Proof.
  destruct (unexpected_body_raises
              (mkResponse 200 (Some (JObj [("errorMessage", JStr "quota")])))
              (JObj [("errorMessage", JStr "quota")]) eq_refl eq_refl)
    as [H _].
  apply (H [("errorMessage", JStr "quota")]); reflexivity.
Defined.

(** ** Data collection *)

Lemma search_all_positions (net : network) (kind : string) (kws : list string) :
  forall i d,
    (forall j kw, nth_error kws j = Some kw ->
       exists df, fetch_search_results (get_search net kind (i + j) kw) = Ok df) ->
    exists d', search_all net kind i kws d = Ok d'.
Proof.
  induction kws as [| k kws IH]; intros i d H; simpl.
  - exists d. reflexivity.
  - destruct (H 0 k eq_refl) as [df Hdf]. rewrite Nat.add_0_r in Hdf.
    rewrite Hdf. simpl. apply IH. intros j kw Hj.
    replace (S i + j) with (i + S j) by lia. apply H. exact Hj.
Qed.

(** X9: the data collection returns exactly when the trend reply and the
    blog and shop reply of every keyword position can be fetched; one reply
    that makes its fetch raise leaves the run without any result set. *)
Theorem collect_returns_iff (net : network) (keywords : list string) :
  (exists c, collect net keywords = Ok c) <->
  (exists t, fetch_shopping_trend (post_trend net keywords) = Ok t) /\
  (forall kind i kw,
     kind = "blog" \/ kind = "shop" ->
     nth_error keywords i = Some kw ->
     exists df, fetch_search_results (get_search net kind i kw) = Ok df).
Proof.
  split.
  - intros [c Hc]. split.
    + destruct (collect_Ok_inv net keywords c Hc _ (requested_trend net keywords))
        as [H | H]; [exact H |].
      unfold collect in Hc. apply bind_Ok in Hc.
      destruct Hc as [t [Ht _]]. exists t. exact Ht.
    + intros kind i kw Hk Hi. unfold collect in Hc.
      apply bind_Ok in Hc. destruct Hc as [t [_ Hc]].
      apply bind_Ok in Hc. destruct Hc as [b [Hb Hc]].
      apply bind_Ok in Hc. destruct Hc as [s [Hs _]].
      destruct Hk as [-> | ->].
      * apply (search_all_Ok_inv _ _ _ _ _ _ Hb i kw Hi).
      * apply (search_all_Ok_inv _ _ _ _ _ _ Hs i kw Hi).
  - intros [[t Ht] H].
    destruct (search_all_positions net "blog" keywords 0 [])
      as [b Hb]; [intros j kw Hj; apply H; [left; reflexivity | exact Hj] |].
    destruct (search_all_positions net "shop" keywords 0 [])
      as [s Hs]; [intros j kw Hj; apply H; [right; reflexivity | exact Hj] |].
    exists (mkCollected t b s). unfold collect.
    rewrite Ht. simpl. rewrite Hb. simpl. rewrite Hs. reflexivity.
Qed.

Lemma assoc_dict_set_other {V : Type} (k k' : string) (v : V) (d : dict V) :
  k <> k' -> assoc k' (dict_set k v d) = assoc k' d.
Proof.
  intros Hne. induction d as [| [k0 v0] d IH]; simpl.
  - destruct (String.eqb_spec k' k); [congruence | reflexivity].
  - destruct (String.eqb_spec k k0) as [-> | Hk]; simpl.
    + destruct (String.eqb_spec k' k0); [congruence | reflexivity].
    + destruct (String.eqb_spec k' k0); [reflexivity | exact IH].
Qed.

Lemma search_all_absent (net : network) (kind : string) (kw : string)
    (kws : list string) :
  ~ In kw kws ->
  forall i d d', search_all net kind i kws d = Ok d' -> assoc kw d' = assoc kw d.
Proof.
  induction kws as [| k kws IH]; intros Hn i d d' H; simpl in H.
  - injection H as <-. reflexivity.
  - apply bind_Ok in H. destruct H as [df [_ H]].
    rewrite (IH (fun Hin => Hn (or_intror Hin)) _ _ _ H).
    apply assoc_dict_set_other. intros E. apply Hn. left. exact E.
Qed.

Lemma search_all_last (net : network) (kind : string) (kws : list string) :
  forall i d d' j kw,
    search_all net kind i kws d = Ok d' ->
    last_at kws j kw ->
    dict_getitem d' kw = fetch_search_results (get_search net kind (i + j) kw).
Proof.
  induction kws as [| k kws IH]; intros i d d' j kw H [Hj Hlast].
  - destruct j; discriminate Hj.
  - simpl in H. apply bind_Ok in H. destruct H as [df [Hdf H]].
    destruct j as [| j]; simpl in Hj.
    + injection Hj as ->. rewrite Nat.add_0_r, Hdf.
      assert (Hn : ~ In kw kws).
      { intros Hin. apply In_nth_error in Hin. destruct Hin as [n Hn].
        apply (Hlast (S n)); [lia | exact Hn]. }
      unfold dict_getitem.
      rewrite (search_all_absent _ _ _ _ Hn _ _ _ H), assoc_dict_set.
      reflexivity.
    + replace (i + S j) with (S i + j) by lia.
      apply (IH _ _ _ _ _ H). split; [exact Hj |].
      intros j' Hlt. apply (Hlast (S j')). lia.
Qed.

(** X10: for a keyword entered more than once, the result sets keep the
    frame of its last request: the frame stored under a keyword is the one
    fetched from the reply to the request at the keyword's last position. *)
Theorem collect_keeps_last (net : network) (keywords : list string)
    (c : collected) (j : nat) (kw : string) :
  collect net keywords = Ok c ->
  last_at keywords j kw ->
  dict_getitem (blog_dfs c) kw =
    fetch_search_results (get_search net "blog" j kw) /\
  dict_getitem (shop_dfs c) kw =
    fetch_search_results (get_search net "shop" j kw).
Proof.
  unfold collect. intros H Hl.
  apply bind_Ok in H. destruct H as [t [_ H]].
  apply bind_Ok in H. destruct H as [b [Hb H]].
  apply bind_Ok in H. destruct H as [s [Hs H]].
  injection H as <-. simpl. split.
  - apply (search_all_last _ _ _ 0 [] b j kw Hb Hl).
  - apply (search_all_last _ _ _ 0 [] s j kw Hs Hl).
Qed.

Lemma collect_keeps_last_witness :
  exists c,
    collect counting_net ["omega3"; "vitaminD"; "omega3"] = Ok c /\
    dict_getitem (blog_dfs c) "omega3" =
      fetch_search_results (get_search counting_net "blog" 2 "omega3").
Proof.
  eexists. split; [reflexivity |].
  apply (collect_keeps_last counting_net ["omega3"; "vitaminD"; "omega3"]).
  - reflexivity.
  - split; [reflexivity |].
    intros [| [| [| [| j']]]] Hlt; try lia; discriminate.
Defined.

(** ** The normalizer, conversely *)

Lemma for_each_Ok_inv {A B : Type} (f : A -> result B) (g : A -> B)
    (P : A -> Prop) (l : list A) :
  (forall x y, In x l -> f x = Ok y -> y = g x /\ P x) ->
  forall ys, for_each f l = Ok ys -> ys = map g l /\ Forall P l.
Proof.
  induction l as [| x l IH]; intros Hf ys H; simpl in H.
  - injection H as <-. split; [reflexivity | constructor].
  - apply bind_Ok in H. destruct H as [y [Hy H]].
    apply bind_Ok in H. destruct H as [ys' [Hys H]].
    injection H as <-.
    destruct (Hf x y (or_introl eq_refl) Hy) as [-> Hx].
    destruct (IH (fun x' y' Hin => Hf x' y' (or_intror Hin)) ys' Hys)
      as [-> Hl].
    split; [reflexivity | constructor; assumption].
Qed.

Lemma trend_record_inv (g e : json) (rec : record) :
  trend_record (field g "title") e = Ok rec ->
  rec = trend_row g e /\ entry_ok e.
Proof.
  unfold trend_record, trend_row, entry_ok, field. intros H.
  apply bind_Ok in H. destruct H as [p [Hp H]].
  apply bind_Ok in H. destruct H as [r [Hr H]].
  injection H as <-. rewrite Hp, Hr. split; [reflexivity |].
  split; eexists; reflexivity.
Qed.

Lemma trend_group_inv (g : json) (recs : list record) :
  trend_group g = Ok recs ->
  recs = map (trend_row g) (entries g) /\
  ((exists t, getitem g "title" = Ok t) /\
   (exists d es, getitem g "data" = Ok d /\ iter d = Ok es) /\
   Forall entry_ok (entries g)).
Proof.
  unfold trend_group. intros H.
  apply bind_Ok in H. destruct H as [t [Ht H]].
  apply bind_Ok in H. destruct H as [d [Hd H]].
  apply bind_Ok in H. destruct H as [es [He H]].
  assert (Ee : entries g = es) by (unfold entries; rewrite Hd, He; reflexivity).
  rewrite Ee.
  assert (Et : field g "title" = t) by (unfold field; rewrite Ht; reflexivity).
  rewrite <- Et in H.
  destruct (for_each_Ok_inv _ (trend_row g) entry_ok es
              (fun e rec _ => trend_record_inv g e rec) recs H) as [-> Hall].
  split; [reflexivity |].
  split; [exists t; exact Ht |].
  split; [exists d, es; split; assumption | exact Hall].
Qed.

(** X11: the normalizer is all or nothing.  When it returns on a reply
    whose results are an array of groups, every group had a title and an
    iterable data field and every entry a period and a ratio; the records
    are one per entry of each group in order, whatever the sizes of the
    groups, and each record has exactly the fields period, ratio and
    keyword. *)
Theorem normalize_complete (data : json) (groups : list json)
    (rs : list record) :
  getitem data "results" = Ok (JArr groups) ->
  normalize data = Ok rs ->
  rs = flat_map (fun g => map (trend_row g) (entries g)) groups /\
  length rs = list_sum (map (fun g => length (entries g)) groups) /\
  Forall (fun rec : record => map fst rec = ["period"; "ratio"; "keyword"]) rs /\
  Forall (fun g =>
            (exists t, getitem g "title" = Ok t) /\
            (exists d es, getitem g "data" = Ok d /\ iter d = Ok es) /\
            Forall entry_ok (entries g))
         groups.
Proof.
  intros Hr H. unfold normalize in H. rewrite Hr in H. simpl in H.
  apply bind_Ok in H. destruct H as [per_group [Hp H]]. injection H as <-.
  destruct (for_each_Ok_inv _ (fun g => map (trend_row g) (entries g)) _ groups
              (fun g recs _ => trend_group_inv g recs) per_group Hp)
    as [-> Hall].
  rewrite concat_map_flat_map.
  split; [reflexivity |]. split; [| split; [| exact Hall]].
  - clear. induction groups as [| g gs IH]; simpl; [reflexivity |].
    rewrite length_app, length_map, IH. reflexivity.
  - clear. induction groups as [| g gs IH]; simpl; [constructor |].
    apply Forall_app. split; [| exact IH].
    apply Forall_forall. intros rec Hin. apply in_map_iff in Hin.
    destruct Hin as [e [<- _]]. reflexivity.
Qed.

Lemma normalize_complete_witness :
  exists rs,
    normalize sample_trend_data = Ok rs /\ length rs = 4.
Proof.
  eexists. split; [reflexivity |].
  destruct (normalize_complete sample_trend_data sample_groups _
              eq_refl eq_refl) as [_ [H _]].
  exact H.
Defined.

(** ** The trend tab *)

(** X12: after a trend call that failed (any status other than 200), the
    trend frame has no point and the trend tab shows the warning and nothing
    else: no chart and no pivot is attempted. *)
Theorem failed_trend_warns (r : response) :
  status_code r <> 200%Z ->
  exists df,
    fetch_shopping_trend r = Ok df /\
    trend_points df = Some [] /\
    tab_trend [] = Ok [warning].
Proof.
  intros H. exists empty_frame.
  split; [apply fetch_shopping_trend_not_200, H |].
  split; reflexivity.
Qed.

Lemma failed_trend_warns_witness :
  exists df,
    fetch_shopping_trend unavailable = Ok df /\
    trend_points df = Some [] /\
    tab_trend [] = Ok [warning].
Proof.
  apply (failed_trend_warns unavailable). discriminate.
Defined.

Lemma leb_false_total (a b : string) :
  String.leb a b = false -> String.leb b a = true.
Proof.
  intros H. destruct (String.leb_total a b) as [E | E]; [congruence | exact E].
Qed.

Lemma sorted_labels (l : list string) :
  Sorted (fun a b => String.leb a b = true) (sort_by String.leb l).
Proof.
  apply sort_by_Sorted.
  - intros x y H. exact H.
  - intros x y H. apply leb_false_total, H.
Qed.

Lemma NoDup_sort_by {A : Type} (le : A -> A -> bool) (l : list A) :
  NoDup l -> NoDup (sort_by le l).
Proof.
  intros H. apply (Permutation_NoDup (Permutation_sym (sort_by_Permutation le l))).
  exact H.
Qed.

(** X13: the pivot table of a trend frame has one row per distinct period
    and one column per distinct keyword, both in ascending order and
    without repetition, and every row has one cell per column. *)
Theorem pivot_shape (pts : list KeywordTrendPoint) (t : PivotTable) :
  pivot pts = Ok t ->
  Sorted (fun a b => String.leb a b = true) (p_index t) /\
  Sorted (fun a b => String.leb a b = true) (p_columns t) /\
  NoDup (p_index t) /\ NoDup (p_columns t) /\
  (forall p, In p (p_index t) <-> exists x, In x pts /\ period x = p) /\
  (forall k, In k (p_columns t) <-> exists x, In x pts /\ keyword x = k) /\
  length (p_index t) = length (unique (map period pts)) /\
  length (p_columns t) = length (unique (map keyword pts)) /\
  length (p_values t) = length (p_index t) /\
  Forall (fun row => length row = length (p_columns t)) (p_values t).
Proof.
  unfold pivot. destruct (duplicated pts); [discriminate |].
  intros H. injection H as <-. simpl.
  split; [apply sorted_labels |]. split; [apply sorted_labels |].
  split; [apply NoDup_sort_by, NoDup_unique |].
  split; [apply NoDup_sort_by, NoDup_unique |].
  split; [| split; [| split; [| split; [| split]]]].
  - intros p. rewrite In_sort_by, In_unique, in_map_iff.
    split; intros [x [H1 H2]]; exists x; tauto.
  - intros k. rewrite In_sort_by, In_unique, in_map_iff.
    split; intros [x [H1 H2]]; exists x; tauto.
  - apply Permutation_length, sort_by_Permutation.
  - apply Permutation_length, sort_by_Permutation.
  - apply length_map.
  - apply Forall_forall. intros row H. apply in_map_iff in H.
    destruct H as [p [<- _]]. apply length_map.
Qed.

Lemma pivot_shape_witness :
  exists t,
    pivot sample_points = Ok t /\
    p_index t = ["2024-01-01"; "2024-02-01"] /\
    p_columns t = ["omega3"; "vitaminD"] /\
    length (p_values t) = length (p_index t).
Proof.
  eexists. split; [reflexivity |].
  destruct (pivot_shape sample_points _ eq_refl)
    as (_ & _ & _ & _ & _ & _ & _ & _ & H & _).
  split; [reflexivity |]. split; [reflexivity | exact H].
Defined.

(** ** Columns of a frame *)

Lemma index_of_nth_error (c : string) (cols : list string) :
  forall i, index_of c cols = Some i -> nth_error cols i = Some c.
Proof.
  induction cols as [| c' cols IH]; simpl; intros i H; [discriminate |].
  destruct (String.eqb_spec c c') as [-> | Hne].
  - injection H as <-. reflexivity.
  - destruct (index_of c cols) as [j |]; [| discriminate].
    injection H as <-. simpl. apply IH. reflexivity.
Qed.

Lemma index_of_lt (c : string) (cols : list string) (i : nat) :
  index_of c cols = Some i -> i < length cols.
Proof.
  intros H. apply index_of_nth_error in H.
  apply nth_error_Some. congruence.
Qed.

Lemma index_of_None (c : string) (cols : list string) :
  index_of c cols = None -> ~ In c cols.
Proof.
  intros H Hin. destruct (index_of_In c cols Hin) as [i E]. congruence.
Qed.

Lemma index_of_app_l (c : string) (cols more : list string) (i : nat) :
  index_of c cols = Some i -> index_of c (cols ++ more) = Some i.
Proof.
  revert i. induction cols as [| c' cols IH]; simpl; intros i H; [discriminate |].
  destruct (String.eqb c c'); [exact H |].
  destruct (index_of c cols) as [j |]; [| discriminate].
  rewrite (IH j eq_refl). exact H.
Qed.

Lemma index_of_app_new (c : string) (cols : list string) :
  index_of c cols = None -> index_of c (cols ++ [c]) = Some (length cols).
Proof.
  induction cols as [| c' cols IH]; simpl; intros H.
  - rewrite String.eqb_refl. reflexivity.
  - destruct (String.eqb c c'); [discriminate |].
    destruct (index_of c cols) as [j |]; [discriminate |].
    rewrite (IH eq_refl). reflexivity.
Qed.

Lemma index_of_app_other (c c' : string) (cols : list string) :
  c' <> c -> index_of c' cols = None -> index_of c' (cols ++ [c]) = None.
Proof.
  intros Hne. induction cols as [| c0 cols IH]; simpl; intros H.
  - destruct (String.eqb_spec c' c); [contradiction | reflexivity].
  - destruct (String.eqb c' c0); [discriminate |].
    destruct (index_of c' cols) as [j |]; [discriminate |].
    rewrite (IH eq_refl). reflexivity.
Qed.

Lemma length_replace_nth {A : Type} (i : nat) (x : A) (l : list A) :
  length (replace_nth i x l) = length l.
Proof.
  revert i. induction l as [| y l IH]; intros [| i]; simpl; try reflexivity.
  rewrite IH. reflexivity.
Qed.

Lemma nth_replace_nth_same {A : Type} (i : nat) (x d : A) (l : list A) :
  i < length l -> nth i (replace_nth i x l) d = x.
Proof.
  revert i. induction l as [| y l IH]; intros [| i] H; simpl in *; try lia.
  - reflexivity.
  - apply IH. lia.
Qed.

Lemma nth_replace_nth_other {A : Type} (i j : nat) (x d : A) (l : list A) :
  i <> j -> nth j (replace_nth i x l) d = nth j l d.
Proof.
  revert i j. induction l as [| y l IH]; intros [| i] [| j] H; simpl;
    try reflexivity; try lia.
  apply IH. lia.
Qed.

Lemma set_column_rectangular (df : DataFrame) (c : string) (values : list cell) :
  rectangular df -> rectangular (set_column df c values).
Proof.
  unfold rectangular, set_column. intros H.
  destruct (index_of c (columns df)) as [i |]; simpl.
  - revert values. induction H as [| r rs Hr _ IH]; intros [| v vs]; simpl;
      constructor.
    + rewrite length_replace_nth. exact Hr.
    + apply IH.
  - revert values. induction H as [| r rs Hr _ IH]; intros [| v vs]; simpl;
      constructor.
    + rewrite !length_app, Hr. reflexivity.
    + apply IH.
Qed.

Lemma zip_replace_same (n i : nat) (rs : list (list cell)) :
  Forall (fun r => length r = n) rs -> i < n ->
  forall values, length values = length rs ->
    map (fun r => nth i r JNull)
        (zip_with (fun r v => replace_nth i v r) rs values) = values.
Proof.
  unfold cell in *.
  intros H Hi. induction H as [| r rs Hr _ IH]; intros [| v vs] Hlen;
    simpl in *; try discriminate; [reflexivity |].
  rewrite nth_replace_nth_same by lia. rewrite IH by lia. reflexivity.
Qed.

Lemma zip_append_same (n : nat) (rs : list (list cell)) :
  Forall (fun r => length r = n) rs ->
  forall values, length values = length rs ->
    map (fun r => nth n r JNull)
        (zip_with (fun r v => r ++ [v]) rs values) = values.
Proof.
  unfold cell in *.
  intros H. induction H as [| r rs Hr _ IH]; intros [| v vs] Hlen;
    simpl in *; try discriminate; [reflexivity |].
  rewrite IH by lia. rewrite <- Hr, nth_middle. reflexivity.
Qed.

Lemma zip_replace_other (i j : nat) (rs : list (list cell)) :
  i <> j ->
  forall values, length values = length rs ->
    map (fun r => nth j r JNull)
        (zip_with (fun r v => replace_nth i v r) rs values) =
    map (fun r => nth j r JNull) rs.
Proof.
  intros Hij. induction rs as [| r rs IH]; intros [| v vs] Hlen;
    simpl in *; try discriminate; [reflexivity |].
  rewrite nth_replace_nth_other by exact Hij. rewrite IH by lia. reflexivity.
Qed.

Lemma zip_append_other (n j : nat) (rs : list (list cell)) :
  Forall (fun r => length r = n) rs -> j < n ->
  forall values, length values = length rs ->
    map (fun r => nth j r JNull)
        (zip_with (fun r v => r ++ [v]) rs values) =
    map (fun r => nth j r JNull) rs.
Proof.
  unfold cell in *.
  intros H Hj. induction H as [| r rs Hr _ IH]; intros [| v vs] Hlen;
    simpl in *; try discriminate; [reflexivity |].
  rewrite app_nth1 by lia. rewrite IH by lia. reflexivity.
Qed.

Lemma column_set_column_same (df : DataFrame) (c : string) (values : list cell) :
  rectangular df ->
  length values = length (rows df) ->
  column (set_column df c values) c = Ok values.
Proof.
  unfold rectangular, set_column, column. intros Hrect Hlen.
  destruct (index_of c (columns df)) as [i |] eqn:E; simpl.
  - rewrite E. apply f_equal.
    apply (zip_replace_same _ i _ Hrect (index_of_lt _ _ _ E) _ Hlen).
  - rewrite (index_of_app_new c _ E). apply f_equal.
    apply (zip_append_same _ _ Hrect _ Hlen).
Qed.

Lemma index_of_distinct (c c' : string) (cols : list string) (i j : nat) :
  c <> c' -> index_of c cols = Some i -> index_of c' cols = Some j -> i <> j.
Proof.
  intros Hne Hi Hj E. subst j.
  apply index_of_nth_error in Hi, Hj. congruence.
Qed.

Lemma column_set_column_other (df : DataFrame) (c c' : string)
    (values : list cell) :
  rectangular df ->
  length values = length (rows df) ->
  c' <> c ->
  column (set_column df c values) c' = column df c'.
Proof.
  unfold rectangular, set_column, column. intros Hrect Hlen Hne.
  destruct (index_of c (columns df)) as [i |] eqn:E; simpl.
  - destruct (index_of c' (columns df)) as [j |] eqn:E'; [| reflexivity].
    apply f_equal. apply zip_replace_other; [| exact Hlen].
    apply (index_of_distinct c c' _ i j (fun H => Hne (eq_sym H)) E E').
  - destruct (index_of c' (columns df)) as [j |] eqn:E'.
    + rewrite (index_of_app_l c' _ [c] j E'). apply f_equal.
      apply (zip_append_other _ j _ Hrect (index_of_lt _ _ _ E') _ Hlen).
    + rewrite (index_of_app_other c c' _ Hne E'). reflexivity.
Qed.

(** ** The store after the statistics tab *)

Lemma to_numeric_idempotent (series : list cell) :
  to_numeric (to_numeric series) = to_numeric series.
Proof.
  unfold to_numeric. rewrite map_map. apply map_ext. intros c.
  destruct (to_numeric_coerce_cases c) as [-> | [q ->]]; reflexivity.
Qed.

Lemma replace_nth_idempotent {A : Type} (i : nat) (x : A) (l : list A) :
  replace_nth i x (replace_nth i x l) = replace_nth i x l.
Proof.
  revert i. induction l as [| y l IH]; intros [| i]; simpl; try reflexivity.
  rewrite IH. reflexivity.
Qed.

Lemma zip_replace_idempotent (i : nat) (rs : list (list cell)) :
  forall values,
    zip_with (fun r v => replace_nth i v r)
             (zip_with (fun r v => replace_nth i v r) rs values) values =
    zip_with (fun r v => replace_nth i v r) rs values.
Proof.
  induction rs as [| r rs IH]; intros [| v vs]; simpl; try reflexivity.
  rewrite replace_nth_idempotent, IH. reflexivity.
Qed.

Lemma to_numeric_length (series : list cell) :
  length (to_numeric series) = length series.
Proof. apply length_map. Qed.

Lemma coerce_prices_cases (df : DataFrame) :
  (exists k, column df "lprice" = Raise k /\ coerce_prices df = df) \/
  (exists i lprice,
     index_of "lprice" (columns df) = Some i /\
     column df "lprice" = Ok lprice /\
     length (to_numeric lprice) = length (rows df) /\
     coerce_prices df =
       mkDataFrame (columns df)
         (zip_with (fun r v => replace_nth i v r) (rows df) (to_numeric lprice))).
Proof.
  unfold coerce_prices. destruct (column df "lprice") as [lp | k] eqn:E.
  - right. pose proof (column_length _ _ _ E) as Hlen.
    unfold column in E. unfold set_column.
    destruct (index_of "lprice" (columns df)) as [i |] eqn:Ei; [| discriminate].
    exists i, lp. rewrite to_numeric_length. repeat split; assumption.
  - left. exists k. split; reflexivity.
Qed.

Lemma zip_with_nil_iff {A B C : Type} (f : A -> B -> C) (l : list A)
    (m : list B) :
  length m = length l -> (zip_with f l m = [] <-> l = []).
Proof.
  destruct l, m; simpl; intros H; try discriminate; split; intros E;
    try reflexivity; discriminate.
Qed.

Lemma coerce_prices_empty (df : DataFrame) :
  empty (coerce_prices df) = empty df.
Proof.
  destruct (coerce_prices_cases df)
    as [[k [_ ->]] | [i [lp [_ [_ [Hlen ->]]]]]]; [reflexivity |].
  unfold empty. simpl. destruct (columns df); [reflexivity |].
  destruct (rows df) as [| r rs]; destruct (to_numeric lp); simpl in *;
    try discriminate; reflexivity.
Qed.

Lemma coerce_prices_rectangular (df : DataFrame) :
  rectangular df -> rectangular (coerce_prices df).
Proof.
  intros H. unfold coerce_prices. destruct (column df "lprice"); [| exact H].
  apply set_column_rectangular, H.
Qed.

Lemma coerce_prices_idempotent (df : DataFrame) :
  rectangular df -> coerce_prices (coerce_prices df) = coerce_prices df.
Proof.
  intros Hrect.
  destruct (coerce_prices_cases df)
    as [[k [Hk Hc]] | [i [lp [Hi [Hl [Hlen Hc]]]]]].
  - rewrite Hc. exact Hc.
  - assert (Hset : coerce_prices df = set_column df "lprice" (to_numeric lp))
      by (unfold coerce_prices; rewrite Hl; reflexivity).
    assert (Hcol : column (coerce_prices df) "lprice" = Ok (to_numeric lp))
      by (rewrite Hset; apply column_set_column_same; assumption).
    unfold coerce_prices at 1. rewrite Hcol, to_numeric_idempotent.
    rewrite Hc. unfold set_column. simpl.
    rewrite Hi, zip_replace_idempotent. reflexivity.
Qed.

Lemma coerce_prices_of_empty (df : DataFrame) :
  empty df = true -> coerce_prices df = df.
Proof.
  intros He.
  destruct (coerce_prices_cases df)
    as [[k [_ ->]] | [i [lp [Hi [_ [Hlen ->]]]]]]; [reflexivity |].
  destruct df as [cols rs]. unfold empty in He. simpl in *.
  destruct cols as [| c cols]; [discriminate |].
  destruct rs as [| r rs]; [reflexivity | discriminate].
Qed.

Lemma assoc_NoDup {V : Type} (k : string) (v : V) (d : dict V) :
  NoDup (keys d) -> In (k, v) d -> assoc k d = Some v.
Proof.
  induction d as [| [k' v'] d IH]; simpl; intros Hnd Hin; [contradiction |].
  inversion Hnd as [| ? ? Hk Hd]. subst.
  destruct Hin as [E | Hin].
  - injection E as -> ->. rewrite String.eqb_refl. reflexivity.
  - destruct (String.eqb_spec k k') as [-> | Hne].
    + exfalso. apply Hk. unfold keys. apply in_map_iff.
      exists (k', v). split; [reflexivity | exact Hin].
    + apply IH; assumption.
Qed.

Lemma dict_set_map {V : Type} (k : string) (v : V) (d : dict V) :
  In k (keys d) ->
  NoDup (keys d) ->
  dict_set k v d =
  map (fun kv => (fst kv, if String.eqb (fst kv) k then v else snd kv)) d.
Proof.
  induction d as [| [k' v'] d IH]; simpl; intros Hin Hnd; [contradiction |].
  inversion Hnd as [| ? ? Hk Hd]. subst.
  destruct (String.eqb_spec k k') as [-> | Hne].
  - rewrite String.eqb_refl. f_equal.
    rewrite <- (map_id d) at 1. apply map_ext_in. intros [k0 v0] H0. simpl.
    destruct (String.eqb_spec k0 k') as [-> | _]; [| reflexivity].
    exfalso. apply Hk. unfold keys. apply in_map_iff.
    exists (k', v0). split; [reflexivity | exact H0].
  - destruct (String.eqb_spec k' k) as [E | _]; [congruence |].
    f_equal. apply IH; [| exact Hd].
    destruct Hin as [E | Hin]; [congruence | exact Hin].
Qed.

Lemma keys_after_eda (keywords : list string) (d : dict DataFrame) :
  keys (after_eda keywords d) = keys d.
Proof.
  unfold keys, after_eda. rewrite map_map. reflexivity.
Qed.

Lemma eda_keyword_store (kw : string) (d d1 : dict DataFrame)
    (ws : list widget) :
  NoDup (keys d) ->
  eda_keyword kw d = Ok (d1, ws) ->
  d1 = after_eda [kw] d.
Proof.
  intros Hnd H. unfold eda_keyword in H.
  destruct (empty (dict_get d kw empty_frame)) eqn:He.
  - injection H as <- _. unfold after_eda.
    rewrite <- (map_id d) at 1. apply map_ext_in. intros [k df] Hin. simpl.
    rewrite orb_false_r.
    destruct (String.eqb_spec k kw) as [-> | _]; [| reflexivity].
    unfold dict_get in He. rewrite (assoc_NoDup _ _ _ Hnd Hin) in He.
    rewrite He. reflexivity.
  - apply bind_Ok in H. destruct H as [lp [Hl H]].
    apply bind_Ok in H. destruct H as [lp' [_ H]].
    apply bind_Ok in H. destruct H as [mall [_ H]].
    apply bind_Ok in H. destruct H as [counts [_ H]].
    injection H as <- _.
    unfold dict_get in *.
    destruct (assoc kw d) as [df |] eqn:Ea; [| discriminate He].
    rewrite dict_set_map; [| | exact Hnd].
    + unfold after_eda. apply map_ext_in. intros [k df'] Hin. simpl.
      rewrite orb_false_r.
      destruct (String.eqb_spec k kw) as [-> | _]; [| reflexivity].
      rewrite (assoc_NoDup _ _ _ Hnd Hin) in Ea. injection Ea as ->.
      rewrite He. simpl. unfold coerce_prices. rewrite Hl. reflexivity.
    + apply assoc_In in Ea. unfold keys. apply in_map_iff.
      exists (kw, df). split; [reflexivity | exact Ea].
Qed.

Lemma after_eda_compose (kw : string) (keywords : list string)
    (d : dict DataFrame) :
  Forall (fun kv => rectangular (snd kv)) d ->
  after_eda keywords (after_eda [kw] d) = after_eda (kw :: keywords) d.
Proof.
  intros Hrect. unfold after_eda. rewrite map_map.
  apply map_ext_in. intros [k df] Hin. simpl. rewrite orb_false_r.
  rewrite Forall_forall in Hrect. pose proof (Hrect _ Hin) as Hr. simpl in Hr.
  f_equal.
  destruct (String.eqb k kw); simpl.
  - destruct (empty df) eqn:He; simpl.
    + rewrite He, andb_false_r. reflexivity.
    + rewrite coerce_prices_empty, He, coerce_prices_idempotent by exact Hr.
      destruct (mem k keywords); reflexivity.
  - reflexivity.
Qed.

Lemma after_eda_rectangular (keywords : list string) (d : dict DataFrame) :
  Forall (fun kv => rectangular (snd kv)) d ->
  Forall (fun kv => rectangular (snd kv)) (after_eda keywords d).
Proof.
  intros H. unfold after_eda. apply Forall_map.
  eapply Forall_impl; [| exact H]. intros [k df] Hr. simpl in *.
  destruct (mem k keywords && negb (empty df));
    [apply coerce_prices_rectangular |]; exact Hr.
Qed.

Lemma tab_eda_store (keywords : list string) :
  forall d d' ws,
    NoDup (keys d) ->
    Forall (fun kv => rectangular (snd kv)) d ->
    tab_eda keywords d = Ok (d', ws) ->
    d' = after_eda keywords d.
Proof.
  induction keywords as [| kw kws IH]; intros d d' ws Hnd Hrect H; simpl in H.
  - injection H as <- _. unfold after_eda.
    rewrite <- (map_id d) at 1. apply map_ext. intros [k df]. reflexivity.
  - apply bind_Ok in H. destruct H as [[d1 ws1] [H1 H]].
    apply bind_Ok in H. destruct H as [[d2 ws2] [H2 H]].
    injection H as <- _.
    apply (eda_keyword_store _ _ _ _ Hnd) in H1. subst d1.
    apply IH in H2.
    + rewrite H2. apply after_eda_compose, Hrect.
    + rewrite keys_after_eda. exact Hnd.
    + apply after_eda_rectangular, Hrect.
Qed.

Lemma fetch_search_results_rectangular (r : response) (df : DataFrame) :
  fetch_search_results r = Ok df -> rectangular df.
Proof.
  unfold fetch_search_results.
  destruct (status_code r =? 200)%Z.
  - intros H. apply bind_Ok in H. destruct H as [data [_ H]].
    apply bind_Ok in H. destruct H as [items [_ H]].
    destruct items; simpl in H; try discriminate.
    + injection H as <-. constructor.
    + apply bind_Ok in H. destruct H as [rs [_ H]]. injection H as <-.
      apply DataFrame_of_records_rectangular.
  - intros H. injection H as <-. constructor.
Qed.

Lemma dict_set_Forall {V : Type} (P : string * V -> Prop) (k : string) (v : V)
    (d : dict V) :
  (forall k', P (k', v)) -> Forall P d -> Forall P (dict_set k v d).
Proof.
  intros Hv. induction 1 as [| [k' v'] d Hx Hd IH]; simpl.
  - repeat constructor. apply Hv.
  - destruct (String.eqb k k'); constructor; try assumption. apply Hv.
Qed.

Lemma search_all_rectangular (net : network) (kind : string)
    (kws : list string) :
  forall i d d',
    Forall (fun kv => rectangular (snd kv)) d ->
    search_all net kind i kws d = Ok d' ->
    Forall (fun kv => rectangular (snd kv)) d'.
Proof.
  induction kws as [| k kws IH]; intros i d d' Hd H; simpl in H.
  - injection H as <-. exact Hd.
  - apply bind_Ok in H. destruct H as [df [Hdf H]].
    apply (IH _ _ _ (dict_set_Forall _ k df d
                       (fun _ => fetch_search_results_rectangular _ _ Hdf) Hd) H).
Qed.

Lemma collect_rectangular (net : network) (keywords : list string)
    (c : collected) :
  collect net keywords = Ok c ->
  Forall (fun kv => rectangular (snd kv)) (blog_dfs c) /\
  Forall (fun kv => rectangular (snd kv)) (shop_dfs c).
Proof.
  unfold collect. intros H.
  apply bind_Ok in H. destruct H as [t [_ H]].
  apply bind_Ok in H. destruct H as [b [Hb H]].
  apply bind_Ok in H. destruct H as [s [Hs H]].
  injection H as <-. simpl. split.
  - apply (search_all_rectangular _ _ _ _ _ _ (Forall_nil _) Hb).
  - apply (search_all_rectangular _ _ _ _ _ _ (Forall_nil _) Hs).
Qed.

Lemma mem_In (k : string) (l : list string) : In k l -> mem k l = true.
Proof.
  intros H. unfold mem. apply existsb_exists. exists k.
  split; [exact H | apply String.eqb_refl].
Qed.

Lemma assoc_map_values {V W : Type} (f : V -> W) (k : string) (d : dict V) :
  assoc k (map (fun kv => (fst kv, f (snd kv))) d) = option_map f (assoc k d).
Proof.
  induction d as [| [k' v] d IH]; simpl; [reflexivity |].
  destruct (String.eqb k k'); [reflexivity | exact IH].
Qed.

Lemma tab_eda_collected (net : network) (keywords : list string)
    (c : collected) (shop_dfs' : dict DataFrame) (ws : list widget) :
  collect net keywords = Ok c ->
  tab_eda keywords (shop_dfs c) = Ok (shop_dfs', ws) ->
  shop_dfs' = map (fun kv => (fst kv, coerce_prices (snd kv))) (shop_dfs c).
Proof.
  intros Hc He.
  destruct (collect_keys _ _ _ Hc) as [_ Hk].
  destruct (collect_rectangular _ _ _ Hc) as [_ Hr].
  assert (Hnd : NoDup (keys (shop_dfs c))) by (rewrite Hk; apply NoDup_unique).
  rewrite (tab_eda_store _ _ _ _ Hnd Hr He).
  unfold after_eda. apply map_ext_in. intros [k df] Hin. simpl.
  assert (Hm : mem k keywords = true).
  { apply mem_In, In_unique. rewrite <- Hk. unfold keys. apply in_map_iff.
    exists (k, df). split; [reflexivity | exact Hin]. }
  rewrite Hm. simpl. destruct (empty df) eqn:Ee; simpl; [| reflexivity].
  rewrite (coerce_prices_of_empty df Ee). reflexivity.
Qed.

(** X14: when the statistics tab has run over the collected shop result
    set, the store holds, under the same keys in the same order, every
    frame with its price column coerced and nothing else changed; so the
    frame any later step reads for a keyword is the coerced one. *)
Theorem eda_store (net : network) (keywords : list string) (c : collected)
    (shop_dfs' : dict DataFrame) (ws : list widget) :
  collect net keywords = Ok c ->
  tab_eda keywords (shop_dfs c) = Ok (shop_dfs', ws) ->
  shop_dfs' = map (fun kv => (fst kv, coerce_prices (snd kv))) (shop_dfs c) /\
  keys shop_dfs' = keys (shop_dfs c) /\
  (forall kw df,
     dict_getitem (shop_dfs c) kw = Ok df ->
     dict_getitem shop_dfs' kw = Ok (coerce_prices df)).
Proof.
  intros Hc He.
  pose proof (tab_eda_collected _ _ _ _ _ Hc He) as E.
  split; [exact E |]. split.
  - rewrite E. unfold keys. rewrite map_map. reflexivity.
  - intros kw df H. rewrite E. unfold dict_getitem in *.
    rewrite assoc_map_values.
    destruct (assoc kw (shop_dfs c)) as [df0 |]; [| discriminate].
    injection H as ->. reflexivity.
Qed.

Lemma eda_store_witness :
  exists c shop_dfs' ws,
    collect sample_net ["omega3"] = Ok c /\
    tab_eda ["omega3"] (shop_dfs c) = Ok (shop_dfs', ws) /\
    shop_dfs' = map (fun kv => (fst kv, coerce_prices (snd kv))) (shop_dfs c).
Proof.
  eexists. eexists. eexists.
  split; [reflexivity |]. split; [vm_compute; reflexivity |].
  destruct (eda_store sample_net ["omega3"] _ _ _ eq_refl eq_refl) as [H _].
  exact H.
Defined.

(** ** The chart tab reads the coerced store *)

Lemma replace_nth_comm {A : Type} (i j : nat) (x y : A) (l : list A) :
  i <> j ->
  replace_nth j y (replace_nth i x l) = replace_nth i x (replace_nth j y l).
Proof.
  revert i j. induction l as [| z l IH]; intros [| i] [| j] H; simpl;
    try reflexivity; try lia.
  rewrite IH by lia. reflexivity.
Qed.

Lemma replace_nth_app {A : Type} (i : nat) (x : A) (l m : list A) :
  i < length l -> replace_nth i x (l ++ m) = replace_nth i x l ++ m.
Proof.
  revert i. induction l as [| z l IH]; intros [| i] H; simpl in *; try lia.
  - reflexivity.
  - rewrite IH by lia. reflexivity.
Qed.

Lemma zip_with_nil_r {A B C : Type} (f : A -> B -> C) (l : list A) :
  zip_with f l [] = [].
Proof. destruct l; reflexivity. Qed.

Lemma zip_with_swap {A B C : Type} (f : A -> B -> A) (g : A -> C -> A)
    (P : A -> Prop) (rs : list A) :
  Forall P rs ->
  (forall r b c, P r -> f (g r c) b = g (f r b) c) ->
  forall bs cs,
    zip_with f (zip_with g rs cs) bs = zip_with g (zip_with f rs bs) cs.
Proof.
  intros H Hfg. induction H as [| r rs Hr _ IH]; intros bs cs.
  - reflexivity.
  - destruct cs as [| c cs]; [simpl; rewrite zip_with_nil_r; reflexivity |].
    destruct bs as [| b bs]; [reflexivity |].
    simpl. rewrite Hfg by exact Hr. rewrite IH. reflexivity.
Qed.

Lemma set_column_comm (df : DataFrame) (c k : string) (i : nat)
    (v w : list cell) :
  rectangular df ->
  index_of c (columns df) = Some i ->
  c <> k ->
  set_column (set_column df c v) k w = set_column (set_column df k w) c v.
Proof.
  unfold rectangular. intros Hrect Hi Hne. unfold set_column at 2.
  rewrite Hi. unfold set_column at 1. cbn [columns rows].
  unfold set_column at 2.
  destruct (index_of k (columns df)) as [j |] eqn:Hj.
  - unfold set_column. cbn [columns rows]. rewrite Hi. f_equal.
    apply (zip_with_swap _ _ (fun _ => True)).
    + apply Forall_forall. intros; exact I.
    + intros r b a _. apply replace_nth_comm.
      apply (index_of_distinct c k _ i j Hne Hi Hj).
  - unfold set_column. cbn [columns rows].
    rewrite (index_of_app_l c _ [k] i Hi). f_equal.
    apply (zip_with_swap _ _ (fun r => length r = length (columns df))).
    + exact Hrect.
    + intros r b a Hr. symmetry. apply replace_nth_app.
      rewrite Hr. apply (index_of_lt _ _ _ Hi).
Qed.

Lemma set_column_idempotent (df : DataFrame) (c : string) (i : nat)
    (v : list cell) :
  index_of c (columns df) = Some i ->
  set_column (set_column df c v) c v = set_column df c v.
Proof.
  intros Hi. unfold set_column. rewrite Hi. cbn [columns rows].
  rewrite Hi, zip_replace_idempotent. reflexivity.
Qed.

Lemma map_const_length {A B C : Type} (x : C) (l : list A) (m : list B) :
  length l = length m -> map (fun _ => x) l = map (fun _ => x) m.
Proof.
  revert m. induction l as [| a l IH]; intros [| b m] H; simpl in *;
    try discriminate; [reflexivity |].
  rewrite (IH m) by lia. reflexivity.
Qed.

Lemma set_column_columns_index (df : DataFrame) (c k : string) (i : nat)
    (w : list cell) :
  index_of c (columns df) = Some i ->
  index_of c (columns (set_column df k w)) = Some i.
Proof.
  intros Hi. unfold set_column.
  destruct (index_of k (columns df)); cbn [columns];
    [exact Hi | apply index_of_app_l, Hi].
Qed.

Lemma coerced_view (df : DataFrame) (xs : list cell) :
  rectangular df ->
  length xs = length (rows df) ->
  (lprice <- column (set_column (coerce_prices df) "keyword" xs) "lprice" ;;
   Ok (set_column (set_column (coerce_prices df) "keyword" xs) "lprice"
         (to_numeric lprice))) =
  (lprice <- column (set_column df "keyword" xs) "lprice" ;;
   Ok (set_column (set_column df "keyword" xs) "lprice" (to_numeric lprice))).
Proof.
  intros Hrect Hxs.
  destruct (coerce_prices_cases df)
    as [[e [_ Hc]] | [i [lp [Hi [Hl [Hlen Hc]]]]]]; [rewrite Hc; reflexivity |].
  assert (Hset : coerce_prices df = set_column df "lprice" (to_numeric lp))
    by (unfold coerce_prices; rewrite Hl; reflexivity).
  assert (Hrows : length (rows (coerce_prices df)) = length (rows df))
    by (rewrite Hset, set_column_rows; lia).
  rewrite (column_set_column_other (coerce_prices df) "keyword" "lprice" xs)
    by (try apply coerce_prices_rectangular; try discriminate; try assumption;
        lia).
  rewrite (column_set_column_other df "keyword" "lprice" xs)
    by (try discriminate; assumption).
  rewrite Hl.
  rewrite Hset at 1.
  rewrite (column_set_column_same df "lprice" (to_numeric lp) Hrect Hlen).
  simpl. rewrite to_numeric_idempotent. f_equal.
  rewrite Hset.
  rewrite (set_column_comm df "lprice" "keyword" i _ _ Hrect Hi)
    by discriminate.
  apply (set_column_idempotent _ "lprice" i).
  apply set_column_columns_index, Hi.
Qed.

Lemma shop_view_coerce_prices (kw : string) (df : DataFrame) :
  rectangular df -> shop_view kw (coerce_prices df) = shop_view kw df.
Proof.
  intros Hrect.
  assert (Hrows : length (rows (coerce_prices df)) = length (rows df)).
  { destruct (coerce_prices_cases df)
      as [[e [_ Hc]] | [i [lp [_ [_ [Hlen Hc]]]]]]; rewrite Hc; [reflexivity |].
    simpl. rewrite zip_with_length. lia. }
  unfold shop_view, set_column_scalar.
  rewrite (map_const_length (C := cell) (JStr kw) _ _ Hrows).
  apply coerced_view; [exact Hrect | apply length_map].
Qed.

Lemma all_shop_data_coerce_prices (d : dict DataFrame) :
  Forall (fun kv => rectangular (snd kv)) d ->
  all_shop_data (map (fun kv => (fst kv, coerce_prices (snd kv))) d) =
  all_shop_data d.
Proof.
  induction 1 as [| [kw df] d Hr _ IH]; simpl; [reflexivity |].
  simpl in Hr. rewrite coerce_prices_empty, IH.
  rewrite (shop_view_coerce_prices kw df Hr). reflexivity.
Qed.

(** X15: the chart tab computes the same from the store the statistics
    tab has overwritten as from the fetched result set: it coerces its own
    copies, and coercing twice changes nothing. *)
Theorem viz_unaffected_by_eda
    (fit_transform : list string -> result (list string * list (list Q)))
    (net : network) (keywords : list string) (c : collected)
    (shop_dfs' : dict DataFrame) (ws : list widget) :
  collect net keywords = Ok c ->
  tab_eda keywords (shop_dfs c) = Ok (shop_dfs', ws) ->
  all_shop_data shop_dfs' = all_shop_data (shop_dfs c) /\
  tab_viz fit_transform keywords (blog_dfs c) shop_dfs' =
  tab_viz fit_transform keywords (blog_dfs c) (shop_dfs c).
Proof.
  intros Hc He.
  rewrite (tab_eda_collected _ _ _ _ _ Hc He).
  destruct (collect_rectangular _ _ _ Hc) as [_ Hr].
  pose proof (all_shop_data_coerce_prices _ Hr) as H.
  split; [exact H |]. unfold tab_viz. rewrite H. reflexivity.
Qed.

Lemma viz_unaffected_by_eda_witness :
  exists c shop_dfs' ws,
    collect sample_net ["omega3"] = Ok c /\
    tab_eda ["omega3"] (shop_dfs c) = Ok (shop_dfs', ws) /\
    tab_viz sample_fit ["omega3"] (blog_dfs c) shop_dfs' =
    tab_viz sample_fit ["omega3"] (blog_dfs c) (shop_dfs c).
Proof.
  eexists. eexists. eexists.
  split; [reflexivity |]. split; [vm_compute; reflexivity |].
  destruct (viz_unaffected_by_eda sample_fit sample_net ["omega3"] _ _ _
              eq_refl eq_refl) as [_ H].
  exact H.
Defined.

(** ** The combined view *)

Lemma column_concat_frames (dfs : list DataFrame) (c : string) :
  In c (flat_map columns dfs) ->
  column (concat_frames dfs) c =
  Ok (flat_map
        (fun df =>
           map (fun r => match index_of c (columns df) with
                         | Some j => nth j r JNull
                         | None => JNull
                         end)
               (rows df))
        dfs).
Proof.
  intros Hin. unfold column, concat_frames. cbn [columns rows].
  destruct (index_of_In c (unique (flat_map columns dfs)))
    as [i Hi]; [apply In_unique, Hin |].
  rewrite Hi. apply f_equal.
  generalize dependent (unique (flat_map columns dfs)). intros cols Hi.
  clear Hin. induction dfs as [| df dfs IH]; [reflexivity |].
  cbn [flat_map]. rewrite map_app, IH. f_equal.
  rewrite map_map. apply map_ext. intros r.
  apply (nth_map_index_of
           (fun c0 => match index_of c0 (columns df) with
                      | Some j => nth j r JNull
                      | None => JNull
                      end) JNull c cols i Hi).
Qed.

Lemma column_Ok_index (df : DataFrame) (c : string) (col : list cell) :
  column df c = Ok col ->
  In c (columns df) /\
  map (fun r => match index_of c (columns df) with
                | Some j => nth j r JNull
                | None => JNull
                end) (rows df) = col.
Proof.
  unfold column. destruct (index_of c (columns df)) as [j |] eqn:E;
    [| discriminate].
  intros H. injection H as <-. split; [| reflexivity].
  apply index_of_nth_error in E. apply (nth_error_In _ _ E).
Qed.

Lemma view_columns (df : DataFrame) (xs lp : list cell) :
  rectangular df ->
  length xs = length (rows df) ->
  column (set_column df "keyword" xs) "lprice" = Ok lp ->
  column (set_column (set_column df "keyword" xs) "lprice" (to_numeric lp))
         "keyword" = Ok xs /\
  column (set_column (set_column df "keyword" xs) "lprice" (to_numeric lp))
         "lprice" = Ok (prices_of df).
Proof.
  intros Hrect Hxs Hl.
  pose proof (set_column_rectangular df "keyword" xs Hrect) as Hrect'.
  pose proof (column_length _ _ _ Hl) as Hlen.
  assert (Hlen' : length (to_numeric lp) =
                  length (rows (set_column df "keyword" xs)))
    by (rewrite to_numeric_length; exact Hlen).
  split.
  - rewrite column_set_column_other by (try discriminate; assumption).
    apply column_set_column_same; assumption.
  - rewrite column_set_column_same by assumption.
    rewrite column_set_column_other in Hl by (try discriminate; assumption).
    unfold prices_of. rewrite Hl. reflexivity.
Qed.

Lemma shop_view_columns (kw : string) (df tdf : DataFrame) :
  rectangular df ->
  shop_view kw df = Ok tdf ->
  column tdf "keyword" = Ok (map (fun _ => JStr kw) (rows df)) /\
  column tdf "lprice" = Ok (prices_of df).
Proof.
  intros Hrect H. unfold shop_view, set_column_scalar in H.
  apply bind_Ok in H. destruct H as [lp [Hl H]]. injection H as <-.
  apply view_columns; [exact Hrect | apply length_map | exact Hl].
Qed.

Lemma all_shop_data_columns (d : dict DataFrame) :
  Forall (fun kv => rectangular (snd kv)) d ->
  forall frames,
    all_shop_data d = Ok frames ->
    Forall (fun tdf => In "keyword" (columns tdf) /\ In "lprice" (columns tdf))
           frames /\
    flat_map
      (fun df =>
         map (fun r => match index_of "keyword" (columns df) with
                       | Some j => nth j r JNull
                       | None => JNull
                       end) (rows df)) frames
    = flat_map keyword_cells d /\
    flat_map
      (fun df =>
         map (fun r => match index_of "lprice" (columns df) with
                       | Some j => nth j r JNull
                       | None => JNull
                       end) (rows df)) frames
    = flat_map price_cells d.
Proof.
  induction 1 as [| [kw df] d Hr _ IH]; intros frames H; simpl in H.
  - injection H as <-. repeat split. constructor.
  - unfold keyword_cells at 1, price_cells at 1. cbn [flat_map fst snd].
    simpl in Hr. destruct (empty df).
    + apply IH, H.
    + apply bind_Ok in H. destruct H as [tdf [Ht H]].
      apply bind_Ok in H. destruct H as [rest [Hrest H]].
      injection H as <-.
      destruct (IH rest Hrest) as [Hcols [Hk Hp]].
      destruct (shop_view_columns kw df tdf Hr Ht) as [Ck Cp].
      apply column_Ok_index in Ck, Cp.
      destruct Ck as [Ik Ek], Cp as [Ip Ep].
      split; [constructor; [split; assumption | exact Hcols] |].
      cbn [flat_map]. rewrite Ek, Ep, Hk, Hp. split; reflexivity.
Qed.

Lemma concat_view_columns (d : dict DataFrame) (f : DataFrame)
    (fs : list DataFrame) :
  Forall (fun kv => rectangular (snd kv)) d ->
  all_shop_data d = Ok (f :: fs) ->
  column (concat_frames (f :: fs)) "keyword" = Ok (flat_map keyword_cells d) /\
  column (concat_frames (f :: fs)) "lprice" = Ok (flat_map price_cells d).
Proof.
  intros Hrect H.
  destruct (all_shop_data_columns d Hrect _ H) as [Hcols [Hk Hp]].
  inversion Hcols as [| ? ? [Ik Ip] _]. subst.
  split.
  - rewrite column_concat_frames, Hk; [reflexivity |].
    simpl. apply in_or_app. left. exact Ik.
  - rewrite column_concat_frames, Hp; [reflexivity |].
    simpl. apply in_or_app. left. exact Ip.
Qed.

(** X16: every row of the combined view is traceable to its keyword: when
    some shop frame is not empty, the keyword column of the combined view
    holds, frame after frame in the order of the store, the frame's keyword
    once per row, and the price column holds the frame's coerced prices in
    the same positions. *)
Theorem combined_view_columns (d : dict DataFrame) (frames : list DataFrame) :
  Forall (fun kv => rectangular (snd kv)) d ->
  all_shop_data d = Ok frames ->
  frames <> [] ->
  column (concat_frames frames) "keyword" = Ok (flat_map keyword_cells d) /\
  column (concat_frames frames) "lprice" = Ok (flat_map price_cells d).
Proof.
  intros Hrect H Hne.
  destruct frames as [| f fs]; [contradiction |].
  apply concat_view_columns; assumption.
Qed.

Lemma combined_view_columns_witness :
  exists frames,
    all_shop_data [("omega3", sample_shop_frame); ("zinc", empty_frame)]
      = Ok frames /\
    column (concat_frames frames) "keyword" =
      Ok [JStr "omega3"; JStr "omega3"; JStr "omega3"] /\
    column (concat_frames frames) "lprice" =
      Ok [JNum 12000; JNull; JNum 8000].
Proof.
  eexists. split; [reflexivity |].
  apply (combined_view_columns
           [("omega3", sample_shop_frame); ("zinc", empty_frame)]).
  - repeat constructor.
  - reflexivity.
  - discriminate.
Defined.

(** ** The mean price per keyword *)

Lemma combine_app_same {A B : Type} (a1 a2 : list A) (b1 b2 : list B) :
  length a1 = length b1 ->
  combine (a1 ++ a2) (b1 ++ b2) = combine a1 b1 ++ combine a2 b2.
Proof.
  revert b1. induction a1 as [| x a1 IH]; intros [| y b1] H; simpl in *;
    try discriminate; [reflexivity |].
  rewrite IH by lia. reflexivity.
Qed.

Lemma group_app (k : string) (a1 a2 b1 b2 : list cell) :
  length a1 = length b1 ->
  group k (a1 ++ a2) (b1 ++ b2) = group k a1 b1 ++ group k a2 b2.
Proof.
  intros H. unfold group. rewrite combine_app_same by exact H.
  apply flat_map_app.
Qed.

Lemma group_constant (k kw : string) (rs : list (list cell)) :
  forall values,
    length values = length rs ->
    group k (map (fun _ => JStr kw) rs) values =
    if String.eqb k kw then values else [].
Proof.
  unfold group. induction rs as [| r rs IH]; intros [| v vs] H; simpl in *;
    try discriminate.
  - destruct (String.eqb k kw); reflexivity.
  - rewrite IH by lia. destruct (String.eqb k kw); reflexivity.
Qed.

Lemma all_shop_data_prices (d : dict DataFrame) :
  Forall (fun kv => rectangular (snd kv)) d ->
  forall frames,
    all_shop_data d = Ok frames ->
    Forall (fun kv => length (price_cells kv) = length (keyword_cells kv)) d.
Proof.
  induction 1 as [| [kw df] d Hr _ IH]; intros frames H; simpl in H.
  - constructor.
  - simpl in Hr. unfold price_cells, keyword_cells.
    destruct (empty df) eqn:He.
    + constructor; [simpl; rewrite He; reflexivity | apply (IH _ H)].
    + apply bind_Ok in H. destruct H as [tdf [Ht H]].
      apply bind_Ok in H. destruct H as [rest [Hrest _]].
      constructor; [| apply (IH _ Hrest)].
      simpl. rewrite He.
      destruct (shop_view_columns kw df tdf Hr Ht) as [Ck Cp].
      apply column_length in Ck, Cp. rewrite Cp. symmetry. exact Ck.
Qed.

Lemma group_combined (k : string) (d : dict DataFrame) :
  Forall (fun kv => length (price_cells kv) = length (keyword_cells kv)) d ->
  group k (flat_map keyword_cells d) (flat_map price_cells d) =
  flat_map (fun kv => if String.eqb k (fst kv) then price_cells kv else []) d.
Proof.
  induction 1 as [| [kw df] d Hlen _ IH]; [reflexivity |].
  cbn [flat_map fst]. rewrite group_app by (symmetry; exact Hlen).
  rewrite IH. f_equal.
  unfold keyword_cells, price_cells in *. cbn [fst snd] in *.
  destruct (empty df).
  - destruct (String.eqb k kw); reflexivity.
  - apply group_constant. rewrite Hlen. apply length_map.
Qed.

Lemma flat_map_select {V B : Type} (f : string * V -> list B) (k : string)
    (d : dict V) :
  NoDup (keys d) ->
  flat_map (fun kv => if String.eqb k (fst kv) then f kv else []) d =
  match assoc k d with
  | Some v => f (k, v)
  | None => []
  end.
Proof.
  induction d as [| [k' v] d IH]; simpl; intros Hnd; [reflexivity |].
  inversion Hnd as [| ? ? Hk Hd]. subst.
  destruct (String.eqb_spec k k') as [-> | Hne].
  - rewrite <- app_nil_r. f_equal.
    rewrite (IH Hd).
    destruct (assoc k' d) as [v' |] eqn:E; [| reflexivity].
    exfalso. apply Hk. apply assoc_In in E. unfold keys.
    apply in_map_iff. exists (k', v'). split; [reflexivity | exact E].
  - apply IH, Hd.
Qed.

Lemma labels_app (a b : list cell) : labels (a ++ b) = labels a ++ labels b.
Proof. apply flat_map_app. Qed.

Lemma labels_constant (kw : string) (rs : list (list cell)) :
  labels (map (fun _ => JStr kw) rs) = map (fun _ => kw) rs.
Proof.
  unfold labels. induction rs as [| r rs IH]; simpl; [reflexivity |].
  f_equal. exact IH.
Qed.

Lemma labels_keyword_cells (d : dict DataFrame) (x : string) :
  In x (labels (flat_map keyword_cells d)) -> In x (keys d).
Proof.
  induction d as [| [kw df] d IH]; simpl; [tauto |].
  rewrite labels_app, in_app_iff. intros [H | H]; [| right; apply IH, H].
  left. unfold keyword_cells in H. simpl in H.
  destruct (empty df); [contradiction |].
  rewrite labels_constant in H. apply in_map_iff in H.
  destruct H as [_ [E _]]. exact E.
Qed.

Lemma unique_filter (f : string -> bool) (l : list string) :
  filter f (unique l) = unique (filter f l).
Proof.
  induction l as [| x l IH]; simpl; [reflexivity |].
  destruct (f x) eqn:Ex; simpl.
  - rewrite <- IH, !filter_filter. f_equal. apply filter_ext.
    intros y. apply andb_comm.
  - rewrite <- IH, filter_filter. apply filter_ext. intros y.
    destruct (String.eqb_spec x y) as [<- | _]; simpl;
      [rewrite Ex |]; reflexivity.
Qed.

Lemma filter_absent (k : string) (l : list string) :
  ~ In k l -> filter (fun y => negb (String.eqb k y)) l = l.
Proof.
  induction l as [| x l IH]; simpl; intros H; [reflexivity |].
  destruct (String.eqb_spec k x) as [-> | _]; simpl.
  - exfalso. apply H. left. reflexivity.
  - rewrite IH; [reflexivity | tauto].
Qed.

Lemma filter_constant (k : string) {A : Type} (rs : list A) :
  filter (fun y => negb (String.eqb k y)) (map (fun _ => k) rs) = [].
Proof.
  induction rs as [| r rs IH]; simpl; [reflexivity |].
  rewrite String.eqb_refl. exact IH.
Qed.

Lemma unique_keyword_cells (d : dict DataFrame) :
  NoDup (keys d) ->
  unique (labels (flat_map keyword_cells d)) = nonempty_keys d.
Proof.
  unfold nonempty_keys.
  induction d as [| [kw df] d IH]; simpl; intros Hnd; [reflexivity |].
  inversion Hnd as [| ? ? Hk Hd]. subst.
  rewrite labels_app. unfold keyword_cells at 1. cbn [fst snd].
  destruct (empty df) eqn:He; simpl; [apply IH, Hd |].
  rewrite labels_constant.
  destruct (rows df) as [| r rs] eqn:Er.
  - unfold empty in He. rewrite Er in He. destruct (columns df); discriminate.
  - simpl. f_equal. rewrite unique_filter, filter_app, filter_constant.
    simpl. rewrite filter_absent; [apply IH, Hd |].
    intros H. apply Hk, labels_keyword_cells, H.
Qed.

Lemma nonempty_keys_frame (d : dict DataFrame) (k : string) :
  NoDup (keys d) ->
  In k (nonempty_keys d) ->
  exists df, assoc k d = Some df /\ empty df = false.
Proof.
  unfold nonempty_keys. intros Hnd H. apply in_map_iff in H.
  destruct H as [[k' df] [E H]]. simpl in E. subst k'.
  apply filter_In in H. destruct H as [Hin He].
  exists df. split; [apply assoc_NoDup; assumption |].
  simpl in He. destruct (empty df); [discriminate | reflexivity].
Qed.

(** X17: the mean-price chart has one bar per keyword whose shop frame is
    not empty, the keywords in ascending order, and the height of a
    keyword's bar is the mean of that keyword's own coerced prices, missing
    prices left out (no bar height when it has no numeric price). *)
Theorem mean_price_bar
    (fit_transform : list string -> result (list string * list (list Q)))
    (keywords : list string) (blog_dfs d : dict DataFrame)
    (combined_shop : DataFrame) (ws : list widget) :
  Forall (fun kv => rectangular (snd kv)) d ->
  NoDup (keys d) ->
  tab_viz fit_transform keywords blog_dfs d = Ok (Some combined_shop, ws) ->
  In (avg_price_bar
        (map (fun k => (k, series_mean (prices_of (dict_get d k empty_frame))))
             (sort_by String.leb (nonempty_keys d))))
     ws.
Proof.
  intros Hrect Hnd H. unfold tab_viz in H.
  apply bind_Ok in H. destruct H as [frames [Hf H]].
  destruct frames as [| f fs]; [discriminate H |].
  destruct (concat_view_columns d f fs Hrect Hf) as [Ck Cp].
  rewrite Ck, Cp in H. simpl in H.
  apply bind_Ok in H. destruct H as [words [_ H]].
  apply bind_Ok in H. destruct H as [mall [_ H]].
  apply bind_Ok in H. destruct H as [counts [_ H]].
  injection H as _ <-. right. left. f_equal.
  unfold groupby_mean. rewrite (unique_keyword_cells d Hnd).
  apply map_ext_in. intros k Hk. f_equal. f_equal.
  apply In_sort_by in Hk.
  destruct (nonempty_keys_frame d k Hnd Hk) as [df [Ha He]].
  rewrite (group_combined k d (all_shop_data_prices d Hrect _ Hf)).
  rewrite (flat_map_select price_cells k d Hnd).
  unfold dict_get. rewrite Ha. unfold price_cells. simpl. rewrite He.
  reflexivity.
Qed.

Lemma mean_price_bar_witness :
  exists combined_shop ws,
    tab_viz sample_fit ["omega3"] [("omega3", sample_blog_frame)]
            [("omega3", sample_shop_frame); ("zinc", empty_frame)]
      = Ok (Some combined_shop, ws) /\
    In (avg_price_bar [("omega3", Some (20000 # 2)%Q)]) ws.
Proof.
  eexists. eexists. split; [vm_compute; reflexivity |].
  eapply (mean_price_bar sample_fit ["omega3"] [("omega3", sample_blog_frame)]
            [("omega3", sample_shop_frame); ("zinc", empty_frame)]).
  - repeat constructor.
  - repeat constructor; simpl; intuition discriminate.
  - vm_compute. reflexivity.
Defined.

(** ** When the statistics tab completes *)

Lemma eda_keyword_returns_iff (kw : string) (d : dict DataFrame) :
  rectangular (dict_get d kw empty_frame) ->
  (exists r, eda_keyword kw d = Ok r) <-> eda_ready (dict_get d kw empty_frame).
Proof.
  intros Hrect. unfold eda_keyword, eda_ready.
  destruct (empty (dict_get d kw empty_frame)) eqn:He.
  - split; [intros _; left; reflexivity | intros _; eexists; reflexivity].
  - set (df := dict_get d kw empty_frame) in *. split.
    + intros [r H]. right.
      apply bind_Ok in H. destruct H as [lp [Hl H]].
      apply bind_Ok in H. destruct H as [lp' [_ H]].
      apply bind_Ok in H. destruct H as [mall [Hm H]].
      apply bind_Ok in H. destruct H as [counts [Hc _]].
      split; [exists lp; exact Hl |].
      exists mall. split.
      * rewrite column_set_column_other in Hm;
          try discriminate; try assumption.
        rewrite to_numeric_length. apply (column_length _ _ _ Hl).
      * unfold value_counts in Hc.
        destruct (forallb hashable mall); [reflexivity | discriminate].
    + intros [H | [[lp Hl] [mall [Hm Hh]]]]; [discriminate |].
      pose proof (column_length _ _ _ Hl) as Hlen.
      rewrite Hl. simpl.
      rewrite column_set_column_same;
        [| exact Hrect | rewrite to_numeric_length; exact Hlen].
      simpl.
      rewrite column_set_column_other;
        [| exact Hrect | rewrite to_numeric_length; exact Hlen | discriminate].
      rewrite Hm. simpl. unfold value_counts. rewrite Hh. simpl.
      eexists. reflexivity.
Qed.

Lemma coerce_prices_ready (df : DataFrame) :
  rectangular df -> eda_ready (coerce_prices df) <-> eda_ready df.
Proof.
  intros Hrect. unfold eda_ready. rewrite coerce_prices_empty.
  destruct (coerce_prices_cases df)
    as [[e [_ Hc]] | [i [lp [Hi [Hl [Hlen Hc]]]]]]; [rewrite Hc; reflexivity |].
  assert (Hset : coerce_prices df = set_column df "lprice" (to_numeric lp))
    by (unfold coerce_prices; rewrite Hl; reflexivity).
  rewrite Hset.
  rewrite (column_set_column_same df "lprice" _ Hrect Hlen).
  rewrite (column_set_column_other df "lprice" "mallName" _ Hrect Hlen)
    by discriminate.
  rewrite Hl. split; intros [H | [_ Hm]]; try (left; exact H);
    right; (split; [eexists; reflexivity | exact Hm]).
Qed.

Lemma dict_get_after_eda (keywords : list string) (d : dict DataFrame)
    (k : string) :
  dict_get (after_eda keywords d) k empty_frame =
    dict_get d k empty_frame \/
  dict_get (after_eda keywords d) k empty_frame =
    coerce_prices (dict_get d k empty_frame).
Proof.
  unfold dict_get, after_eda.
  induction d as [| [k' df] d IH]; simpl; [left; reflexivity |].
  destruct (String.eqb k k'); [| exact IH].
  destruct (mem k' keywords && negb (empty df)); [right | left]; reflexivity.
Qed.

Lemma dict_get_rectangular (d : dict DataFrame) (k : string) :
  Forall (fun kv => rectangular (snd kv)) d ->
  rectangular (dict_get d k empty_frame).
Proof.
  intros H. unfold dict_get. destruct (assoc k d) as [df |] eqn:E.
  - apply assoc_In in E. rewrite Forall_forall in H. apply (H _ E).
  - constructor.
Qed.

(** Over a store of distinct keys and rectangular frames, the statistics
    tab returns exactly when every keyword of the list has a frame that
    lines 137-144 can work on. *)
Lemma tab_eda_ready (keywords : list string) (d : dict DataFrame) :
  NoDup (keys d) ->
  Forall (fun kv => rectangular (snd kv)) d ->
  (exists r, tab_eda keywords d = Ok r) <->
  (forall kw, In kw keywords -> eda_ready (dict_get d kw empty_frame)).
Proof.
  revert d. induction keywords as [| kw kws IH]; intros d Hnd Hrect.
  - split; [intros _ kw [] | intros _; eexists; reflexivity].
  - pose proof (dict_get_rectangular d kw Hrect) as Hkw.
    assert (Hstep : forall d1 ws1, eda_keyword kw d = Ok (d1, ws1) ->
              NoDup (keys d1) /\
              Forall (fun kv => rectangular (snd kv)) d1 /\
              forall k, eda_ready (dict_get d1 k empty_frame) <->
                        eda_ready (dict_get d k empty_frame)).
    { intros d1 ws1 H1. apply (eda_keyword_store _ _ _ _ Hnd) in H1. subst d1.
      split; [rewrite keys_after_eda; exact Hnd |].
      split; [apply after_eda_rectangular, Hrect |].
      intros k. destruct (dict_get_after_eda [kw] d k) as [-> | ->];
        [reflexivity |].
      apply coerce_prices_ready, dict_get_rectangular, Hrect. }
    split.
    + intros [r H] k Hk. simpl in H.
      apply bind_Ok in H. destruct H as [[d1 ws1] [H1 H]].
      apply bind_Ok in H. destruct H as [[d2 ws2] [H2 _]].
      destruct (Hstep d1 ws1 H1) as [Hnd1 [Hrect1 Hready]].
      destruct Hk as [<- | Hk].
      * apply (eda_keyword_returns_iff kw d Hkw). eexists. exact H1.
      * apply Hready.
        apply (proj1 (IH d1 Hnd1 Hrect1)); [eexists; exact H2 | exact Hk].
    + intros H.
      destruct (proj2 (eda_keyword_returns_iff kw d Hkw)
                  (H kw (or_introl eq_refl))) as [[d1 ws1] H1].
      destruct (Hstep d1 ws1 H1) as [Hnd1 [Hrect1 Hready]].
      destruct (proj2 (IH d1 Hnd1 Hrect1)) as [[d2 ws2] H2].
      * intros k Hk. apply Hready, H. right. exact Hk.
      * simpl. rewrite H1. simpl. rewrite H2. simpl. eexists. reflexivity.
Qed.

Example nameless_frame_raises :
  tab_eda ["omega3"] [("omega3", nameless_shop_frame)]
  = Raise (KeyError "mallName").
Proof. reflexivity. Qed.

(** ** Frequency tables *)








(** ** Price bins *)

(** X22: when some shop frame is not empty but no row of the combined
    view has a numeric price, the bins cannot be made: the price-bin step
    raises [ValueError] and the raw-data tab shows nothing. *)
Theorem price_summary_without_prices (keywords : list string)
    (blog_dfs shop_dfs : dict DataFrame) (combined_shop : DataFrame)
    (lprice : list cell) :
  column combined_shop "lprice" = Ok lprice ->
  numbers lprice = [] ->
  price_summary (Some combined_shop) = Raise ValueError /\
  tab_raw keywords blog_dfs shop_dfs (Some combined_shop) = Raise ValueError.
Proof.
  intros Hl Hn.
  assert (H : price_summary (Some combined_shop) = Raise ValueError).
  { unfold price_summary, cut, bin_edges. rewrite Hl. simpl. rewrite Hn.
    reflexivity. }
  split; [exact H |]. unfold tab_raw. rewrite H. reflexivity.
Qed.

Lemma price_summary_without_prices_witness :
  price_summary
    (Some (mkDataFrame ["lprice"; "keyword"] [[JNull; JStr "omega3"]]))
  = Raise ValueError.
Proof.
  destruct (price_summary_without_prices [] [] []
              (mkDataFrame ["lprice"; "keyword"] [[JNull; JStr "omega3"]])
              [JNull] eq_refl eq_refl) as [H _].
  exact H.
Defined.

(** ** What the raw-data tab shows *)

(** X23: on a run that completes, the raw-data tab shows for every keyword
    its blog frame as fetched and its shop frame with the price column
    coerced: the shop frame shown is the fetched one only where coercion
    changes nothing. *)
Theorem raw_tab_frames
    (fit_transform : list string -> result (list string * list (list Q)))
    (net : network) (keywords : list string) (c : collected) (pg : page) :
  collect net keywords = Ok c ->
  search_tabs fit_transform keywords c = Ok pg ->
  forall kw shop_df blog_df,
    In kw keywords ->
    dict_getitem (shop_dfs c) kw = Ok shop_df ->
    dict_getitem (blog_dfs c) kw = Ok blog_df ->
    In (raw_shop kw (coerce_prices shop_df)) (raw pg) /\
    In (raw_blog kw blog_df) (raw pg).
Proof.
  intros Hc H kw shop_df blog_df Hkw Hs Hb. unfold search_tabs in H.
  apply bind_Ok in H. destruct H as [[d' ws] [He H]].
  apply bind_Ok in H. destruct H as [[combined viz] [_ H]].
  apply bind_Ok in H. destruct H as [raws [Hr H]].
  injection H as <-. simpl.
  unfold tab_raw in Hr.
  apply bind_Ok in Hr. destruct Hr as [summary [_ Hr]].
  apply bind_Ok in Hr. destruct Hr as [shown [Hd Hr]].
  injection Hr as <-.
  pose proof (tab_eda_collected _ _ _ _ _ Hc He) as E.
  assert (Hkeys : forall k, In k keywords ->
            In k (keys (blog_dfs c)) /\ In k (keys d')).
  { intros k Hk. destruct (collect_has_keys _ _ _ Hc k Hk) as [H1 H2].
    split; [exact H1 |]. rewrite E. unfold keys. rewrite map_map. exact H2. }
  clear He.
  rewrite (raw_data_Ok _ _ _ Hkeys) in Hd. injection Hd as <-.
  assert (Hin : forall w, In w (raw_widgets (blog_dfs c) d' kw) ->
            In w (summary ++ flat_map (raw_widgets (blog_dfs c) d') keywords)).
  { intros w Hw. apply in_or_app. right. apply in_flat_map.
    exists kw. split; assumption. }
  assert (Hshop : dict_get d' kw empty_frame = coerce_prices shop_df).
  { rewrite E. unfold dict_get, dict_getitem in *. rewrite assoc_map_values.
    destruct (assoc kw (shop_dfs c)) as [s |]; [| discriminate].
    injection Hs as ->. reflexivity. }
  assert (Hblog : dict_get (blog_dfs c) kw empty_frame = blog_df).
  { unfold dict_get, dict_getitem in *.
    destruct (assoc kw (blog_dfs c)) as [b |]; [| discriminate].
    injection Hb as ->. reflexivity. }
  split; apply Hin; unfold raw_widgets; rewrite Hshop, Hblog;
    [left | right; left]; reflexivity.
Qed.

Lemma raw_tab_frames_witness :
  exists c pg fetched,
    collect sample_net ["omega3"] = Ok c /\
    search_tabs sample_fit ["omega3"] c = Ok pg /\
    dict_getitem (shop_dfs c) "omega3" = Ok fetched /\
    In (raw_shop "omega3" (coerce_prices fetched)) (raw pg).
Proof.
  eexists. eexists. eexists.
  split; [reflexivity |]. split; [vm_compute; reflexivity |].
  split; [reflexivity |].
  refine (proj1 (raw_tab_frames sample_fit sample_net ["omega3"] _ _
                   eq_refl eq_refl "omega3" _ _ (or_introl eq_refl)
                   eq_refl eq_refl)).
Defined.
(** * The page as a whole *)

(** ** Keys of the result sets *)

(** C9: for every input string, a result set that the data collection
    builds has as keys exactly the distinct keywords of the input (split on
    commas, trimmed, empties dropped, first occurrence kept), in that order,
    each key once, the same for blog and shop; every key is a non-empty
    piece of the input without a comma and without white space at either
    end.  The collection builds a result set whenever the replies it asks
    for (the trend reply, and the blog and shop reply at each keyword
    position) can be fetched. *)
Theorem result_set_keys (net : network) (keyword_input : string) :
  (exists t,
     fetch_shopping_trend (post_trend net (parse_keywords keyword_input))
     = Ok t) ->
  (forall kind i kw,
     kind = "blog" \/ kind = "shop" ->
     nth_error (parse_keywords keyword_input) i = Some kw ->
     exists df, fetch_search_results (get_search net kind i kw) = Ok df) ->
  (exists c, collect net (parse_keywords keyword_input) = Ok c) /\
  (forall c,
     collect net (parse_keywords keyword_input) = Ok c ->
     keys (blog_dfs c) = distinct_keywords keyword_input /\
     keys (shop_dfs c) = distinct_keywords keyword_input /\
     NoDup (distinct_keywords keyword_input) /\
     length (keys (blog_dfs c)) = length (distinct_keywords keyword_input) /\
     length (keys (shop_dfs c)) = length (distinct_keywords keyword_input) /\
     (forall k, In k (keys (blog_dfs c)) <->
                In k (filter truthy (map strip (split "," keyword_input)))) /\
     (forall k, In k (keys (blog_dfs c)) ->
        k <> "" /\ ~ occurs "," k /\
        forall cp, isspace cp = true ->
          ~ starts_with (utf8 cp) k /\ ~ ends_with (utf8 cp) k)).
Proof.
  intros [t Ht] Hall. split.
  - destruct (search_all_positions net "blog" (parse_keywords keyword_input) 0 [])
      as [b Hb]; [intros j kw Hj; apply Hall; [left; reflexivity | exact Hj] |].
    destruct (search_all_positions net "shop" (parse_keywords keyword_input) 0 [])
      as [s Hs]; [intros j kw Hj; apply Hall; [right; reflexivity | exact Hj] |].
    exists (mkCollected t b s). unfold collect.
    rewrite Ht. simpl. rewrite Hb. simpl. rewrite Hs. reflexivity.
  - intros c Hc. destruct (collect_keys _ _ _ Hc) as [Kb Ks].
    unfold distinct_keywords. rewrite <- parse_keywords_spec.
    rewrite Kb, Ks.
    split; [reflexivity |]. split; [reflexivity |].
    split; [apply NoDup_unique |].
    split; [reflexivity |]. split; [reflexivity |].
    split; [intros k; apply In_unique |].
    intros k Hk. apply (proj1 (In_unique _ _)) in Hk.
    destruct (keyword_clean keyword_input k Hk) as [H1 [_ [H3 H4]]].
    split; [exact H1 |]. split; [exact H4 | exact H3].
Qed.

Lemma result_set_keys_witness :
  exists c,
    collect sample_net (parse_keywords " omega3, 젠,,젅,omega3 ") = Ok c /\
    keys (blog_dfs c) = ["omega3"; "젠"; "젅"] /\
    keys (shop_dfs c) = ["omega3"; "젠"; "젅"].
Proof.
  destruct (result_set_keys sample_net " omega3, 젠,,젅,omega3 ")
    as [[c Hc] H].
  - eexists. reflexivity.
  - intros kind i kw _ _. simpl. destruct (String.eqb kind "blog");
      eexists; reflexivity.
  - exists c. split; [exact Hc |].
    destruct (H c Hc) as [Kb [Ks _]]. split; [exact Kb | exact Ks].
Defined.

(** ** The page as drawn *)

Lemma and_then_eval {A B : Type} (m : result A) (k : A -> drawing B) :
  and_then (eval m) k =
  match m with
  | Ok a => k a
  | Raise e => ([], Raise e)
  end.
Proof.
  destruct m as [a | e]; simpl; [destruct (k a) |]; reflexivity.
Qed.

Lemma and_then_draw {B : Type} (w : widget) (k : unit -> drawing B) :
  and_then (draw w) k = (w :: fst (k tt), snd (k tt)).
Proof. simpl. destruct (k tt). reflexivity. Qed.

Lemma and_then_pair {A B : Type} (m : drawing A) (k : A -> drawing B) :
  and_then m k =
  match snd m with
  | Ok a => (fst m ++ fst (k a), snd (k a))
  | Raise e => (fst m, Raise e)
  end.
Proof.
  destruct m as [ws [a | e]]; simpl; [destruct (k a) |]; reflexivity.
Qed.


Lemma blog_words_observed
    (fit_transform : list string -> result (list string * list (list Q)))
    (blog_dfs : dict DataFrame) (keywords : list string) :
  blog_words fit_transform keywords blog_dfs =
  match blog_words_drawn fit_transform keywords blog_dfs with
  | (ws, Ok _) => Ok ws
  | (_, Raise e) => Raise e
  end.
Proof.
  induction keywords as [| kw kws IH]; cbn [blog_words blog_words_drawn];
    [reflexivity |].
  destruct (empty (dict_get blog_dfs kw empty_frame)); [exact IH |].
  rewrite and_then_eval.
  destruct (salience fit_transform (dict_get blog_dfs kw empty_frame))
    as [words | e]; [| reflexivity].
  cbn [bind]. rewrite and_then_draw, IH.
  destruct (blog_words_drawn fit_transform kws blog_dfs) as [ws [[] | e]];
    reflexivity.
Qed.


(** ** The term charts, one by one *)

Lemma blog_words_drawn_all
    (fit_transform : list string -> result (list string * list (list Q)))
    (blog_dfs : dict DataFrame) (keywords : list string) :
  extracted fit_transform blog_dfs keywords ->
  blog_words_drawn fit_transform keywords blog_dfs =
  (flat_map (term_chart fit_transform blog_dfs) keywords, Ok tt).
Proof.
  unfold extracted, term_chart, blog_frame.
  induction keywords as [| kw kws IH]; intros H;
    cbn [blog_words_drawn flat_map]; [reflexivity |].
  rewrite IH by (intros k Hk; apply H; right; exact Hk).
  destruct (empty (dict_get blog_dfs kw empty_frame)) eqn:E; [reflexivity |].
  destruct (H kw (or_introl eq_refl) E) as [words Hw].
  rewrite Hw. reflexivity.
Qed.

Lemma blog_words_drawn_first
    (fit_transform : list string -> result (list string * list (list Q)))
    (blog_dfs : dict DataFrame) (before : list string) (kw : string)
    (after : list string) (e : exn) :
  extracted fit_transform blog_dfs before ->
  empty (blog_frame blog_dfs kw) = false ->
  salience fit_transform (blog_frame blog_dfs kw) = Raise e ->
  blog_words_drawn fit_transform (before ++ kw :: after) blog_dfs =
  (flat_map (term_chart fit_transform blog_dfs) before, Raise e).
Proof.
  unfold extracted, term_chart, blog_frame. intros H Hne He.
  induction before as [| k ks IH]; cbn [app blog_words_drawn flat_map].
  - rewrite Hne, He. reflexivity.
  - rewrite IH by (intros k' Hk'; apply H; right; exact Hk').
    destruct (empty (dict_get blog_dfs k empty_frame)) eqn:E; [reflexivity |].
    destruct (H k (or_introl eq_refl) E) as [words Hw].
    rewrite Hw. reflexivity.
Qed.

Lemma term_chart_In
    (fit_transform : list string -> result (list string * list (list Q)))
    (blog_dfs : dict DataFrame) (keywords : list string) (kw : string)
    (words : list (string * Q)) :
  In kw keywords ->
  empty (blog_frame blog_dfs kw) = false ->
  salience fit_transform (blog_frame blog_dfs kw) = Ok words ->
  In (word_bar kw words) (flat_map (term_chart fit_transform blog_dfs) keywords).
Proof.
  intros Hin Hne Hw. apply in_flat_map. exists kw. split; [exact Hin |].
  unfold term_chart. rewrite Hne, Hw. left. reflexivity.
Qed.

(** X18: the term charts are drawn one by one, in keyword order, one for
    each keyword whose blog frame is not empty.  When every extraction
    returns, the loop returns with all of them drawn.  The first extraction
    that raises ends the loop with its exception: the charts of the keywords
    before it stay drawn, and no keyword after it gets one.  What the loop
    has drawn when it returns is what [blog_words] returns. *)
Theorem term_charts_drawn
    (fit_transform : list string -> result (list string * list (list Q)))
    (blog_dfs : dict DataFrame) (keywords : list string) :
  (extracted fit_transform blog_dfs keywords ->
   blog_words_drawn fit_transform keywords blog_dfs =
     (flat_map (term_chart fit_transform blog_dfs) keywords, Ok tt) /\
   blog_words fit_transform keywords blog_dfs =
     Ok (flat_map (term_chart fit_transform blog_dfs) keywords)) /\
  (forall before kw after e,
     keywords = before ++ kw :: after ->
     extracted fit_transform blog_dfs before ->
     empty (blog_frame blog_dfs kw) = false ->
     salience fit_transform (blog_frame blog_dfs kw) = Raise e ->
     blog_words_drawn fit_transform keywords blog_dfs =
       (flat_map (term_chart fit_transform blog_dfs) before, Raise e) /\
     blog_words fit_transform keywords blog_dfs = Raise e).
Proof.
  split.
  - intros H. pose proof (blog_words_drawn_all _ _ _ H) as Hd.
    split; [exact Hd |]. rewrite blog_words_observed, Hd. reflexivity.
  - intros before kw after e -> Hb Hne He.
    pose proof (blog_words_drawn_first _ _ _ _ after _ Hb Hne He) as Hd.
    split; [exact Hd |]. rewrite blog_words_observed, Hd. reflexivity.
Qed.

Lemma term_charts_drawn_witness :
  exists words,
    blog_words_drawn sample_fit ["omega3"; "zinc"; "omega3"]
      [("omega3", sample_blog_frame); ("zinc", untitled_blog_frame)]
    = ([word_bar "omega3" words], Raise (KeyError "title")).
Proof.
  destruct (term_charts_drawn sample_fit
              [("omega3", sample_blog_frame); ("zinc", untitled_blog_frame)]
              ["omega3"; "zinc"; "omega3"]) as [_ H].
  destruct (H ["omega3"] "zinc" ["omega3"] (KeyError "title")) as [Hd _].
  - reflexivity.
  - intros kw [<- | []] _. eexists. reflexivity.
  - reflexivity.
  - reflexivity.
  - eexists. rewrite Hd. reflexivity.
Defined.

(** ** When the price steps of the chart tab return *)

Lemma index_of_Some_In (c : string) (cols : list string) (i : nat) :
  index_of c cols = Some i -> In c cols.
Proof.
  intros H. apply index_of_nth_error in H. apply (nth_error_In _ _ H).
Qed.

Lemma set_column_index (df : DataFrame) (c c' : string) (values : list cell) :
  index_of c' (columns (set_column df c values)) =
  match index_of c' (columns df) with
  | Some i => Some i
  | None => if String.eqb c' c then Some (length (columns df)) else None
  end.
Proof.
  unfold set_column. destruct (index_of c (columns df)) as [j |] eqn:Ec;
    cbn [columns].
  - destruct (index_of c' (columns df)) as [i |] eqn:Ec'; [reflexivity |].
    destruct (String.eqb_spec c' c) as [-> | _]; [congruence | reflexivity].
  - destruct (index_of c' (columns df)) as [i |] eqn:Ec'.
    + apply index_of_app_l, Ec'.
    + destruct (String.eqb_spec c' c) as [-> | Hne].
      * apply index_of_app_new, Ec.
      * apply index_of_app_other; assumption.
Qed.

Lemma column_Raise (df : DataFrame) (c : string) (e : exn) :
  column df c = Raise e -> e = KeyError c /\ index_of c (columns df) = None.
Proof.
  unfold column. destruct (index_of c (columns df)); [discriminate |].
  intros H. injection H as <-. split; reflexivity.
Qed.

Lemma column_Ok_In (df : DataFrame) (c : string) :
  In c (columns df) -> exists col, column df c = Ok col.
Proof.
  intros H. destruct (index_of_In c (columns df) H) as [i Hi].
  unfold column. rewrite Hi. eexists. reflexivity.
Qed.

Lemma shop_view_unpriced (kw : string) (df : DataFrame) (e : exn) :
  column df "lprice" = Raise e -> shop_view kw df = Raise (KeyError "lprice").
Proof.
  intros H. apply column_Raise in H. destruct H as [_ H].
  unfold shop_view, set_column_scalar, column at 1.
  rewrite set_column_index, H. reflexivity.
Qed.

Lemma shop_view_priced (kw : string) (df : DataFrame) (lprice : list cell) :
  column df "lprice" = Ok lprice ->
  exists tdf,
    shop_view kw df = Ok tdf /\
    In "keyword" (columns tdf) /\ In "lprice" (columns tdf).
Proof.
  intros H. unfold column in H.
  destruct (index_of "lprice" (columns df)) as [i |] eqn:Hi; [| discriminate].
  unfold shop_view, set_column_scalar, column at 1.
  rewrite set_column_index, Hi. cbn [bind]. eexists.
  split; [reflexivity |]. split.
  - apply (index_of_Some_In _ _
             (match index_of "keyword" (columns df) with
              | Some j => j
              | None => length (columns df)
              end)).
    rewrite !set_column_index.
    destruct (index_of "keyword" (columns df)); reflexivity.
  - apply (index_of_Some_In _ _ i). rewrite !set_column_index, Hi. reflexivity.
Qed.

Lemma all_shop_data_unpriced (shop_dfs : dict DataFrame) :
  Exists (fun kv => unpriced (snd kv)) shop_dfs ->
  all_shop_data shop_dfs = Raise (KeyError "lprice").
Proof.
  induction 1 as [[kw df] d [Hne Hl] | [kw df] d _ IH]; simpl in *.
  - rewrite Hne, (shop_view_unpriced kw df _ Hl). reflexivity.
  - destruct (empty df); [exact IH |].
    destruct (column df "lprice") as [lp | e] eqn:Hl.
    + destruct (shop_view_priced kw df lp Hl) as [tdf [-> _]].
      cbn [bind]. rewrite IH. reflexivity.
    + rewrite (shop_view_unpriced kw df e Hl). reflexivity.
Qed.

Lemma all_shop_data_priced (shop_dfs : dict DataFrame) :
  Forall (fun kv => priced (snd kv)) shop_dfs ->
  exists frames,
    all_shop_data shop_dfs = Ok frames /\
    Forall (fun tdf => In "keyword" (columns tdf) /\ In "lprice" (columns tdf))
           frames.
Proof.
  induction 1 as [| [kw df] d Hp _ [frames [IH Hall]]]; simpl in *.
  - exists []. split; [reflexivity | constructor].
  - destruct (empty df) eqn:He; [exists frames; split; assumption |].
    destruct Hp as [Hp | [lp Hl]]; [congruence |].
    destruct (shop_view_priced kw df lp Hl) as [tdf [-> Hcols]].
    cbn [bind]. rewrite IH. cbn [bind]. exists (tdf :: frames).
    split; [reflexivity | constructor; assumption].
Qed.

(** With some shop frame not empty and a price column in each of them, the
    chart tab draws the histogram and the mean-price bar, and then runs the
    term-chart loop. *)
Lemma tab_viz_drawn_open
    (fit_transform : list string -> result (list string * list (list Q)))
    (keywords : list string) (blog_dfs shop_dfs : dict DataFrame) :
  Exists (fun kv => empty (snd kv) = false) shop_dfs ->
  Forall (fun kv => priced (snd kv)) shop_dfs ->
  exists frames keys lprice,
    all_shop_data shop_dfs = Ok frames /\
    column (concat_frames frames) "keyword" = Ok keys /\
    column (concat_frames frames) "lprice" = Ok lprice /\
    exists rest r,
      tab_viz_drawn fit_transform keywords blog_dfs shop_dfs =
      (histogram (concat_frames frames)
       :: avg_price_bar (groupby_mean keys lprice)
       :: fst (blog_words_drawn fit_transform keywords blog_dfs) ++ rest, r) /\
      (forall e,
         snd (blog_words_drawn fit_transform keywords blog_dfs) = Raise e ->
         rest = [] /\ r = Raise e).
Proof.
  intros Hex Hp.
  destruct (all_shop_data_priced shop_dfs Hp) as [frames [Hf Hcols]].
  pose proof (all_shop_data_nonempty shop_dfs Hex frames Hf) as Hne.
  destruct frames as [| f fs]; [contradiction |].
  inversion Hcols as [| ? ? [Ik Il] _]. subst.
  destruct (column_Ok_In (concat_frames (f :: fs)) "keyword") as [ks Hk].
  { cbn [concat_frames columns]. apply In_unique. simpl.
    apply in_or_app. left. exact Ik. }
  destruct (column_Ok_In (concat_frames (f :: fs)) "lprice") as [lp Hl].
  { cbn [concat_frames columns]. apply In_unique. simpl.
    apply in_or_app. left. exact Il. }
  exists (f :: fs), ks, lp. repeat (split; [assumption |]).
  unfold tab_viz_drawn. rewrite and_then_eval, Hf, and_then_eval, Hk,
    and_then_eval, Hl, !and_then_draw, and_then_pair.
  cbn [fst snd].
  destruct (blog_words_drawn fit_transform keywords blog_dfs)
    as [charts [[] | e]]; cbn [fst snd].
  - eexists. eexists. split; [reflexivity |]. intros e H. discriminate H.
  - exists [], (Raise e). rewrite app_nil_r. split; [reflexivity |].
    intros e' H. injection H as <-. split; reflexivity.
Qed.

(** C8, amended: the term extraction is gated by the shop results.  It sits
    inside the branch taken when some keyword's shop result set is not
    empty, after the price steps of that branch.  When every shop result set
    is empty, the chart tab draws no chart and extracts nothing, whatever
    the blog result sets hold; when a shop result set that is not empty has no
    price column, the tab raises [KeyError] before any extraction.
    Otherwise the extraction is performed in keyword order for the keywords
    whose blog result set is not empty: when all of them return, every such
    keyword has its term chart; the first extraction that raises ends the
    tab with its exception, the charts of the keywords before it drawn and
    none for the keywords after it. *)
Theorem salience_when_some_shop
    (fit_transform : list string -> result (list string * list (list Q)))
    (keywords : list string) (blog_dfs shop_dfs : dict DataFrame) :
  (all_empty shop_dfs ->
   tab_viz_drawn fit_transform keywords blog_dfs shop_dfs = ([], Ok None)) /\
  (Exists (fun kv => unpriced (snd kv)) shop_dfs ->
   tab_viz_drawn fit_transform keywords blog_dfs shop_dfs =
     ([], Raise (KeyError "lprice"))) /\
  (Exists (fun kv => empty (snd kv) = false) shop_dfs ->
   Forall (fun kv => priced (snd kv)) shop_dfs ->
   exists combined_shop avg,
     (extracted fit_transform blog_dfs keywords ->
      (exists rest r,
         tab_viz_drawn fit_transform keywords blog_dfs shop_dfs =
           (histogram combined_shop :: avg_price_bar avg
            :: flat_map (term_chart fit_transform blog_dfs) keywords ++ rest,
            r)) /\
      (forall kw, In kw keywords -> empty (blog_frame blog_dfs kw) = false ->
         exists words,
           salience fit_transform (blog_frame blog_dfs kw) = Ok words /\
           In (word_bar kw words)
              (fst (tab_viz_drawn fit_transform keywords blog_dfs shop_dfs)))) /\
     (forall before kw after e,
        keywords = before ++ kw :: after ->
        extracted fit_transform blog_dfs before ->
        empty (blog_frame blog_dfs kw) = false ->
        salience fit_transform (blog_frame blog_dfs kw) = Raise e ->
        tab_viz_drawn fit_transform keywords blog_dfs shop_dfs =
          (histogram combined_shop :: avg_price_bar avg
           :: flat_map (term_chart fit_transform blog_dfs) before,
           Raise e))).
Proof.
  split; [| split].
  - intros He. unfold tab_viz_drawn.
    rewrite (all_shop_data_all_empty _ He). reflexivity.
  - intros Hex. unfold tab_viz_drawn.
    rewrite (all_shop_data_unpriced _ Hex). reflexivity.
  - intros Hex Hp.
    destruct (tab_viz_drawn_open fit_transform keywords blog_dfs shop_dfs
                Hex Hp)
      as [frames [ks [lp [_ [_ [_ [rest [r [Hd Hraise]]]]]]]]].
    exists (concat_frames frames), (groupby_mean ks lp). split.
    + intros Hall.
      rewrite (blog_words_drawn_all _ _ _ Hall) in Hd. cbn [fst] in Hd.
      split; [exists rest, r; exact Hd |].
      intros kw Hkw Hne. destruct (Hall kw Hkw Hne) as [words Hw].
      exists words. split; [exact Hw |].
      rewrite Hd. cbn [fst]. right. right. apply in_or_app. left.
      apply term_chart_In; assumption.
    + intros before kw after e -> Hb Hne He.
      rewrite (blog_words_drawn_first _ _ _ _ after _ Hb Hne He) in Hd, Hraise.
      cbn [fst snd] in Hd, Hraise.
      destruct (Hraise e eq_refl) as [-> ->].
      rewrite app_nil_r in Hd. exact Hd.
Qed.

Lemma salience_when_some_shop_witness :
  exists words,
    salience sample_fit
      (blog_frame [("omega3", sample_blog_frame)] "omega3") = Ok words /\
    In (word_bar "omega3" words)
       (fst (tab_viz_drawn sample_fit ["omega3"]
               [("omega3", sample_blog_frame)]
               [("omega3", sample_shop_frame)])).
Proof.
  destruct (salience_when_some_shop sample_fit ["omega3"]
              [("omega3", sample_blog_frame)] [("omega3", sample_shop_frame)])
    as [_ [_ H]].
  destruct H as [combined_shop [avg [H _]]].
  - constructor. reflexivity.
  - constructor; [| constructor]. right. eexists. reflexivity.
  - destruct H as [_ H].
    + intros kw [<- | []] _. eexists. reflexivity.
    + apply (H "omega3" (or_introl eq_refl) eq_refl).
Defined.

(** ** Blog results without a title *)

(** C5: on a run whose blog reply holds items none of which has a title,
    the missing field is not treated as the empty string: the frame has no
    title column, reading it at line 177 raises [KeyError] before the
    vectorizer is called, whatever the vectorizer, and the chart tab and the
    run end with that exception after the price charts.  A title missing
    from some of the items only is read as the empty string, as the claim
    says. *)
Theorem untitled_blog_raises
    (fit_transform : list string -> result (list string * list (list Q))) :
  exists c,
    collect untitled_net ["omega3"] = Ok c /\
    empty (blog_frame (blog_dfs c) "omega3") = false /\
    corpus (blog_frame (blog_dfs c) "omega3") = Raise (KeyError "title") /\
    salience fit_transform (blog_frame (blog_dfs c) "omega3")
      = Raise (KeyError "title") /\
    (exists hist avg,
       tab_viz_drawn fit_transform ["omega3"] (blog_dfs c) (shop_dfs c)
       = ([histogram hist; avg_price_bar avg], Raise (KeyError "title"))) /\
    search_tabs fit_transform ["omega3"] c = Raise (KeyError "title") /\
    exists b_df,
      fetch_search_results partly_titled_blog = Ok b_df /\
      corpus b_df = Ok ["omega review fish oil"; " capsules"].
Proof.
  eexists. split; [reflexivity |].
  split; [reflexivity |]. split; [reflexivity |]. split; [reflexivity |].
  split; [eexists; eexists; vm_compute; reflexivity |].
  split; [vm_compute; reflexivity |].
  eexists. split; reflexivity.
Qed.

(** ** Reading a price string *)













(** ** Price coercion *)





(** ** When the statistics tab completes *)

Lemma column_scalar (df : DataFrame) (c : string) (col : list cell) :
  scalar_cells df -> column df c = Ok col -> forallb hashable col = true.
Proof.
  unfold scalar_cells, column. intros Hs.
  destruct (index_of c (columns df)) as [i |]; [| discriminate].
  intros H. injection H as <-. apply forallb_forall. intros x Hx.
  apply in_map_iff in Hx. destruct Hx as [r [<- Hr]].
  rewrite Forall_forall in Hs. specialize (Hs r Hr).
  destruct (nth_in_or_default i r JNull) as [Hin | ->]; [| reflexivity].
  rewrite forallb_forall in Hs. apply Hs, Hin.
Qed.

Lemma eda_ready_columns (df : DataFrame) :
  scalar_cells df -> eda_ready df <-> has_shop_columns df.
Proof.
  intros Hs. unfold eda_ready, has_shop_columns. split.
  - intros [H | [[lp Hl] [mall [Hm _]]]]; [left; exact H | right].
    apply column_Ok_index in Hl, Hm. split; [apply Hl | apply Hm].
  - intros [H | [Hl Hm]]; [left; exact H | right].
    split; [apply column_Ok_In, Hl |].
    destruct (column_Ok_In df "mallName" Hm) as [mall Hmall].
    exists mall. split; [exact Hmall | apply (column_scalar df _ _ Hs Hmall)].
Qed.

Lemma dict_get_scalar (d : dict DataFrame) (k : string) :
  Forall (fun kv => scalar_cells (snd kv)) d ->
  scalar_cells (dict_get d k empty_frame).
Proof.
  intros H. unfold dict_get. destruct (assoc k d) as [df |] eqn:E.
  - apply assoc_In in E. rewrite Forall_forall in H. apply (H _ E).
  - constructor.
Qed.

(** X19: over a store of distinct keys whose frames are rectangular and
    hold scalar cells, the statistics tab completes exactly when every
    keyword of the list with a non-empty shop frame has a price column and a
    column of mall names; a frame without one of them makes the tab
    raise. *)
Theorem tab_eda_completes (keywords : list string) (d : dict DataFrame) :
  NoDup (keys d) ->
  Forall (fun kv => rectangular (snd kv)) d ->
  Forall (fun kv => scalar_cells (snd kv)) d ->
  (exists r, tab_eda keywords d = Ok r) <->
  (forall kw, In kw keywords -> has_shop_columns (dict_get d kw empty_frame)).
Proof.
  intros Hnd Hrect Hs. rewrite (tab_eda_ready keywords d Hnd Hrect).
  split; intros H kw Hkw.
  - apply (eda_ready_columns _ (dict_get_scalar d kw Hs)), H, Hkw.
  - apply (eda_ready_columns _ (dict_get_scalar d kw Hs)), H, Hkw.
Qed.

Lemma tab_eda_completes_witness :
  exists r, tab_eda ["omega3"; "zinc"] [("omega3", sample_shop_frame)] = Ok r.
Proof.
  apply (tab_eda_completes ["omega3"; "zinc"] [("omega3", sample_shop_frame)]).
  - repeat constructor. simpl. tauto.
  - repeat constructor.
  - repeat constructor.
  - intros kw [<- | [<- | []]]; [right | left; reflexivity].
    simpl. tauto.
Defined.

(** ** What the term chart shows *)

(** X25: for a blog result set that has a title and a description column
    whose cells are strings or missing, the documents handed to the
    vectorizer are title, one space, description, a missing cell read as the
    empty string; whatever vocabulary and scores the vectorizer returns, the
    chart lists each vocabulary term once, with the sum of its scores over
    all documents as its weight (non-negative when the scores are), in
    descending order of weight. *)
Theorem salience_weights
    (fit_transform : list string -> result (list string * list (list Q)))
    (b_df : DataFrame) (title description : list cell)
    (names : list string) (tfidf_matrix : list (list Q)) :
  column b_df "title" = Ok title ->
  column b_df "description" = Ok description ->
  Forall is_text title ->
  Forall is_text description ->
  fit_transform (documents title description) = Ok (names, tfidf_matrix) ->
  corpus b_df = Ok (documents title description) /\
  exists terms,
    salience fit_transform b_df = Ok terms /\
    Permutation (map fst terms) names /\
    length terms = length names /\
    (forall word w, In (word, w) terms ->
       exists j, nth_error names j = Some word /\
                 w = Qsum (map (fun row => nth j row 0%Q) tfidf_matrix)) /\
    (Forall (Forall (fun q => (0 <= q)%Q)) tfidf_matrix ->
     Forall (fun t => (0 <= snd t)%Q) terms) /\
    descending terms.
Proof.
  intros Ht Hd Tt Td Hfit.
  pose proof (corpus_documents b_df title description Ht Hd Tt Td) as Hc.
  split; [exact Hc |].
  set (weights := column_sums (length names) tfidf_matrix).
  set (order := fun a b : string * Q => Qle_bool (snd b) (snd a)).
  exists (sort_by order (combine names weights)).
  assert (Hw : length weights = length names)
    by (unfold weights, column_sums; rewrite length_map, length_seq; reflexivity).
  pose proof (sort_by_Permutation order (combine names weights)) as Hperm.
  split; [| split; [| split; [| split; [| split]]]].
  - unfold salience. rewrite Hc. simpl. rewrite Hfit. reflexivity.
  - apply Permutation_trans with (map fst (combine names weights)).
    + apply Permutation_map, Hperm.
    + clearbody weights. clear - Hw. revert weights Hw.
      induction names as [| n names IH]; intros [| w ws] Hw;
        simpl in *; try discriminate; [apply Permutation_refl |].
      apply perm_skip, IH. lia.
  - rewrite (Permutation_length Hperm), length_combine, Hw. lia.
  - intros word w Hin.
    apply (Permutation_in _ Hperm) in Hin.
    unfold weights, column_sums in Hin.
    apply (In_combine_seq
             (fun j => Qsum (map (fun row => nth j row 0%Q) tfidf_matrix)))
      in Hin.
    exact Hin.
  - intros Hpos. apply (Permutation_Forall (Permutation_sym Hperm)).
    apply Forall_forall. intros [word w] Hin. simpl.
    apply in_combine_r in Hin.
    pose proof (column_sums_nonneg (length names) tfidf_matrix Hpos) as Hall.
    rewrite Forall_forall in Hall. apply Hall, Hin.
  - apply salience_order_Sorted.
Qed.

Lemma salience_weights_witness :
  exists terms,
    salience sample_fit sample_blog_frame = Ok terms /\
    Permutation (map fst terms) ["oil"; "omega"] /\
    descending terms.
Proof.
  destruct (salience_weights sample_fit sample_blog_frame
              [JStr "omega review"; JStr "daily omega"]
              [JStr "fish oil"; JNull]
              ["oil"; "omega"]
              [[(1 # 2)%Q; (3 # 4)%Q]; [(1 # 2)%Q; (3 # 4)%Q]])
    as [_ [terms (Hs & Hp & _ & _ & _ & Hd)]].
  - reflexivity.
  - reflexivity.
  - repeat constructor.
  - repeat constructor.
  - reflexivity.
  - exists terms. repeat split; assumption.
Defined.
